(** * ID3v2 tag container and footer of node-taglib-sharp: a shallow embedding

    The development follows [src/id3v2/footer.ts] and [src/id3v2/id3v2Tag.ts].
    Byte vectors are lists of integers, JavaScript exceptions are an explicit
    error type, and object state is passed explicitly. *)

From Stdlib Require Import ZArith List String Ascii Lia Bool.
From stdpp Require Import base numbers list option strings pretty.

Local Open Scope Z_scope.

(** ** Errors and results *)

(** The exceptions the two source files raise or let through.  [JsError msg]
    is a plain [new Error(msg)]; [GuardError] is a failed [Guards.*] check;
    [TypeError] is the JavaScript runtime error of dereferencing [undefined]. *)
Inductive error : Type :=
  | CorruptFileError
  | NotImplementedError
  | FormatError
  | GuardError
  | TypeError
  | JsError (msg : string).

Inductive result (A : Type) : Type :=
  | Ok (a : A)
  | Throw (e : error).
Arguments Ok {A} a.
Arguments Throw {A} e.

#[global] Instance result_ret : MRet result := fun A a => Ok a.
#[global] Instance result_bind : MBind result := fun A B k r =>
  match r with
  | Ok a => k a
  | Throw e => Throw e
  end.

(** ** Byte vectors *)

(** Modelled from the spec: the generic byte buffer (byteVector.ts is not
    part of the sources), as the list of its bytes with the operations the
    two classes call on it. *)
Definition ByteVector : Type := list Z.

#[global] Typeclasses Transparent ByteVector.

Definition is_byte (b : Z) : Prop := 0 <= b < 256.

Module ByteVector.

(** [ByteVector.fromString] on text made of 8-bit characters. *)
Fixpoint fromString (s : string) : ByteVector :=
  match s with
  | EmptyString => []
  | String c rest => Z.of_N (N_of_ascii c) :: fromString rest
  end.

Definition get (data : ByteVector) (i : nat) : Z := nth i data 0.

Definition mid (data : ByteVector) (start len : nat) : ByteVector :=
  take len (drop start data).

Fixpoint equal (a b : ByteVector) : bool :=
  match a, b with
  | [], [] => true
  | x :: a', y :: b' => (x =? y) && equal a' b'
  | _, _ => false
  end.

Fixpoint startsWith (data pattern : ByteVector) : bool :=
  match pattern, data with
  | [], _ => true
  | p :: pattern', d :: data' => (d =? p) && startsWith data' pattern'
  | _ :: _, [] => false
  end.

(** [ByteVector.fromSize(n)]: [n] zero bytes. *)
Definition fromSize (n : Z) : ByteVector := replicate (Z.to_nat n) 0.

End ByteVector.

(** ** Guards *)

(** Modelled from the spec: the argument checks of [Guards] (utils.ts is not
    part of the sources) for an 8-bit and for a 32-bit unsigned integer.
    [Guards.truthy] and [Guards.notNullOrUndefined] on an object or an enum
    value always pass and are left out. *)
Definition Guards_byte (v : Z) : bool := (0 <=? v) && (v <=? 255).
Definition Guards_uint (v : Z) : bool := (0 <=? v) && (v <=? 4294967295).

(** ** Header flags *)

(** Modelled from the spec: the bits of the flags byte (headerFlags.ts is not
    part of the sources): bit 7 unsynchronized, bit 6 extended header, bit 5
    experimental indicator, bit 4 footer present. *)
Module HeaderFlags.
Definition None_ : Z := 0.
Definition FooterPresent : Z := 16.
Definition ExperimentalIndicator : Z := 32.
Definition ExtendedHeader : Z := 64.
Definition Unsynchronication : Z := 128.
End HeaderFlags.

(** ** Sync-safe integers *)

Module SyncData.

(** Modelled from the spec: [SyncData.toUint] (syncData.ts is not part of
    the sources).  Each byte is a 7-bit group, the groups are concatenated
    big-endian; a byte of 128 or more is a format error. *)
Definition toUint (data : ByteVector) : result Z :=
  if existsb (fun b => 128 <=? b) data then Throw FormatError
  else Ok (fold_left (fun acc b => Z.lor (Z.shiftl acc 7) (Z.land b 127)) data 0).

(** Modelled from the spec: [SyncData.fromUint].  The low 28 bits are split
    into four 7-bit groups, most significant group first. *)
Definition fromUint (value : Z) : ByteVector :=
  [ Z.land (Z.shiftr value 21) 127;
    Z.land (Z.shiftr value 14) 127;
    Z.land (Z.shiftr value 7) 127;
    Z.land value 127 ].

End SyncData.

(** ** Footer (footer.ts) *)

(** Modelled from the spec: the fixed sizes of header and footer
    (id3v2TagSettings.ts is not part of the sources). *)
Module Id3v2TagSettings.
Definition headerSize : Z := 10.
Definition footerSize : Z := 10.
End Id3v2TagSettings.

Record Footer : Type := mkFooter {
  _flags : Z;
  _majorVersion : Z;
  _revisionNumber : Z;
  _tagSize : Z
}.

Module Footer.

Definition fileIdentifier : ByteVector := ByteVector.fromString "3DI".

(** [set tagSize]: guarded by [Guards.uint]. *)
Definition set_tagSize (value : Z) (f : Footer) : result unit * Footer :=
  if Guards_uint value
  then (Ok tt, mkFooter (_flags f) (_majorVersion f) (_revisionNumber f) value)
  else (Throw GuardError, f).

(** [Footer.fromData].  The object under construction is local to the call,
    so a throw leaves nothing behind and the result is the footer or the
    error.  The assignment to [tagSize] goes through the guarded setter. *)
Definition fromData (data : ByteVector) : result Footer :=
  if Z.of_nat (length data) <? Id3v2TagSettings.footerSize then Throw CorruptFileError
  else if negb (ByteVector.startsWith data fileIdentifier) then Throw CorruptFileError
  else
    let majorVersion := ByteVector.get data 3 in
    let revisionNumber := ByteVector.get data 4 in
    let flags := ByteVector.get data 5 in
    if (majorVersion =? 2) && (0 <? Z.land flags 127) then Throw CorruptFileError
    else if (majorVersion =? 3) && (0 <? Z.land flags 15) then Throw CorruptFileError
    else if (majorVersion =? 4) && (0 <? Z.land flags 7) then Throw CorruptFileError
    else if existsb (fun i => 128 <=? ByteVector.get data i) [6; 7; 8; 9]%nat
    then Throw CorruptFileError
    else
      size ← SyncData.toUint (ByteVector.mid data 6 4);
      match set_tagSize size (mkFooter flags majorVersion revisionNumber 0) with
      | (Ok _, footer) => Ok footer
      | (Throw e, _) => Throw e
      end.

Section Properties.
(** [Id3v2TagSettings.defaultVersion], a process-wide setting. *)
Variable defaultVersion : Z.

Definition majorVersion (f : Footer) : Z :=
  if _majorVersion f =? 0 then defaultVersion else _majorVersion f.

Definition flags (f : Footer) : Z := _flags f.
Definition revisionNumber (f : Footer) : Z := _revisionNumber f.
Definition tagSize (f : Footer) : Z := _tagSize f.

Definition completeTagSize (f : Footer) : Z :=
  tagSize f + Id3v2TagSettings.headerSize + Id3v2TagSettings.footerSize.

(** [set flags]. *)
Definition set_flags (value : Z) (f : Footer) : result unit * Footer :=
  let version3Flags := Z.lor HeaderFlags.ExtendedHeader HeaderFlags.ExperimentalIndicator in
  if (0 <? Z.land value version3Flags) && (majorVersion f <? 3)
  then (Throw (JsError "Feature only supported in version 2.3+"), f)
  else
    let version4Flags := HeaderFlags.FooterPresent in
    if (0 <? Z.land value version4Flags) && (majorVersion f <? 4)
    then (Throw (JsError "Feature only supported in version 2.4+"), f)
    else (Ok tt, mkFooter value (_majorVersion f) (_revisionNumber f) (_tagSize f)).

(** [set majorVersion]. *)
Definition set_majorVersion (value : Z) (f : Footer) : result unit * Footer :=
  if negb (value =? 4)
  then (Throw (JsError "Argument out of range: Version unsupported"), f)
  else (Ok tt, mkFooter (_flags f) value (_revisionNumber f) (_tagSize f)).

(** [set revisionNumber]. *)
Definition set_revisionNumber (value : Z) (f : Footer) : result unit * Footer :=
  if Guards_byte value
  then (Ok tt, mkFooter (_flags f) (_majorVersion f) value (_tagSize f))
  else (Throw GuardError, f).

(** [Footer.render]. *)
Definition render (f : Footer) : ByteVector :=
  fileIdentifier ++ [majorVersion f] ++ [revisionNumber f] ++ [flags f]
    ++ SyncData.fromUint (tagSize f).

End Properties.

End Footer.

(** ** Header *)

Record Header : Type := mkHeader {
  h_flags : Z;
  h_majorVersion : Z;
  h_revisionNumber : Z;
  h_tagSize : Z
}.

(** Modelled from the spec: the [Header] class (header.ts is not part of the
    sources).  It has the attribute set of the footer, is parsed like it with
    the identifier "ID3", accepts major versions 2 to 4 on its setter, and
    refuses flag bits that need a higher version than the current one. *)
Module Header.

Definition size : Z := 10.
Definition fileIdentifier : ByteVector := ByteVector.fromString "ID3".

Definition fromData (data : ByteVector) : result Header :=
  if Z.of_nat (length data) <? size then Throw CorruptFileError
  else if negb (ByteVector.startsWith data fileIdentifier) then Throw CorruptFileError
  else
    let majorVersion := ByteVector.get data 3 in
    let revisionNumber := ByteVector.get data 4 in
    let flags := ByteVector.get data 5 in
    if (majorVersion =? 2) && (0 <? Z.land flags 127) then Throw CorruptFileError
    else if (majorVersion =? 3) && (0 <? Z.land flags 15) then Throw CorruptFileError
    else if (majorVersion =? 4) && (0 <? Z.land flags 7) then Throw CorruptFileError
    else if existsb (fun i => 128 <=? ByteVector.get data i) [6; 7; 8; 9]%nat
    then Throw CorruptFileError
    else
      tagSize ← SyncData.toUint (ByteVector.mid data 6 4);
      Ok (mkHeader flags majorVersion revisionNumber tagSize).

Definition set_flags (value : Z) (h : Header) : result unit * Header :=
  let version3Flags := Z.lor HeaderFlags.ExtendedHeader HeaderFlags.ExperimentalIndicator in
  if (0 <? Z.land value version3Flags) && (h_majorVersion h <? 3)
  then (Throw (JsError "Feature only supported in version 2.3+"), h)
  else if (0 <? Z.land value HeaderFlags.FooterPresent) && (h_majorVersion h <? 4)
  then (Throw (JsError "Feature only supported in version 2.4+"), h)
  else (Ok tt, mkHeader value (h_majorVersion h) (h_revisionNumber h) (h_tagSize h)).

Definition set_majorVersion (value : Z) (h : Header) : result unit * Header :=
  if Guards_byte value && (2 <=? value) && (value <=? 4)
  then (Ok tt, mkHeader (h_flags h) value (h_revisionNumber h) (h_tagSize h))
  else (Throw GuardError, h).

End Header.

(** ** Frames as the tag container sees them *)

Inductive StringType : Type := Latin1 | UTF16 | UTF16BE | UTF8 | UTF16LE.

Inductive FrameClassType : Type :=
  | AttachmentFrame
  | CommentsFrame
  | TextInformationFrame
  | UniqueFileIdentifierFrame
  | UnknownFrame
  | UnsynchronizedLyricsFrame
  | UrlLinkFrame
  | UserTextInformationFrame.

Definition FrameClassType_eqb (a b : FrameClassType) : bool :=
  match a, b with
  | AttachmentFrame, AttachmentFrame
  | CommentsFrame, CommentsFrame
  | TextInformationFrame, TextInformationFrame
  | UniqueFileIdentifierFrame, UniqueFileIdentifierFrame
  | UnknownFrame, UnknownFrame
  | UnsynchronizedLyricsFrame, UnsynchronizedLyricsFrame
  | UrlLinkFrame, UrlLinkFrame
  | UserTextInformationFrame, UserTextInformationFrame => true
  | _, _ => false
  end.

(** Modelled from the spec: a frame as the minimal capability set the
    container depends on (the frame classes are not part of the sources):
    identifier, class tag, flag bits, reported size, and the text fields that
    the text, comment and lyrics frames expose.  A JavaScript string is a Rocq
    string of its code units; a missing ([undefined]) text is the empty
    string. *)
Module Frame.

Record t : Type := mk {
  frameId : ByteVector;
  frameClassType : FrameClassType;
  flags : Z;
  size : Z;
  text : list string;
  textEncoding : StringType
}.

Definition set_flags (v : Z) (f : t) : t :=
  mk (frameId f) (frameClassType f) v (size f) (text f) (textEncoding f).

Definition set_text (v : list string) (f : t) : t :=
  mk (frameId f) (frameClassType f) (flags f) (size f) v (textEncoding f).

Definition set_textEncoding (v : StringType) (f : t) : t :=
  mk (frameId f) (frameClassType f) (flags f) (size f) (text f) v.

(** Modelled from the spec: the text of a text frame as one string
    (textInformationFrame.ts is not part of the sources); several values are
    joined with a separator. *)
Definition toString (f : t) : string := String.concat "; " (text f).

End Frame.

(** The four-character identifiers of [FrameTypes] that the container
    names. *)
Module FrameTypes.
Definition TDRC : ByteVector := ByteVector.fromString "TDRC".
Definition TYER : ByteVector := ByteVector.fromString "TYER".
Definition TDAT : ByteVector := ByteVector.fromString "TDAT".
Definition TIME : ByteVector := ByteVector.fromString "TIME".
Definition TMCL : ByteVector := ByteVector.fromString "TMCL".
Definition TIT2 : ByteVector := ByteVector.fromString "TIT2".
End FrameTypes.

(** Modelled from the spec: the per-frame "unsynchronized" and "discard on tag
    alteration" flags are single bits of the frame's flag set (frameHeader.ts
    is not part of the sources). *)
Module Id3v2FrameFlags.
Definition Desynchronized : Z := 2.
Definition TagAlterPreservation : Z := 16384.
End Id3v2FrameFlags.

(** Modelled from the spec: the "lazy picture loading" read style is one bit
    of the read-style set (file.ts is not part of the sources). *)
Module ReadStyle.
Definition None_ : Z := 0.
Definition PictureLazy : Z := 4.
End ReadStyle.

(** The static configuration of [Id3v2Tag]. *)
Record Settings : Type := mkSettings {
  defaultEncoding : StringType;
  defaultVersion : Z;
  forceDefaultVersion : bool;
  language : string
}.

(** What the container uses of an extended header: its size. *)
Record ExtendedHeader : Type := mkExtendedHeader { eh_size : Z }.

(** ** The byte source *)

Inductive FileOp : Type :=
  | Seek (position : Z)
  | ReadBlock (size : Z).

(** Modelled from the spec: a byte source with [seek] and [readBlock] (file.ts
    is not part of the sources).  The record keeps the calls made on it. *)
Module File.

Record t : Type := mk {
  contents : ByteVector;
  position : Z;
  calls : list FileOp
}.

Definition length (f : t) : Z := Z.of_nat (List.length (contents f)).

Definition seek (p : Z) (f : t) : t :=
  mk (contents f) p (calls f ++ [Seek p]).

Definition readBlock (n : Z) (f : t) : ByteVector * t :=
  let block := ByteVector.mid (contents f) (Z.to_nat (position f)) (Z.to_nat n) in
  (block, mk (contents f) (position f + Z.of_nat (List.length block)) (calls f ++ [ReadBlock n])).

End File.

(** ** The tag container (id3v2Tag.ts)

    A reference to a frame object held by the code is the position of that
    frame in [_frameList]; every entry of the list is a frame object of its
    own.  The performers-role cache is left out: the model covers containers
    on which [_performersRole] is unset, as it is after construction and
    after [read]. *)
Record Id3v2Tag : Type := mkTag {
  _extendedHeader : option ExtendedHeader;
  _frameList : list Frame.t;
  _header : Header
}.

Definition with_frames (frames : list Frame.t) (tag : Id3v2Tag) : Id3v2Tag :=
  mkTag (_extendedHeader tag) frames (_header tag).

Definition with_header (h : Header) (tag : Id3v2Tag) : Id3v2Tag :=
  mkTag (_extendedHeader tag) (_frameList tag) h.

Definition with_extendedHeader (e : ExtendedHeader) (tag : Id3v2Tag) : Id3v2Tag :=
  mkTag (Some e) (_frameList tag) (_header tag).

Definition ident_error : error :=
  JsError "Argument out of range: ident must be 4 characters".

(** [get version]. *)
Definition version (cfg : Settings) (tag : Id3v2Tag) : Z :=
  if forceDefaultVersion cfg then defaultVersion cfg else h_majorVersion (_header tag).

(** [addFrame]: a frame object is always truthy. *)
Definition addFrame (frame : Frame.t) (tag : Id3v2Tag) : Id3v2Tag :=
  with_frames (_frameList tag ++ [frame]) tag.

(** [getFramesByIdentifier]; it only reads the container. *)
Definition getFramesByIdentifier (type : FrameClassType) (ident : ByteVector)
    (tag : Id3v2Tag) : result (list Frame.t) :=
  if negb (Nat.eqb (length ident) 4) then Throw ident_error
  else Ok (List.filter
             (fun f => FrameClassType_eqb (Frame.frameClassType f) type
                       && ByteVector.equal (Frame.frameId f) ident)
             (_frameList tag)).


(** The loop of [removeFrames]: [i] runs from [length - 1] down to 0 and
    splices out every matching entry; [n] is [i + 1]. *)
Fixpoint removeFrames_loop (ident : ByteVector) (n : nat) (frames : list Frame.t)
    : list Frame.t :=
  match n with
  | O => frames
  | S i =>
      let frames' :=
        match frames !! i with
        | Some f => if ByteVector.equal (Frame.frameId f) ident
                    then delete i frames else frames
        | None => frames
        end in
      removeFrames_loop ident i frames'
  end.

(** [removeFrames]. *)
Definition removeFrames (ident : ByteVector) (tag : Id3v2Tag) : result unit * Id3v2Tag :=
  if negb (Nat.eqb (length ident) 4) then (Throw ident_error, tag)
  else (Ok tt, with_frames (removeFrames_loop ident (length (_frameList tag)) (_frameList tag)) tag).

(** JavaScript truthiness of a string. *)
Definition truthy (s : string) : bool := negb (String.eqb s "").

(** [String.prototype.padStart] with a one-character filler. *)
Definition padStart (width : nat) (filler : string) (s : string) : string :=
  String.concat "" (replicate (width - String.length s)%nat filler) +:+ s.

Section Container.

(** The frame classes are collaborators.  Each lookup receives the tag and
    answers with the position of the frame; the creating lookups
    ([create = true]) also return the tag, to which they may have added a
    fresh frame. *)
Variable TextInformationFrame_getTextInformationFrame :
  Id3v2Tag -> ByteVector -> Id3v2Tag * nat.
Variable UrlLinkFrame_get : Id3v2Tag -> ByteVector -> Id3v2Tag * nat.
Variable CommentsFrame_getPreferred : Id3v2Tag -> string -> string -> option nat.
Variable UnsynchronizedLyricsFrame_getPreferred : Id3v2Tag -> string -> string -> option nat.
Variable UnsynchronizedLyricsFrame_get : Id3v2Tag -> string -> string -> Id3v2Tag * nat.
(** [frame.render(version)]. *)
Variable Frame_render : Frame.t -> Z -> result ByteVector.
(** [SyncData.unsyncByteVector], as a function of the buffer. *)
Variable SyncData_unsyncByteVector : ByteVector -> ByteVector.

Variable cfg : Settings.

(** The two assignments [frame.text = ...; frame.textEncoding = ...] on the
    frame object at position [i]. *)
Definition write_text (i : nat) (text : list string) (tag : Id3v2Tag) : Id3v2Tag :=
  with_frames
    (alter (fun f => Frame.set_textEncoding (defaultEncoding cfg) (Frame.set_text text f))
           i (_frameList tag))
    tag.

(** [setTextFrame]. *)
Definition setTextFrame (ident : ByteVector) (text : list string) (tag : Id3v2Tag)
    : result unit * Id3v2Tag :=
  if negb (Nat.eqb (length ident) 4) then (Throw ident_error, tag)
  else
    let empty := forallb (fun s => negb (truthy s)) text in
    if empty then removeFrames ident tag
    else if ByteVector.get ident 0 =? 87 (* "W" *) then
      let '(tag', i) := UrlLinkFrame_get tag ident in
      (Ok tt, write_text i text tag')
    else
      let '(tag', i) := TextInformationFrame_getTextInformationFrame tag ident in
      (Ok tt, write_text i text tag').

(** [setNumberFrame]. *)
Definition setNumberFrame (ident : ByteVector) (numerator denominator minPlaces : Z)
    (tag : Id3v2Tag) : result unit * Id3v2Tag :=
  if negb (Guards_uint numerator) then (Throw GuardError, tag)
  else if negb (Guards_uint denominator) then (Throw GuardError, tag)
  else if negb (Guards_byte minPlaces) then (Throw GuardError, tag)
  else if negb (Nat.eqb (length ident) 4) then (Throw ident_error, tag)
  else if (numerator =? 0) && (denominator =? 0) then removeFrames ident tag
  else if negb (denominator =? 0) then
    let formattedNumerator := padStart (Z.to_nat minPlaces) "0" (pretty numerator) in
    setTextFrame ident [formattedNumerator +:+ "/" +:+ pretty denominator] tag
  else setTextFrame ident [pretty numerator] tag.




(** The frame loop of [render].  The flag assignment on a frame stays even
    when a later frame aborts the render. *)
Fixpoint render_frames (unsyncAtFrameLevel : bool) (majorVersion : Z)
    (frames : list Frame.t) (tagData : ByteVector) : result ByteVector * list Frame.t :=
  match frames with
  | [] => (Ok tagData, [])
  | frame :: rest =>
      let frame' :=
        if unsyncAtFrameLevel
        then Frame.set_flags (Z.lor (Frame.flags frame) Id3v2FrameFlags.Desynchronized) frame
        else frame in
      if 0 <? Z.land (Frame.flags frame') Id3v2FrameFlags.TagAlterPreservation then
        let '(r, rest') := render_frames unsyncAtFrameLevel majorVersion rest tagData in
        (r, frame' :: rest')
      else
        match Frame_render frame' majorVersion with
        | Ok bytes =>
            let '(r, rest') :=
              render_frames unsyncAtFrameLevel majorVersion rest (tagData ++ bytes) in
            (r, frame' :: rest')
        | Throw NotImplementedError =>
            let '(r, rest') := render_frames unsyncAtFrameLevel majorVersion rest tagData in
            (r, frame' :: rest')
        | Throw e => (Throw e, frame' :: rest)
        end
  end.

(** The padding appended when no footer follows. *)
Definition padding_size (tagSize : Z) (tagData : ByteVector) : Z :=
  if Z.of_nat (length tagData) <? tagSize
  then tagSize - Z.of_nat (length tagData)
  else 1024.

(** [render], from the computation of [hasFooter] on: the tag data. *)
Definition render_tag_data (tag1 : Id3v2Tag) : result ByteVector * Id3v2Tag :=
  let flags := h_flags (_header tag1) in
  let hasFooter := 0 <? Z.land flags HeaderFlags.FooterPresent in
  let unsyncAtFrameLevel :=
    (0 <? Z.land flags HeaderFlags.Unsynchronication) && (4 <=? version cfg tag1) in
  let unsyncAtTagLevel :=
    (0 <? Z.land flags HeaderFlags.Unsynchronication) && (version cfg tag1 <? 4) in
  match Header.set_majorVersion (if hasFooter then 4 else version cfg tag1) (_header tag1) with
  | (Throw e, _) => (Throw e, tag1)
  | (Ok _, h2) =>
      match Header.set_flags (Z.land (h_flags h2) (Z.lnot HeaderFlags.ExtendedHeader)) h2 with
      | (Throw e, _) => (Throw e, with_header h2 tag1)
      | (Ok _, h3) =>
          let tag3 := with_header h3 tag1 in
          match render_frames unsyncAtFrameLevel (h_majorVersion h3) (_frameList tag3) [] with
          | (Throw e, frames) => (Throw e, with_frames frames tag3)
          | (Ok tagData, frames) =>
              let tagData1 :=
                if unsyncAtTagLevel then SyncData_unsyncByteVector tagData else tagData in
              let tagData2 :=
                if negb hasFooter
                then tagData1 ++ ByteVector.fromSize (padding_size (h_tagSize h3) tagData1)
                else tagData1 in
              (Ok tagData2, with_frames frames tag3)
          end
      end
  end.

(** The arguments that a spread [...ret] passes to a call.  [None] is
    [undefined], which is not iterable: spreading it throws a [TypeError]
    before the call is made. *)
Definition spread {A : Type} (ret : option (list A)) : result (list A) :=
  match ret with
  | Some values => Ok values
  | None => Throw TypeError
  end.

(** [render].  [ret] is declared as [undefined]; with [_performersRole] unset
    the first block is skipped, and the arguments of the call
    [setTextFrame(TMCL, ...ret)] are the spread of that [ret]. *)
Definition render (tag : Id3v2Tag) : result ByteVector * Id3v2Tag :=
  let ret : option (list string) := None in
  match spread ret with
  | Throw e => (Throw e, tag)
  | Ok text =>
      match setTextFrame FrameTypes.TMCL text tag with
      | (Throw e, tag1) => (Throw e, tag1)
      | (Ok _, tag1) => render_tag_data tag1
      end
  end.

End Container.

(** ** Parsing (id3v2Tag.ts, [parse] and [read]) *)

(** The variables of the scanning loop of [parse]: the current offset, the
    container, and the first-seen legacy date frames, each a reference to a
    frame that [addFrame] has just appended. *)
Record ScanState : Type := mkScan {
  frameDataPosition : Z;
  scan_tag : Id3v2Tag;
  tdrc : option nat;
  tyer : option nat;
  tdat : option nat;
  time : option nat
}.

Definition is_none {A} (o : option A) : bool :=
  match o with None => true | Some _ => false end.

Section Parse.

(** [FrameFactory.createFrame(data, file, offset, version, alreadyUnsynced)]:
    a read result [{frame, offset}] whose frame may be [undefined], or an
    exception.  The factory reads at the absolute offset it is given; the
    reads it makes on the file are not recorded. *)
Variable FrameFactory_createFrame :
  option ByteVector -> File.t -> Z -> Z -> bool -> result (option Frame.t * Z).
(** [SyncData.resyncByteVector(data)], called on whatever [data] holds. *)
Variable SyncData_resyncByteVector : option ByteVector -> result (option ByteVector).
(** [ExtendedHeader.fromData(data, version)]. *)
Variable ExtendedHeader_fromData : option ByteVector -> Z -> result ExtendedHeader.
(** [Id3v2FrameHeader.getSize(version)]. *)
Variable Id3v2FrameHeader_getSize : Z -> Z.

Definition fullTagUnsync (h : Header) : bool :=
  (h_majorVersion h <? 4) && (0 <? Z.land (h_flags h) HeaderFlags.Unsynchronication).

(** The first statement of [parse]: the guarded [seek] and [readBlock]. *)
Definition materialize (h : Header) (data : option ByteVector) (file : File.t)
    (position style : Z) : option ByteVector * File.t :=
  match data with
  | Some _ =>
      if fullTagUnsync h
         || (h_tagSize h <? 1024)
         || (0 <? Z.land style ReadStyle.PictureLazy)
         || (0 <? Z.land (h_flags h) HeaderFlags.ExtendedHeader)
      then
        let '(block, file') := File.readBlock (h_tagSize h) (File.seek position file) in
        (Some block, file')
      else (data, file)
  | None => (None, file)
  end.

Definition set_position (p : Z) (st : ScanState) : ScanState :=
  mkScan p (scan_tag st) (tdrc st) (tyer st) (tdat st) (time st).

(** The bookkeeping at the end of a loop round, after [addFrame]; [frame]
    is the position of the frame just added. *)
Definition remember (id : ByteVector) (frame : nat) (st : ScanState) : ScanState :=
  if is_none (tdrc st) && ByteVector.equal id FrameTypes.TDRC
  then mkScan (frameDataPosition st) (scan_tag st) (Some frame) (tyer st) (tdat st) (time st)
  else if is_none (tyer st) && ByteVector.equal id FrameTypes.TYER
  then mkScan (frameDataPosition st) (scan_tag st) (tdrc st) (Some frame) (tdat st) (time st)
  else if is_none (tdat st) && ByteVector.equal id FrameTypes.TDAT
  then mkScan (frameDataPosition st) (scan_tag st) (tdrc st) (tyer st) (Some frame) (time st)
  else if is_none (time st) && ByteVector.equal id FrameTypes.TIME
  then mkScan (frameDataPosition st) (scan_tag st) (tdrc st) (tyer st) (tdat st) (Some frame)
  else st.

(** The [while] loop of [parse].  [None] is a loop that has not ended
    within [fuel] rounds; otherwise the state the loop leaves and whether it
    ended normally or by an exception. *)
Fixpoint scan (fuel : nat) (data : option ByteVector) (file : File.t)
    (majorVersion : Z) (unsync : bool) (frameDataEndPosition : Z) (st : ScanState)
    : option (result unit * ScanState) :=
  if negb (frameDataPosition st <? frameDataEndPosition) then Some (Ok tt, st)
  else
    match fuel with
    | O => None
    | S fuel' =>
        match FrameFactory_createFrame data file (frameDataPosition st) majorVersion unsync with
        | Throw NotImplementedError | Throw CorruptFileError =>
            (* continue *)
            scan fuel' data file majorVersion unsync frameDataEndPosition st
        | Throw e => Some (Throw e, st)
        | Ok (frame, offset) =>
            let st1 := set_position offset st in
            match frame with
            | None => Some (Ok tt, st1) (* break *)
            | Some frame =>
                if Frame.size frame =? 0
                then scan fuel' data file majorVersion unsync frameDataEndPosition st1
                else
                  let index := length (_frameList (scan_tag st1)) in
                  let st2 := mkScan (frameDataPosition st1) (addFrame frame (scan_tag st1))
                               (tdrc st1) (tyer st1) (tdat st1) (time st1) in
                  if majorVersion =? 4
                  then scan fuel' data file majorVersion unsync frameDataEndPosition st2
                  else scan fuel' data file majorVersion unsync frameDataEndPosition
                         (remember (Frame.frameId frame) index st2)
            end
        end
    end.

Definition frame_text (tag : Id3v2Tag) (frame : nat) : string :=
  match _frameList tag !! frame with
  | Some f => Frame.toString f
  | None => ""
  end.

(** The statements of [parse] after the loop.  [tdrc] refers to a frame
    object; in the model it is that frame's position, so the assignment to
    [tdrc.text] is made at that position before [removeFrames] shifts the
    positions.  The two steps touch frames of different identifiers. *)
Definition fold_dates (st : ScanState) : Id3v2Tag :=
  let tag := scan_tag st in
  match tdrc st, tdat st with
  | Some tdrc, Some tdat =>
      if negb (Nat.eqb (String.length (frame_text tag tdrc)) 4) then tag
      else
        let tdrcText := frame_text tag tdrc in
        let tdatText := frame_text tag tdat in
        let write (text : string) (t : Id3v2Tag) : Id3v2Tag :=
          with_frames (alter (Frame.set_text [text]) tdrc (_frameList t)) t in
        if Nat.eqb (String.length tdatText) 4 then
          let tdrcText1 :=
            tdrcText +:+ "-" +:+ substring 0 2 tdatText +:+ "-" +:+ substring 2 2 tdatText in
          match time st with
          | Some time =>
              let timeText := frame_text tag time in
              let tdrcText2 :=
                if Nat.eqb (String.length timeText) 4
                then tdrcText1 +:+ "T" +:+ substring 0 2 timeText +:+ ":"
                       +:+ substring 2 2 timeText
                else tdrcText1 in
              snd (removeFrames FrameTypes.TDAT (write tdrcText2 tag))
          | None => write tdrcText1 tag
          end
        else write tdrcText tag
  | _, _ => tag
  end.

(** [parse]. *)
Definition parse (fuel : nat) (data : option ByteVector) (file : File.t)
    (position style : Z) (tag : Id3v2Tag) : option (result unit * Id3v2Tag * File.t) :=
  let h := _header tag in
  let '(data1, file1) := materialize h data file position style in
  match (if fullTagUnsync h then SyncData_resyncByteVector data1 else Ok data1) with
  | Throw e => Some (Throw e, tag, file1)
  | Ok data2 =>
      let start := match data2 with Some _ => 0 | None => position end in
      let stop :=
        (match data2 with Some d => Z.of_nat (length d) | None => h_tagSize h end)
        + start - Id3v2FrameHeader_getSize (h_majorVersion h) in
      let region : result (Z * Z) * Id3v2Tag :=
        if 0 <? Z.land (h_flags h) HeaderFlags.ExtendedHeader then
          match ExtendedHeader_fromData data2 (h_majorVersion h) with
          | Throw e => (Throw e, tag)
          | Ok eh =>
              match data2 with
              | None => (Throw TypeError, with_extendedHeader eh tag)
              | Some d =>
                  if eh_size eh <=? Z.of_nat (length d)
                  then (Ok (start + eh_size eh, stop - eh_size eh), with_extendedHeader eh tag)
                  else (Ok (start, stop), with_extendedHeader eh tag)
              end
          end
        else (Ok (start, stop), tag) in
      match region with
      | (Throw e, tag1) => Some (Throw e, tag1, file1)
      | (Ok (start1, stop1), tag1) =>
          match scan fuel data2 file1 (h_majorVersion h) (fullTagUnsync h) stop1
                  (mkScan start1 tag1 None None None None) with
          | None => None
          | Some (Throw e, st) => Some (Throw e, scan_tag st, file1)
          | Some (Ok _, st) => Some (Ok tt, fold_dates st, file1)
          end
      end
  end.

(** [read].  The assignment [file.mode = FileAccessMode.Read] has no effect
    on what is modelled of the file. *)
Definition read (fuel : nat) (file : File.t) (position style : Z) (tag : Id3v2Tag)
    : option (result unit * Id3v2Tag * File.t) :=
  if negb (Guards_uint position) then Some (Throw GuardError, tag, file)
  else if File.length file - Header.size <? position
  then Some (Throw (JsError
         "Argument out of range: position must be less than the length of the file"),
         tag, file)
  else
    let '(block, file1) := File.readBlock Header.size (File.seek position file) in
    match Header.fromData block with
    | Throw e => Some (Throw e, tag, file1)
    | Ok h =>
        let tag1 := with_header h tag in
        if h_tagSize h =? 0 then Some (Ok tt, tag1, file1)
        else parse fuel None file1 (position + Header.size) style tag1
    end.

End Parse.

(** ** Unsynchronization, and simple collaborators for the examples *)

(** Modelled from the spec: [SyncData.unsyncByteVector] inserts a zero byte
    after every 0xFF that is followed by 0x00 or by a byte of 0xE0 or more;
    [SyncData.resyncByteVector] removes every zero byte that follows an 0xFF
    (syncData.ts is not part of the sources). *)
Module Unsync.

Fixpoint unsyncByteVector (data : ByteVector) : ByteVector :=
  match data with
  | [] => []
  | b :: rest =>
      match rest with
      | next :: _ =>
          if (b =? 255) && ((next =? 0) || (224 <=? next))
          then b :: 0 :: unsyncByteVector rest
          else b :: unsyncByteVector rest
      | [] => [b]
      end
  end.

Fixpoint resyncByteVector (data : ByteVector) : ByteVector :=
  match data with
  | [] => []
  | b :: rest =>
      match rest with
      | next :: rest' =>
          if (b =? 255) && (next =? 0)
          then b :: resyncByteVector rest'
          else b :: resyncByteVector rest
      | [] => [b]
      end
  end.

End Unsync.

Module Example.

Definition cfg : Settings := mkSettings UTF8 3 false "eng".

(** A creating lookup: the first frame with the identifier, or a fresh
    frame of that identifier added to the tag. *)
Definition find_or_create (type : FrameClassType) (tag : Id3v2Tag) (ident : ByteVector)
    : Id3v2Tag * nat :=
  match list_find (fun f => Frame.frameId f = ident) (_frameList tag) with
  | Some (i, _) => (tag, i)
  | None => (addFrame (Frame.mk ident type 0 0 [] UTF8) tag, length (_frameList tag))
  end.



(** A frame that renders as its identifier followed by its text. *)
Definition frame_render (f : Frame.t) (version : Z) : result ByteVector :=
  Ok (Frame.frameId f ++ ByteVector.fromString (Frame.toString f)).

(** A frame factory given by a table from offsets to outcomes; off the
    table it reports the end of the frames. *)
Fixpoint scripted (script : list (Z * result (option Frame.t * Z)))
    (data : option ByteVector) (file : File.t) (offset version : Z) (unsync : bool)
    : result (option Frame.t * Z) :=
  match script with
  | [] => Ok (None, offset)
  | (at_, outcome) :: script' =>
      if offset =? at_ then outcome else scripted script' data file offset version unsync
  end.

Definition resync (data : option ByteVector) : result (option ByteVector) :=
  match data with
  | Some d => Ok (Some (Unsync.resyncByteVector d))
  | None => Throw TypeError
  end.

Definition extendedHeader (data : option ByteVector) (version : Z) : result ExtendedHeader :=
  Ok (mkExtendedHeader 6).

Definition frameHeaderSize (version : Z) : Z := if version <? 3 then 6 else 10.

Definition text_frame (id : string) (text : string) : Frame.t :=
  Frame.mk (ByteVector.fromString id) TextInformationFrame 0
    (Z.of_nat (String.length text) + 1) [text] Latin1.

Definition empty_tag (majorVersion flags tagSize : Z) : Id3v2Tag :=
  mkTag None [] (mkHeader flags majorVersion 0 tagSize).

(** Three frames in a row, the middle one of a kind the factory has not
    implemented. *)
Definition three_frames : list (Z * result (option Frame.t * Z)) :=
  [ (10, Ok (Some (text_frame "TIT2" "Title"), 30));
    (30, Throw NotImplementedError);
    (50, Ok (Some (text_frame "TALB" "Album"), 70)) ].

(** A year frame and a date frame; then the same with a time frame. *)
Definition year_date : list (Z * result (option Frame.t * Z)) :=
  [ (10, Ok (Some (text_frame "TDRC" "1999"), 30));
    (30, Ok (Some (text_frame "TDAT" "1225"), 50)) ].

Definition year_date_time : list (Z * result (option Frame.t * Z)) :=
  [ (10, Ok (Some (text_frame "TDRC" "1999"), 30));
    (30, Ok (Some (text_frame "TDAT" "1225"), 50));
    (50, Ok (Some (text_frame "TIME" "0930"), 70)) ].



(** An unsynchronized version 4 tag with the extended-header flag, of 20
    bytes on disk, and what the statements of [render] from the computation
    of [hasFooter] on make of it. *)
Definition render_tag : Id3v2Tag :=
  mkTag None [text_frame "TIT2" "Hi"] (mkHeader 192 4 0 20).

Definition render_tag_after : Id3v2Tag :=
  mkTag None [Frame.mk FrameTypes.TIT2 TextInformationFrame 2 3 ["Hi"] Latin1]
    (mkHeader 128 4 0 20).

Definition render_bytes : ByteVector := ByteVector.fromString "TIT2Hi" ++ replicate 14 0.

(** A version 4 tag without flags, of 20 bytes on disk, whose one frame
    renders to 6 bytes, and the 20 bytes that the frame data and its padding
    make. *)
Definition short_tag : Id3v2Tag :=
  mkTag None [text_frame "TIT2" "Hi"] (mkHeader 0 4 0 20).

Definition short_bytes : ByteVector := ByteVector.fromString "TIT2Hi" ++ replicate 14 0.

(** A file that holds a version 3 header announcing 100 bytes, and those
    100 bytes. *)
Definition small_file : File.t :=
  File.mk (ByteVector.fromString "ID3" ++ [3; 0; 0; 0; 0; 0; 100] ++ replicate 100 0) 0 [].

End Example.

(** ** Further operations of the container (id3v2Tag.ts) *)

(** More identifiers of [FrameTypes]. *)
Definition FrameTypes_TRCK : ByteVector := ByteVector.fromString "TRCK".
Definition FrameTypes_TPOS : ByteVector := ByteVector.fromString "TPOS".
Definition FrameTypes_TCMP : ByteVector := ByteVector.fromString "TCMP".

(** [static set language]. *)
Definition set_language (value : string) (cfg : Settings) : Settings :=
  mkSettings (defaultEncoding cfg) (defaultVersion cfg) (forceDefaultVersion cfg)
    (if negb (truthy value) || Nat.ltb (String.length value) 3
     then "   "
     else substring 0 3 value).

(** [static set defaultVersion]: [Guards.byte] and [Guards.between(value, 2, 4)]. *)
Definition set_defaultVersion (value : Z) (cfg : Settings) : result unit * Settings :=
  if negb (Guards_byte value) then (Throw GuardError, cfg)
  else if negb ((2 <=? value) && (value <=? 4)) then (Throw GuardError, cfg)
  else (Ok tt, mkSettings (defaultEncoding cfg) value (forceDefaultVersion cfg) (language cfg)).

(** [get isEmpty]. *)
Definition isEmpty (tag : Id3v2Tag) : bool := Nat.eqb (length (_frameList tag)) 0.

(** [clear]. *)
Definition clear (tag : Id3v2Tag) : Id3v2Tag :=
  with_frames (drop (length (_frameList tag)) (_frameList tag)) tag.

(** [getFramesByClassType]. *)
Definition getFramesByClassType (type : FrameClassType) (tag : Id3v2Tag) : list Frame.t :=
  List.filter (fun f => FrameClassType_eqb (Frame.frameClassType f) type) (_frameList tag).

(** *** Numbers in text *)

Definition is_digit (c : ascii) : bool :=
  (N.leb 48 (N_of_ascii c) && N.leb (N_of_ascii c) 57)%bool.

Definition digit_value (c : ascii) : Z := Z.of_N (N_of_ascii c) - 48.

(** The white space that [parseInt] skips, among 8-bit code units: tab, line
    feed, vertical tab, form feed, carriage return, space and no-break
    space. *)
Definition is_white_space (c : ascii) : bool :=
  (N.leb 9 (N_of_ascii c) && N.leb (N_of_ascii c) 13
   || N.eqb (N_of_ascii c) 32 || N.eqb (N_of_ascii c) 160)%bool.

Fixpoint trim_start (s : string) : string :=
  match s with
  | String c rest => if is_white_space c then trim_start rest else s
  | EmptyString => s
  end.

(** The decimal digits at the front of [s]; [acc] is [None] until a digit has
    been read. *)
Fixpoint read_digits (acc : option Z) (s : string) : option Z :=
  match s with
  | String c rest =>
      if is_digit c
      then read_digits (Some (10 * default 0 acc + digit_value c)) rest
      else acc
  | EmptyString => acc
  end.

(** [parseInt(s, 10)]: leading white space, an optional sign, then digits up
    to the first character that is none; [None] is [NaN].  The value is the
    exact integer, as JavaScript has it below 2^53. *)
Definition parseInt (s : string) : option Z :=
  let s1 := trim_start s in
  let '(sign, s2) :=
    match s1 with
    | String "-" rest => (-1, rest)
    | String "+" rest => (1, rest)
    | _ => (1, s1)
    end in
  (fun n => sign * n) <$> read_digits None s2.

(** [String.prototype.split] with a one-character separator and no limit. *)
Fixpoint split_on (sep : ascii) (s : string) : list string :=
  match s with
  | EmptyString => [EmptyString]
  | String c rest =>
      if Ascii.eqb c sep then EmptyString :: split_on sep rest
      else
        match split_on sep rest with
        | piece :: pieces => String c piece :: pieces
        | [] => [String c EmptyString]
        end
  end.

Section Accessors.

(** The non-creating lookups of the frame classes ([create = false]): the
    position of the frame, or nothing. *)
Variable TextInformationFrame_find : Id3v2Tag -> ByteVector -> option nat.
Variable UrlLinkFrame_find : Id3v2Tag -> ByteVector -> option nat.
(** The creating lookups, as in the section of the setters. *)
Variable TextInformationFrame_getTextInformationFrame :
  Id3v2Tag -> ByteVector -> Id3v2Tag * nat.
Variable UrlLinkFrame_get : Id3v2Tag -> ByteVector -> Id3v2Tag * nat.
Variable cfg : Settings.

(** [getTextAsString], on a non-empty identifier; [None] is [undefined]. *)
Definition getTextAsString (ident : ByteVector) (tag : Id3v2Tag) : option string :=
  let frame :=
    if ByteVector.get ident 0 =? 87 (* "W" *)
    then UrlLinkFrame_find tag ident
    else TextInformationFrame_find tag ident in
  match frame with
  | Some frame =>
      let result := frame_text tag frame in
      if truthy result then Some result else None
  | None => None
  end.

(** [getTextAsArray]. *)
Definition getTextAsArray (ident : ByteVector) (tag : Id3v2Tag) : list string :=
  match TextInformationFrame_find tag ident with
  | Some frame =>
      match _frameList tag !! frame with
      | Some f => Frame.text f
      | None => []
      end
  | None => []
  end.

(** [getTextAsUint32]. *)
Definition getTextAsUint32 (ident : ByteVector) (index : nat) (tag : Id3v2Tag) : Z :=
  match getTextAsString ident tag with
  | None => 0
  | Some text =>
      let values := take (index + 2) (split_on "/" text) in
      if Nat.ltb (length values) (index + 1) then 0
      else
        match values !! index with
        | Some v =>
            match parseInt v with
            | Some asNumber => asNumber
            | None => 0
            end
        | None => 0
        end
  end.

(** [get year]. *)
Definition get_year (tag : Id3v2Tag) : Z :=
  match getTextAsString FrameTypes.TDRC tag with
  | None => 0
  | Some text =>
      if Nat.ltb (String.length text) 4 then 0
      else
        match parseInt (substring 0 4 text) with
        | None => 0
        | Some year => if year <? 0 then 0 else year
        end
  end.

(** [set year]. *)
Definition set_year (value : Z) (tag : Id3v2Tag) : result unit * Id3v2Tag :=
  if negb (Guards_uint value) then (Throw GuardError, tag)
  else
    let value := if 9999 <? value then 0 else value in
    setNumberFrame TextInformationFrame_getTextInformationFrame UrlLinkFrame_get cfg
      FrameTypes.TDRC value 0 1 tag.

(** [get track], [get trackCount], [get disc], [get discCount]. *)
Definition get_track (tag : Id3v2Tag) : Z := getTextAsUint32 FrameTypes_TRCK 0 tag.
Definition get_trackCount (tag : Id3v2Tag) : Z := getTextAsUint32 FrameTypes_TRCK 1 tag.
Definition get_disc (tag : Id3v2Tag) : Z := getTextAsUint32 FrameTypes_TPOS 0 tag.
Definition get_discCount (tag : Id3v2Tag) : Z := getTextAsUint32 FrameTypes_TPOS 1 tag.

(** [set track], [set trackCount], [set disc], [set discCount]. *)
Definition set_track (value : Z) (tag : Id3v2Tag) : result unit * Id3v2Tag :=
  setNumberFrame TextInformationFrame_getTextInformationFrame UrlLinkFrame_get cfg
    FrameTypes_TRCK value (get_trackCount tag) 2 tag.

Definition set_trackCount (value : Z) (tag : Id3v2Tag) : result unit * Id3v2Tag :=
  setNumberFrame TextInformationFrame_getTextInformationFrame UrlLinkFrame_get cfg
    FrameTypes_TRCK (get_track tag) value 1 tag.

Definition set_disc (value : Z) (tag : Id3v2Tag) : result unit * Id3v2Tag :=
  setNumberFrame TextInformationFrame_getTextInformationFrame UrlLinkFrame_get cfg
    FrameTypes_TPOS value (get_discCount tag) 1 tag.

Definition set_discCount (value : Z) (tag : Id3v2Tag) : result unit * Id3v2Tag :=
  setNumberFrame TextInformationFrame_getTextInformationFrame UrlLinkFrame_get cfg
    FrameTypes_TPOS (get_disc tag) value 1 tag.

End Accessors.

(** *** Copying frames to another container *)

Section CopyTo.

(** [frame.clone()]. *)
Variable Frame_clone : Frame.t -> Frame.t.

(** The inner loop of [copyTo]: [i] walks the working copy [frames]; a frame
    of the identifier is spliced out and, when [copy] is set, its clone is
    pushed on the frame list of the target.  [None] is a loop that has not
    ended within [fuel] rounds. *)
Fixpoint copy_group (fuel : nat) (ident : ByteVector) (copy : bool) (i : nat)
    (frames target : list Frame.t) : option (list Frame.t * list Frame.t) :=
  match frames !! i with
  | None => Some (frames, target)
  | Some f =>
      match fuel with
      | O => None
      | S fuel' =>
          if ByteVector.equal (Frame.frameId f) ident
          then copy_group fuel' ident copy i (delete i frames)
                 (if copy then target ++ [Frame_clone f] else target)
          else copy_group fuel' ident copy (S i) frames target
      end
  end.

(** The outer loop of [copyTo] on the working copy [frames]. *)
Fixpoint copyTo_loop (fuel : nat) (overwrite : bool) (frames : list Frame.t)
    (target : Id3v2Tag) : option (result unit * Id3v2Tag) :=
  match frames with
  | [] => Some (Ok tt, target)
  | first :: _ =>
      match fuel with
      | O => None
      | S fuel' =>
          let ident := Frame.frameId first in
          let '(r, target1, copy) :=
            if overwrite
            then let '(r, t) := removeFrames ident target in (r, t, true)
            else (Ok tt, target,
                  negb (existsb (fun f => ByteVector.equal (Frame.frameId f) ident)
                          (_frameList target))) in
          match r with
          | Throw e => Some (Throw e, target1)
          | Ok _ =>
              match copy_group fuel ident copy 0 frames (_frameList target1) with
              | None => None
              | Some (frames', list') =>
                  copyTo_loop fuel' overwrite frames' (with_frames list' target1)
              end
          end
      end
  end.

(** [copyTo] with another ID3v2 container as the target; the working copy is
    a slice of the frame list, which itself is left alone. *)
Definition copyTo (fuel : nat) (this target : Id3v2Tag) (overwrite : bool)
    : option (result unit * Id3v2Tag) :=
  copyTo_loop fuel overwrite (_frameList this) target.

End CopyTo.

(** *** makeFirstOfType *)

(** The loop of [makeFirstOfType].  [frame] is the frame object given and
    [where_] its position in the list, if it is in the list; the identity
    test [swapping === frame] holds at round [i] exactly when the entry
    displaced there is that object.  [n] counts the rounds left.  The result
    tells whether the loop returned early, with the list and [swapping]. *)
Fixpoint makeFirstOfType_loop (frame : Frame.t) (where_ : option nat) (n i : nat)
    (swapping : option Frame.t) (frames : list Frame.t)
    : bool * option Frame.t * list Frame.t :=
  match n with
  | O => (false, swapping, frames)
  | S n' =>
      match frames !! i with
      | None => (false, swapping, frames)
      | Some tmp =>
          let swapping1 :=
            match swapping with
            | Some s => Some s
            | None =>
                if ByteVector.equal (Frame.frameId tmp) (Frame.frameId frame)
                then Some frame else None
            end in
          match swapping1 with
          | None => makeFirstOfType_loop frame where_ n' (S i) None frames
          | Some s =>
              let frames1 := <[i := s]> frames in
              if bool_decide (where_ = Some i)
              then (true, Some tmp, frames1)
              else makeFirstOfType_loop frame where_ n' (S i) (Some tmp) frames1
          end
      end
  end.

(** [makeFirstOfType]. *)
Definition makeFirstOfType (frame : Frame.t) (where_ : option nat) (tag : Id3v2Tag)
    : Id3v2Tag :=
  match makeFirstOfType_loop frame where_ (length (_frameList tag)) 0 None (_frameList tag) with
  | (true, _, frames) => with_frames frames tag
  | (false, Some swapping, frames) => with_frames (frames ++ [swapping]) tag
  | (false, None, frames) => with_frames frames tag
  end.

(** Collaborators for the examples of these operations. *)
Module Sample.

(** A non-creating lookup: the first frame with the identifier. *)
Definition find (tag : Id3v2Tag) (ident : ByteVector) : option nat :=
  fst <$> list_find (fun f => Frame.frameId f = ident) (_frameList tag).

(** A clone is a frame with the same fields. *)
Definition clone (f : Frame.t) : Frame.t := f.

Definition tag_of (frames : list Frame.t) : Id3v2Tag := mkTag None frames (mkHeader 0 3 0 0).

(** A factory table whose only entry fails with an error of another kind. *)
Definition failing : list (Z * result (option Frame.t * Z)) :=
  [ (10, Throw (JsError "out of memory")) ].

(** A version 4 container that already holds a frame, announcing 50 bytes. *)
Definition tag4 : Id3v2Tag :=
  mkTag None [Example.text_frame "TIT2" "Title"] (mkHeader 0 4 0 50).

End Sample.

(** ** Predicates of the statements *)

(** A flag bit that the declared major version does not allow: bits 0-6 for
    version 2, the low four bits for version 3, the low three for version 4. *)
Definition illegal_flag_bit (majorVersion flags : Z) : Prop :=
  (majorVersion = 2 /\ exists i, 0 <= i < 7 /\ Z.testbit flags i = true) \/
  (majorVersion = 3 /\ exists i, 0 <= i < 4 /\ Z.testbit flags i = true) \/
  (majorVersion = 4 /\ exists i, 0 <= i < 3 /\ Z.testbit flags i = true).

(** The value of four 7-bit groups, most significant first. *)
Definition sync_safe_value (b0 b1 b2 b3 : Z) : Z :=
  b0 * 2 ^ 21 + b1 * 2 ^ 14 + b2 * 2 ^ 7 + b3.

(** A footer with byte-sized fields, flags that its major version allows,
    and a size of at most 28 bits. *)
Definition legal_footer (defaultVersion : Z) (f : Footer) : Prop :=
  is_byte (Footer.majorVersion defaultVersion f) /\
  is_byte (Footer.revisionNumber f) /\
  is_byte (Footer.flags f) /\
  ~ illegal_flag_bit (Footer.majorVersion defaultVersion f) (Footer.flags f) /\
  0 <= Footer.tagSize f < 2 ^ 28.

(** The tests [render] makes on the header flags. *)
Definition hasFooter (tag : Id3v2Tag) : bool :=
  0 <? Z.land (h_flags (_header tag)) HeaderFlags.FooterPresent.

Definition unsynchronized (tag : Id3v2Tag) : bool :=
  0 <? Z.land (h_flags (_header tag)) HeaderFlags.Unsynchronication.

(** The version [render] renders in. *)
Definition render_version (cfg : Settings) (tag : Id3v2Tag) : Z :=
  if hasFooter tag then 4 else version cfg tag.

(** The flag assignment [render] makes on a frame under frame-level
    unsynchronization. *)
Definition mark (unsyncAtFrameLevel : bool) (f : Frame.t) : Frame.t :=
  if unsyncAtFrameLevel
  then Frame.set_flags (Z.lor (Frame.flags f) Id3v2FrameFlags.Desynchronized) f
  else f.


(** A frame factory makes progress on the region from [start] to [stop]: at
    every offset it returns, and either reports the end of the frames or a
    later offset. *)
Definition advances
    (createFrame : option ByteVector -> File.t -> Z -> Z -> bool -> result (option Frame.t * Z))
    (data : option ByteVector) (file : File.t) (mv : Z) (unsync : bool)
    (start stop : Z) : Prop :=
  forall p, start <= p < stop ->
    exists frame p',
      createFrame data file p mv unsync = Ok (frame, p') /\ (frame = None \/ p < p').

(** A string of decimal digits. *)
Fixpoint all_digits (s : string) : bool :=
  match s with
  | EmptyString => true
  | String c rest => is_digit c && all_digits rest
  end.

(** * Properties *)

(** ** Bit-level lemmas *)

Lemma land_ones_pos_of_bit (x n i : Z) :
  0 <= i < n -> Z.testbit x i = true -> 0 < Z.land x (Z.ones n).
Proof.
  intros Hi Hbit.
  assert (Hnn : 0 <= Z.land x (Z.ones n)).
  { apply Z.land_nonneg. right. rewrite Z.ones_equiv.
    pose proof (Z.pow_pos_nonneg 2 n). lia. }
  assert (Hne : Z.land x (Z.ones n) <> 0).
  { intros H0. apply (f_equal (fun z => Z.testbit z i)) in H0.
    rewrite Z.land_spec, Hbit, Z.ones_spec_low, Z.bits_0 in H0 by lia.
    discriminate. }
  lia.
Qed.

Lemma bit_of_land_ones_pos (x : Z) (n : nat) :
  0 < Z.land x (Z.ones (Z.of_nat n)) ->
  exists i, 0 <= i < Z.of_nat n /\ Z.testbit x i = true.
Proof.
  induction n as [|n IH]; intros Hpos.
  - change (Z.ones (Z.of_nat 0)) with 0 in Hpos. rewrite Z.land_0_r in Hpos. lia.
  - destruct (Z.testbit x (Z.of_nat n)) eqn:Hbit.
    + exists (Z.of_nat n). split; [lia | exact Hbit].
    + assert (Heq : Z.land x (Z.ones (Z.of_nat (S n))) = Z.land x (Z.ones (Z.of_nat n))).
      { apply Z.bits_inj'. intros k Hk. rewrite !Z.land_spec.
        destruct (Z.lt_trichotomy k (Z.of_nat n)) as [Hlt | [-> | Hgt]].
        - rewrite !Z.ones_spec_low by lia. reflexivity.
        - rewrite Hbit. reflexivity.
        - rewrite !Z.ones_spec_high by lia. reflexivity. }
      rewrite Heq in Hpos. destruct (IH Hpos) as (i & Hi & Hb).
      exists i. split; [lia | exact Hb].
Qed.

Lemma land_ones_pos_iff (x : Z) (n : nat) :
  (0 <? Z.land x (Z.ones (Z.of_nat n))) = true <->
  exists i, 0 <= i < Z.of_nat n /\ Z.testbit x i = true.
Proof.
  rewrite Z.ltb_lt. split.
  - apply bit_of_land_ones_pos.
  - intros (i & Hi & Hb). eapply land_ones_pos_of_bit; eauto.
Qed.

Lemma land_127_byte (b : Z) : 0 <= b < 128 -> Z.land b 127 = b.
Proof.
  intros Hb. change 127 with (Z.ones 7). rewrite Z.land_ones by lia.
  apply Z.mod_small. lia.
Qed.

Lemma lor_shiftl_group (a b : Z) :
  0 <= b < 128 -> Z.lor (Z.shiftl a 7) (Z.land b 127) = a * 2 ^ 7 + b.
Proof.
  intros Hb. rewrite land_127_byte by exact Hb.
  assert (Hdisj : Z.land (Z.shiftl a 7) b = 0).
  { apply Z.bits_inj'. intros k Hk. rewrite Z.land_spec, Z.bits_0.
    destruct (Z.lt_ge_cases k 7) as [Hlow | Hhigh].
    - rewrite Z.shiftl_spec_low by lia. reflexivity.
    - replace b with (b mod 2 ^ 7) by (apply Z.mod_small; lia).
      rewrite Z.mod_pow2_bits_high by lia. apply andb_false_r. }
  pose proof (Z.add_lor_land (Z.shiftl a 7) b) as Hadd.
  rewrite Hdisj in Hadd. rewrite Z.shiftl_mul_pow2 in * by lia. lia.
Qed.

Lemma toUint_four_groups (b0 b1 b2 b3 : Z) :
  0 <= b0 < 128 -> 0 <= b1 < 128 -> 0 <= b2 < 128 -> 0 <= b3 < 128 ->
  SyncData.toUint [b0; b1; b2; b3] = Ok (sync_safe_value b0 b1 b2 b3).
Proof.
  intros H0 H1 H2 H3. unfold SyncData.toUint. cbn [existsb fold_left].
  replace (128 <=? b0) with false by (symmetry; apply Z.leb_gt; lia).
  replace (128 <=? b1) with false by (symmetry; apply Z.leb_gt; lia).
  replace (128 <=? b2) with false by (symmetry; apply Z.leb_gt; lia).
  replace (128 <=? b3) with false by (symmetry; apply Z.leb_gt; lia).
  cbn [orb]. f_equal. rewrite !lor_shiftl_group by assumption.
  unfold sync_safe_value. lia.
Qed.

Lemma group_range (v : Z) : 0 <= Z.land v 127 < 128.
Proof.
  change 127 with (Z.ones 7). rewrite Z.land_ones by lia.
  apply Z.mod_pos_bound. lia.
Qed.

Lemma toUint_fromUint (v : Z) :
  0 <= v < 2 ^ 28 -> SyncData.toUint (SyncData.fromUint v) = Ok v.
Proof.
  intros Hv. unfold SyncData.fromUint.
  rewrite toUint_four_groups by apply group_range.
  f_equal. unfold sync_safe_value.
  change 127 with (Z.ones 7). rewrite !Z.land_ones, !Z.shiftr_div_pow2 by lia.
  change (2 ^ 28) with 268435456 in Hv.
  change (2 ^ 21) with 2097152. change (2 ^ 14) with 16384. change (2 ^ 7) with 128.
  Z.div_mod_to_equations. lia.
Qed.

(** ** Footer *)

Lemma startsWith_prefix (data pattern : ByteVector) :
  ByteVector.startsWith data pattern = true <-> pattern `prefix_of` data.
Proof.
  revert data. induction pattern as [|p pattern IH]; intros data.
  - split; [intros _; apply prefix_nil | intros _; destruct data; reflexivity].
  - destruct data as [|d data]; cbn [ByteVector.startsWith].
    + split; [discriminate | intros [k Hk]; discriminate].
    + rewrite andb_true_iff, Z.eqb_eq, IH. split.
      * intros [-> Hp]. apply prefix_cons, Hp.
      * intros Hpre. split.
        -- apply prefix_cons_inv_1 in Hpre. congruence.
        -- eapply prefix_cons_inv_2, Hpre.
Qed.

Lemma flag_guards_illegal (majorVersion flags : Z) :
  ((majorVersion =? 2) && (0 <? Z.land flags 127))
  || ((majorVersion =? 3) && (0 <? Z.land flags 15))
  || ((majorVersion =? 4) && (0 <? Z.land flags 7)) = true
  <-> illegal_flag_bit majorVersion flags.
Proof.
  change 127 with (Z.ones (Z.of_nat 7)). change 15 with (Z.ones (Z.of_nat 4)).
  change 7 with (Z.ones (Z.of_nat 3)).
  rewrite !orb_true_iff, !andb_true_iff, !land_ones_pos_iff, !Z.eqb_eq.
  unfold illegal_flag_bit. change (Z.of_nat 7) with 7. change (Z.of_nat 4) with 4.
  change (Z.of_nat 3) with 3. tauto.
Qed.

Lemma size_guard_high_byte (data : ByteVector) :
  existsb (fun i => 128 <=? ByteVector.get data i) [6; 7; 8; 9]%nat = true
  <-> exists i, (6 <= i <= 9)%nat /\ 128 <= ByteVector.get data i.
Proof.
  rewrite existsb_exists. split.
  - intros (i & Hin & Hi). exists i. apply Z.leb_le in Hi. split; [|exact Hi].
    cbn in Hin. lia.
  - intros (i & Hr & Hi). exists i. split; [|apply Z.leb_le, Hi].
    cbn. lia.
Qed.

(** [fromData] as one test and one constructor, on a vector of bytes. *)
Lemma Footer_fromData_cases (data : ByteVector) :
  Forall is_byte data ->
  let bad :=
    (Z.of_nat (length data) <? 10)
    || negb (ByteVector.startsWith data Footer.fileIdentifier)
    || (((ByteVector.get data 3 =? 2) && (0 <? Z.land (ByteVector.get data 5) 127))
        || ((ByteVector.get data 3 =? 3) && (0 <? Z.land (ByteVector.get data 5) 15))
        || ((ByteVector.get data 3 =? 4) && (0 <? Z.land (ByteVector.get data 5) 7)))
    || existsb (fun i => 128 <=? ByteVector.get data i) [6; 7; 8; 9]%nat in
  Footer.fromData data =
    if bad then Throw CorruptFileError
    else Ok (mkFooter (ByteVector.get data 5) (ByteVector.get data 3) (ByteVector.get data 4)
               (sync_safe_value (ByteVector.get data 6) (ByteVector.get data 7)
                  (ByteVector.get data 8) (ByteVector.get data 9))).
Proof.
  intros Hbytes bad. subst bad. unfold Footer.fromData.
  change Id3v2TagSettings.footerSize with 10.
  destruct (Z.of_nat (length data) <? 10) eqn:Hlen; [reflexivity|].
  destruct (ByteVector.startsWith data Footer.fileIdentifier); [|reflexivity].
  cbn [negb orb].
  destruct ((ByteVector.get data 3 =? 2) && (0 <? Z.land (ByteVector.get data 5) 127));
    [reflexivity|].
  destruct ((ByteVector.get data 3 =? 3) && (0 <? Z.land (ByteVector.get data 5) 15));
    [reflexivity|].
  destruct ((ByteVector.get data 3 =? 4) && (0 <? Z.land (ByteVector.get data 5) 7));
    [reflexivity|].
  cbn [orb].
  destruct (existsb _ _) eqn:Hsize; [reflexivity|].
  apply Z.ltb_ge in Hlen.
  do 10 (destruct data as [|? data]; [cbn [length] in Hlen; lia|]).
  cbn [existsb ByteVector.get nth orb] in Hsize.
  repeat (apply orb_false_elim in Hsize; destruct Hsize as [? Hsize]).
  repeat match goal with H : (128 <=? _) = false |- _ => apply Z.leb_gt in H end.
  repeat match goal with H : Forall _ (_ :: _) |- _ => apply Forall_cons in H; destruct H end.
  unfold is_byte in *.
  unfold ByteVector.mid. cbn [drop take ByteVector.get nth].
  rewrite toUint_four_groups by lia. cbn [mbind result_bind].
  unfold Footer.set_tagSize, Guards_uint, sync_safe_value.
  replace (0 <=? _) with true by (symmetry; apply Z.leb_le; lia).
  replace (_ <=? 4294967295) with true by (symmetry; apply Z.leb_le; lia).
  reflexivity.
Qed.

(** C6. [Footer.fromData] on a vector of bytes fails with [CorruptFileError]
    exactly when the vector is shorter than 10 bytes, or does not start with
    "3DI", or one of the size bytes at offsets 6..9 is 128 or more, or a flag
    bit is set that the declared major version does not allow; it fails with
    no other error, and on success the size of the footer is the sync-safe
    decoding of the bytes 6..9. *)
Theorem Footer_fromData_corrupt_iff (data : ByteVector) :
  Forall is_byte data ->
  (Footer.fromData data = Throw CorruptFileError <->
     (length data < 10)%nat
     \/ ~ Footer.fileIdentifier `prefix_of` data
     \/ (exists i, (6 <= i <= 9)%nat /\ 128 <= ByteVector.get data i)
     \/ illegal_flag_bit (ByteVector.get data 3) (ByteVector.get data 5))
  /\ (forall e, Footer.fromData data = Throw e -> e = CorruptFileError)
  /\ (forall f, Footer.fromData data = Ok f ->
        SyncData.toUint (ByteVector.mid data 6 4) = Ok (Footer.tagSize f)
        /\ Footer.tagSize f =
             sync_safe_value (ByteVector.get data 6) (ByteVector.get data 7)
               (ByteVector.get data 8) (ByteVector.get data 9)).
Proof.
  intros Hbytes. pose proof (Footer_fromData_cases data Hbytes) as Hcases.
  cbv zeta in Hcases.
  pose proof (startsWith_prefix data Footer.fileIdentifier) as Hpre.
  pose proof (flag_guards_illegal (ByteVector.get data 3) (ByteVector.get data 5)) as Hflags.
  pose proof (size_guard_high_byte data) as Hsize.
  destruct (Z.of_nat (length data) <? 10) eqn:Hlen;
  destruct (ByteVector.startsWith data Footer.fileIdentifier) eqn:Hstart;
  destruct (_ || _ || _) eqn:Hf in Hflags;
  rewrite Hf in Hcases;
  destruct (existsb _ _) eqn:Hs in Hsize;
  rewrite Hs in Hcases;
  cbn [negb orb] in Hcases; rewrite Hcases;
  try apply Z.ltb_lt in Hlen; try apply Z.ltb_ge in Hlen.
  all: split; [|split; [intros e [= <-]; reflexivity || congruence | try discriminate]].
  all: try (split; [intros _|reflexivity]).
  all: try (left; lia).
  all: try (right; left; intros Hp; apply Hpre in Hp; discriminate).
  all: try (right; right; right; apply Hflags; reflexivity).
  all: try (right; right; left; apply Hsize; reflexivity).
  - split; [discriminate|].
    intros [Hl | [Hp | [Hsz | Hfl]]].
    + lia.
    + exfalso. apply Hp, Hpre. reflexivity.
    + apply Hsize in Hsz. discriminate.
    + apply Hflags in Hfl. discriminate.
  - intros f [= <-]. unfold Footer.tagSize. cbn [_tagSize]. split; [|reflexivity].
    do 10 (destruct data as [|? data]; [exfalso; clear -Hlen; cbn [length] in Hlen; lia|]).
    cbn [existsb ByteVector.get nth orb] in Hs.
    repeat (apply orb_false_elim in Hs; destruct Hs as [? Hs]).
    repeat match goal with H : (128 <=? _) = false |- _ => apply Z.leb_gt in H end.
    repeat match goal with H : Forall _ (_ :: _) |- _ => apply Forall_cons in H; destruct H end.
    unfold is_byte in *.
    unfold ByteVector.mid. cbn [drop take ByteVector.get nth].
    apply toUint_four_groups; lia.
Qed.

Lemma Footer_fromData_corrupt_iff_witness :
  Forall is_byte [51; 68; 73; 4; 0; 16; 0; 0; 2; 1]
  /\ forall f, Footer.fromData [51; 68; 73; 4; 0; 16; 0; 0; 2; 1] = Ok f ->
       Footer.tagSize f = sync_safe_value 0 0 2 1.
Proof.
  assert (Hbytes : Forall is_byte [51; 68; 73; 4; 0; 16; 0; 0; 2; 1]).
  { repeat constructor; unfold is_byte; lia. }
  split; [exact Hbytes|].
  intros f Hf.
  exact (proj2 (proj2 (proj2 (Footer_fromData_corrupt_iff _ Hbytes)) f Hf)).
Defined.

Lemma Footer_fromData_version (data : ByteVector) (f : Footer) :
  Footer.fromData data = Ok f -> _majorVersion f = ByteVector.get data 3.
Proof.
  unfold Footer.fromData, Footer.set_tagSize. intros H.
  repeat (destruct (_ : bool) in H; try discriminate H).
  destruct (SyncData.toUint _) as [size|e]; cbn [mbind result_bind] in H; [|discriminate H].
  destruct (Guards_uint size); [|discriminate H].
  injection H as <-. reflexivity.
Qed.

(** C7 (as amended).  [Footer.fromData] stores the major version byte it
    reads, whatever its value; the [majorVersion] setter refuses every value
    other than 4 and leaves the footer as it was, and stores 4 when given 4. *)
Theorem Footer_majorVersion_read_and_set (data : ByteVector) (f g : Footer) (value : Z) :
  (Footer.fromData data = Ok g -> _majorVersion g = ByteVector.get data 3)
  /\ (value <> 4 ->
        Footer.set_majorVersion value f
        = (Throw (JsError "Argument out of range: Version unsupported"), f))
  /\ Footer.set_majorVersion 4 f
     = (Ok tt, mkFooter (_flags f) 4 (_revisionNumber f) (_tagSize f)).
Proof.
  split; [apply Footer_fromData_version|]. split; [|reflexivity].
  intros Hne. unfold Footer.set_majorVersion.
  destruct (value =? 4) eqn:Heq; [apply Z.eqb_eq in Heq; contradiction | reflexivity].
Qed.

Lemma Footer_majorVersion_read_and_set_witness :
  _majorVersion (mkFooter 0 3 0 0) = 3
  /\ Footer.set_majorVersion 3 (mkFooter 0 4 0 0)
     = (Throw (JsError "Argument out of range: Version unsupported"), mkFooter 0 4 0 0).
Proof.
  pose proof (Footer_majorVersion_read_and_set
                [51; 68; 73; 3; 0; 0; 0; 0; 0; 0] (mkFooter 0 4 0 0) (mkFooter 0 3 0 0) 3)
    as (Hread & Hset & _).
  split.
  - apply Hread. reflexivity.
  - apply Hset. discriminate.
Defined.

(** C7 as first stated does not hold: a footer that declares version 3 is
    accepted by [Footer.fromData]. *)
Lemma Footer_fromData_accepts_version_3 :
  Footer.fromData (ByteVector.fromString "3DI" ++ [3; 0; 0; 0; 0; 0; 0])
  = Ok (mkFooter 0 3 0 0)
  /\ ~ (forall data f, Footer.fromData data = Ok f -> _majorVersion f = 4).
Proof.
  split; [reflexivity|].
  intros Hall.
  specialize (Hall (ByteVector.fromString "3DI" ++ [3; 0; 0; 0; 0; 0; 0])
                   (mkFooter 0 3 0 0) eq_refl).
  discriminate Hall.
Qed.

Lemma render_bytes (defaultVersion : Z) (f : Footer) :
  legal_footer defaultVersion f -> Forall is_byte (Footer.render defaultVersion f).
Proof.
  intros (Hv & Hr & Hfl & _ & _). unfold Footer.render, Footer.fileIdentifier, SyncData.fromUint.
  cbn [ByteVector.fromString app].
  repeat apply Forall_cons_2; try assumption; try apply Forall_nil_2;
    try (unfold is_byte; cbn; lia);
    try (pose proof (group_range (Z.shiftr (Footer.tagSize f) 21));
         pose proof (group_range (Z.shiftr (Footer.tagSize f) 14));
         pose proof (group_range (Z.shiftr (Footer.tagSize f) 7));
         pose proof (group_range (Footer.tagSize f)); unfold is_byte; lia).
Qed.

(** C8.  A legal footer renders to exactly 10 bytes, and parsing those bytes
    gives back a footer with the same major version, revision number, flags
    and tag size. *)
Theorem Footer_render_fromData_roundtrip (defaultVersion : Z) (f : Footer) :
  legal_footer defaultVersion f ->
  length (Footer.render defaultVersion f) = 10%nat
  /\ exists f', Footer.fromData (Footer.render defaultVersion f) = Ok f'
       /\ Footer.majorVersion defaultVersion f' = Footer.majorVersion defaultVersion f
       /\ Footer.revisionNumber f' = Footer.revisionNumber f
       /\ Footer.flags f' = Footer.flags f
       /\ Footer.tagSize f' = Footer.tagSize f.
Proof.
  intros Hlegal. split; [reflexivity|].
  pose proof (Footer_fromData_cases _ (render_bytes _ _ Hlegal)) as Hcases.
  destruct Hlegal as (Hv & Hr & Hfl & Hill & Hsize).
  cbv zeta in Hcases.
  unfold Footer.render, Footer.fileIdentifier, SyncData.fromUint in Hcases.
  cbn [ByteVector.fromString app length ByteVector.get nth ByteVector.startsWith
       existsb] in Hcases.
  change (Z.of_N (N_of_ascii "3")) with 51 in Hcases.
  change (Z.of_N (N_of_ascii "D")) with 68 in Hcases.
  change (Z.of_N (N_of_ascii "I")) with 73 in Hcases.
  change (Z.of_nat 10 <? 10) with false in Hcases.
  rewrite !Z.eqb_refl in Hcases. cbn [andb negb orb] in Hcases.
  set (v := Footer.majorVersion defaultVersion f) in *.
  assert (Hguard : (v =? 2) && (0 <? Z.land (Footer.flags f) 127)
                   || (v =? 3) && (0 <? Z.land (Footer.flags f) 15)
                   || (v =? 4) && (0 <? Z.land (Footer.flags f) 7) = false).
  { apply not_true_is_false. intros Ht. apply Hill, flag_guards_illegal, Ht. }
  rewrite Hguard in Hcases. cbn [orb] in Hcases.
  pose proof (group_range (Z.shiftr (Footer.tagSize f) 21)).
  pose proof (group_range (Z.shiftr (Footer.tagSize f) 14)).
  pose proof (group_range (Z.shiftr (Footer.tagSize f) 7)).
  pose proof (group_range (Footer.tagSize f)).
  repeat match type of Hcases with
         | context [128 <=? ?b] =>
             replace (128 <=? b) with false in Hcases by (symmetry; apply Z.leb_gt; lia)
         end.
  cbn [orb] in Hcases.
  pose proof (toUint_fromUint _ Hsize) as Hround. unfold SyncData.fromUint in Hround.
  rewrite toUint_four_groups in Hround by assumption. injection Hround as Hround.
  rewrite Hround in Hcases.
  eexists. split; [exact Hcases|].
  unfold Footer.majorVersion, Footer.revisionNumber, Footer.flags, Footer.tagSize.
  cbn [_majorVersion _revisionNumber _flags _tagSize].
  repeat split; try reflexivity.
  destruct (v =? 0) eqn:Hv0; [|reflexivity].
  apply Z.eqb_eq in Hv0. subst v. unfold Footer.majorVersion in Hv0 |- *.
  destruct (_majorVersion f =? 0) eqn:Hm; [reflexivity|].
  apply Z.eqb_neq in Hm. congruence.
Qed.

Lemma Footer_render_fromData_roundtrip_witness :
  legal_footer 3 (mkFooter 144 4 0 2000)
  /\ length (Footer.render 3 (mkFooter 144 4 0 2000)) = 10%nat
  /\ exists f', Footer.fromData (Footer.render 3 (mkFooter 144 4 0 2000)) = Ok f'
       /\ Footer.majorVersion 3 f' = 4
       /\ Footer.revisionNumber f' = 0
       /\ Footer.flags f' = 144
       /\ Footer.tagSize f' = 2000.
Proof.
  assert (Hlegal : legal_footer 3 (mkFooter 144 4 0 2000)).
  { unfold legal_footer, is_byte. cbn. repeat split; try lia.
    intros [[Hv _] | [[Hv _] | [_ (i & Hi & Hbit)]]]; try discriminate Hv.
    assert (i = 0 \/ i = 1 \/ i = 2) as [-> | [-> | ->]] by lia; discriminate Hbit. }
  split; [exact Hlegal|].
  exact (Footer_render_fromData_roundtrip 3 _ Hlegal).
Defined.

(** ** Frame list operations *)

Lemma ByteVector_equal_eq (a b : ByteVector) : ByteVector.equal a b = true <-> a = b.
Proof.
  revert b. induction a as [|x a IH]; intros [|y b]; cbn [ByteVector.equal];
    try (split; [discriminate | intros [=]]); [tauto|].
  rewrite andb_true_iff, Z.eqb_eq, IH. split; [intros [-> ->]; reflexivity | intros [= -> ->]; auto].
Qed.

Lemma removeFrames_loop_filter (ident : ByteVector) (n : nat) :
  forall frames : list Frame.t, (n <= length frames)%nat ->
  removeFrames_loop ident n frames
  = filter (fun f => Frame.frameId f <> ident) (take n frames) ++ drop n frames.
Proof.
  induction n as [|i IH]; intros frames Hn.
  - rewrite take_0, drop_0. reflexivity.
  - cbn [removeFrames_loop].
    destruct (lookup_lt_is_Some_2 frames i) as [f Hf]; [lia|].
    rewrite Hf, (take_S_r _ _ _ Hf), filter_app.
    destruct (ByteVector.equal (Frame.frameId f) ident) eqn:Heq.
    + apply ByteVector_equal_eq in Heq.
      rewrite IH by (rewrite length_delete by eauto; lia).
      rewrite filter_cons_False, filter_nil, app_nil_r by (intros Hne; contradiction).
      rewrite delete_take_drop, take_app_le, take_take, Nat.min_id
        by (rewrite length_take; lia).
      rewrite drop_app_length' by (rewrite length_take; lia). reflexivity.
    + assert (Hne : Frame.frameId f <> ident).
      { intros Heq'. apply ByteVector_equal_eq in Heq'. congruence. }
      rewrite IH by lia.
      rewrite filter_cons_True, filter_nil by exact Hne.
      rewrite (drop_S _ _ _ Hf), <- app_assoc. reflexivity.
Qed.

Lemma removeFrames_filter (ident : ByteVector) (tag : Id3v2Tag) :
  length ident = 4%nat ->
  removeFrames ident tag
  = (Ok tt, with_frames (filter (fun f => Frame.frameId f <> ident) (_frameList tag)) tag).
Proof.
  intros Hlen. unfold removeFrames. rewrite Hlen. cbn [Nat.eqb negb].
  rewrite removeFrames_loop_filter by lia.
  rewrite take_ge, drop_ge, app_nil_r by lia. reflexivity.
Qed.

Section ContainerProperties.

Variable TextInformationFrame_getTextInformationFrame :
  Id3v2Tag -> ByteVector -> Id3v2Tag * nat.
Variable UrlLinkFrame_get : Id3v2Tag -> ByteVector -> Id3v2Tag * nat.
Variable cfg : Settings.

Local Abbreviation setText :=
  (setTextFrame TextInformationFrame_getTextInformationFrame UrlLinkFrame_get cfg).
Local Abbreviation setNumber :=
  (setNumberFrame TextInformationFrame_getTextInformationFrame UrlLinkFrame_get cfg).

(** C10.  With an identifier that is not 4 bytes long, each of
    [getFramesByIdentifier], [removeFrames], [setTextFrame] and
    [setNumberFrame] throws and leaves the container as it was; with a
    4-byte identifier [removeFrames] keeps, in their order, exactly the
    frames whose identifier differs from it. *)
Theorem ident_length_guard_and_removeFrames
    (type : FrameClassType) (ident : ByteVector) (text : list string)
    (numerator denominator minPlaces : Z) (tag : Id3v2Tag) :
  (length ident <> 4%nat ->
     (exists e, getFramesByIdentifier type ident tag = Throw e)
     /\ (exists e, removeFrames ident tag = (Throw e, tag))
     /\ (exists e, setText ident text tag = (Throw e, tag))
     /\ (exists e, setNumber ident numerator denominator minPlaces tag = (Throw e, tag)))
  /\ (length ident = 4%nat ->
       removeFrames ident tag
       = (Ok tt, with_frames (filter (fun f => Frame.frameId f <> ident) (_frameList tag))
                   tag)).
Proof.
  split; [|apply removeFrames_filter].
  intros Hlen. apply Nat.eqb_neq in Hlen.
  unfold getFramesByIdentifier, removeFrames, setTextFrame, setNumberFrame.
  rewrite Hlen. cbn [negb].
  repeat split; try (eexists; reflexivity).
  repeat (destruct (negb _); [eexists; reflexivity|]).
  eexists; reflexivity.
Qed.

End ContainerProperties.

Lemma ident_length_guard_and_removeFrames_witness :
  (exists e, removeFrames (ByteVector.fromString "TIT") (Example.empty_tag 3 0 0)
             = (Throw e, Example.empty_tag 3 0 0))
  /\ removeFrames FrameTypes.TIT2
       (mkTag None [Example.text_frame "TIT2" "a"; Example.text_frame "TALB" "b";
                    Example.text_frame "TIT2" "c"] (mkHeader 0 3 0 0))
     = (Ok tt, mkTag None [Example.text_frame "TALB" "b"] (mkHeader 0 3 0 0)).
Proof.
  split.
  - apply (ident_length_guard_and_removeFrames
             (Example.find_or_create TextInformationFrame)
             (Example.find_or_create UrlLinkFrame) Example.cfg
             TextInformationFrame (ByteVector.fromString "TIT") [] 0 0 1
             (Example.empty_tag 3 0 0)).
    cbn. lia.
  - apply (ident_length_guard_and_removeFrames
             (Example.find_or_create TextInformationFrame)
             (Example.find_or_create UrlLinkFrame) Example.cfg
             TextInformationFrame FrameTypes.TIT2 [] 0 0 1
             (mkTag None [Example.text_frame "TIT2" "a"; Example.text_frame "TALB" "b";
                          Example.text_frame "TIT2" "c"] (mkHeader 0 3 0 0))).
    reflexivity.
Defined.

(** ** The comment and lyrics setters *)

Section SetterProperties.

Variable CommentsFrame_getPreferred : Id3v2Tag -> string -> string -> option nat.
Variable UnsynchronizedLyricsFrame_getPreferred : Id3v2Tag -> string -> string -> option nat.
Variable UnsynchronizedLyricsFrame_get : Id3v2Tag -> string -> string -> Id3v2Tag * nat.
Variable cfg : Settings.



End SetterProperties.




(** ** Rendering *)

Lemma filter_all {A} (P : A -> Prop) `{!forall x, Decision (P x)} (l : list A) :
  Forall P l -> filter P l = l.
Proof.
  induction 1 as [|x l Hx _ IH]; [reflexivity|].
  rewrite filter_cons_True by exact Hx. f_equal. exact IH.
Qed.

Lemma Forall_filter_holds {A} (P : A -> Prop) `{!forall x, Decision (P x)} (l : list A) :
  Forall P (filter P l).
Proof. apply Forall_forall. intros x Hx. apply list_elem_of_filter in Hx. tauto. Qed.

Lemma land_keeps_other_bit (flags bit : Z) :
  Z.land (Z.lnot HeaderFlags.ExtendedHeader) bit = bit ->
  Z.land (Z.land flags (Z.lnot HeaderFlags.ExtendedHeader)) bit = Z.land flags bit.
Proof. intros Hbit. rewrite <- Z.land_assoc, Hbit. reflexivity. Qed.

Lemma land_clear_twice (flags mask : Z) :
  Z.land (Z.land flags mask) mask = Z.land flags mask.
Proof. rewrite <- Z.land_assoc, Z.land_diag. reflexivity. Qed.

Lemma mark_mark (b : bool) (f : Frame.t) : mark b (mark b f) = mark b f.
Proof.
  destruct b; [|reflexivity]. unfold mark, Frame.set_flags. cbn [Frame.flags Frame.frameId
    Frame.frameClassType Frame.size Frame.text Frame.textEncoding].
  rewrite <- Z.lor_assoc, Z.lor_diag. reflexivity.
Qed.

Lemma mark_frameId (b : bool) (f : Frame.t) : Frame.frameId (mark b f) = Frame.frameId f.
Proof. destruct b; reflexivity. Qed.

Section RenderProperties.

Variable TextInformationFrame_getTextInformationFrame :
  Id3v2Tag -> ByteVector -> Id3v2Tag * nat.
Variable UrlLinkFrame_get : Id3v2Tag -> ByteVector -> Id3v2Tag * nat.
Variable Frame_render : Frame.t -> Z -> result ByteVector.
Variable SyncData_unsyncByteVector : ByteVector -> ByteVector.
Variable cfg : Settings.

Local Abbreviation render_frames_ := (render_frames Frame_render).
Local Abbreviation render_ :=
  (render TextInformationFrame_getTextInformationFrame UrlLinkFrame_get
     Frame_render SyncData_unsyncByteVector cfg).

Lemma render_frames_step (fl : bool) (mv : Z) (frame : Frame.t) (rest : list Frame.t)
    (data : ByteVector) :
  render_frames_ fl mv (frame :: rest) data =
    let frame' := mark fl frame in
    if 0 <? Z.land (Frame.flags frame') Id3v2FrameFlags.TagAlterPreservation then
      let '(r, rest') := render_frames_ fl mv rest data in (r, frame' :: rest')
    else
      match Frame_render frame' mv with
      | Ok bytes =>
          let '(r, rest') := render_frames_ fl mv rest (data ++ bytes) in (r, frame' :: rest')
      | Throw NotImplementedError =>
          let '(r, rest') := render_frames_ fl mv rest data in (r, frame' :: rest')
      | Throw e => (Throw e, frame' :: rest)
      end.
Proof. reflexivity. Qed.

(** The frames after the loop are the marked frames, as far as it went. *)
Lemma render_frames_shape (fl : bool) (mv : Z) (frames : list Frame.t) :
  forall data r frames',
    render_frames_ fl mv frames data = (r, frames') ->
    Frame.frameId <$> frames' = Frame.frameId <$> frames
    /\ (forall bytes, r = Ok bytes -> frames' = mark fl <$> frames).
Proof.
  induction frames as [|frame rest IH]; intros data r frames' Hrun.
  - injection Hrun as <- <-. split; [reflexivity | intros; reflexivity].
  - rewrite render_frames_step in Hrun. cbv zeta in Hrun.
    assert (Hrec : forall d r1 rest', render_frames_ fl mv rest d = (r1, rest') ->
              (r1, mark fl frame :: rest') = (r, frames') ->
              Frame.frameId <$> frames' = Frame.frameId <$> frame :: rest
              /\ (forall bytes, r = Ok bytes -> frames' = mark fl <$> frame :: rest)).
    { intros d r1 rest' Hr [= <- <-]. destruct (IH _ _ _ Hr) as [Hids Hok].
      cbn [fmap list_fmap]. rewrite mark_frameId. split.
      - f_equal. exact Hids.
      - intros bytes Hb. f_equal. eapply Hok, Hb. }
    destruct (0 <? _).
    + destruct (render_frames_ fl mv rest data) as [r1 rest'] eqn:Hr. eapply Hrec; eauto.
    + destruct (Frame_render (mark fl frame) mv) as [bytes|e].
      * destruct (render_frames_ fl mv rest (data ++ bytes)) as [r1 rest'] eqn:Hr.
        eapply Hrec; eauto.
      * destruct e;
          try (injection Hrun as <- <-; cbn [fmap list_fmap]; rewrite mark_frameId;
               split; [reflexivity | intros ? [=]]).
        destruct (render_frames_ fl mv rest data) as [r1 rest'] eqn:Hr. eapply Hrec; eauto.
Qed.

(** Running the loop again on the frames it left gives the same again. *)
Lemma render_frames_stable (fl : bool) (mv : Z) (frames : list Frame.t) :
  forall data r frames',
    render_frames_ fl mv frames data = (r, frames') ->
    render_frames_ fl mv frames' data = (r, frames').
Proof.
  induction frames as [|frame rest IH]; intros data r frames' Hrun.
  - injection Hrun as <- <-. reflexivity.
  - rewrite render_frames_step in Hrun. cbv zeta in Hrun.
    destruct (0 <? _) eqn:Htap.
    + destruct (render_frames_ fl mv rest data) as [r1 rest'] eqn:Hr.
      injection Hrun as <- <-. rewrite render_frames_step. cbv zeta.
      rewrite mark_mark, Htap, (IH _ _ _ Hr). reflexivity.
    + destruct (Frame_render (mark fl frame) mv) as [bytes|e] eqn:Hfr.
      * destruct (render_frames_ fl mv rest (data ++ bytes)) as [r1 rest'] eqn:Hr.
        injection Hrun as <- <-. rewrite render_frames_step. cbv zeta.
        rewrite mark_mark, Htap, Hfr, (IH _ _ _ Hr). reflexivity.
      * destruct e;
          try (injection Hrun as <- <-; rewrite render_frames_step; cbv zeta;
               rewrite mark_mark, Htap, Hfr; reflexivity).
        destruct (render_frames_ fl mv rest data) as [r1 rest'] eqn:Hr.
        injection Hrun as <- <-. rewrite render_frames_step. cbv zeta.
        rewrite mark_mark, Htap, Hfr, (IH _ _ _ Hr). reflexivity.
Qed.

Local Abbreviation render_tag_data_ :=
  (render_tag_data Frame_render SyncData_unsyncByteVector cfg).

Local Ltac project :=
  cbn [_header _frameList _extendedHeader h_flags h_majorVersion h_revisionNumber h_tagSize].

Local Ltac project_in H :=
  cbn [_header _frameList _extendedHeader h_flags h_majorVersion h_revisionNumber h_tagSize]
    in H.

(** The tag-data step run again on the state it left gives the same
    result and the same state, when a footer flag goes with version 4. *)
Lemma render_tag_data_stable (tag tag' : Id3v2Tag) (r : result ByteVector) :
  (hasFooter tag = true -> h_majorVersion (_header tag) = 4) ->
  render_tag_data_ tag = (r, tag') ->
  render_tag_data_ tag' = (r, tag')
  /\ Frame.frameId <$> _frameList tag' = Frame.frameId <$> _frameList tag
  /\ (forall bytes, r = Ok bytes ->
        _header tag'
        = mkHeader (Z.land (h_flags (_header tag)) (Z.lnot HeaderFlags.ExtendedHeader))
            (render_version cfg tag) (h_revisionNumber (_header tag))
            (h_tagSize (_header tag))
        /\ _extendedHeader tag' = _extendedHeader tag
        /\ _frameList tag'
           = mark (unsynchronized tag && (4 <=? version cfg tag)) <$> _frameList tag).
Proof.
  intros Hinv Hrun. destruct tag as [eh frames [flags mv rev size]].
  unfold render_version, hasFooter, unsynchronized, version in *. project_in Hinv. project.
  unfold render_tag_data, version, with_frames, with_header in Hrun. project_in Hrun.
  set (v := if forceDefaultVersion cfg then defaultVersion cfg else mv) in *.
  set (hf := 0 <? Z.land flags HeaderFlags.FooterPresent) in *.
  set (un := 0 <? Z.land flags HeaderFlags.Unsynchronication) in *.
  set (v' := if hf then 4 else v) in *.
  assert (Hv : (if forceDefaultVersion cfg then defaultVersion cfg else v') = v).
  { subst v v'. destruct (forceDefaultVersion cfg); [reflexivity|].
    destruct hf; [symmetry; apply Hinv; reflexivity | reflexivity]. }
  assert (Hv' : (if hf then 4 else v) = v') by reflexivity.
  unfold Header.set_majorVersion in Hrun. project_in Hrun.
  destruct (Guards_byte v' && (2 <=? v') && (v' <=? 4)) eqn:Hguard.
  2:{ injection Hrun as <- <-. split; [|split; [reflexivity | intros ? [=]]].
      unfold render_tag_data, version, Header.set_majorVersion. project.
      fold hf v. rewrite Hv', Hguard. reflexivity. }
  unfold Header.set_flags in Hrun. project_in Hrun.
  set (cleared := Z.land flags (Z.lnot HeaderFlags.ExtendedHeader)) in *.
  destruct ((0 <? Z.land cleared _) && (v' <? 3)) eqn:Ht3.
  { injection Hrun as <- <-. split; [|split; [reflexivity | intros ? [=]]].
    unfold render_tag_data, version, Header.set_majorVersion, Header.set_flags. project.
    fold hf v. rewrite Hv, Hv', Hguard. project. fold cleared. rewrite Ht3. reflexivity. }
  destruct ((0 <? Z.land cleared _) && (v' <? 4)) eqn:Ht4.
  { injection Hrun as <- <-. split; [|split; [reflexivity | intros ? [=]]].
    unfold render_tag_data, version, Header.set_majorVersion, Header.set_flags. project.
    fold hf v. rewrite Hv, Hv', Hguard. project. fold cleared. rewrite Ht3, Ht4.
    reflexivity. }
  project_in Hrun.
  destruct (render_frames_ (un && (4 <=? v)) v' frames []) as [r0 frames'] eqn:Hloop.
  pose proof (render_frames_stable _ _ _ _ _ _ Hloop) as Hagain.
  destruct (render_frames_shape _ _ _ _ _ _ Hloop) as [Hids Hmarked].
  assert (Hsecond :
    render_tag_data_ (mkTag eh frames' (mkHeader cleared v' rev size))
    = (match r0 with
       | Ok tagData =>
           Ok (if negb hf
               then (if un && (v <? 4) then SyncData_unsyncByteVector tagData else tagData)
                    ++ ByteVector.fromSize
                         (padding_size size
                            (if un && (v <? 4) then SyncData_unsyncByteVector tagData
                             else tagData))
               else if un && (v <? 4) then SyncData_unsyncByteVector tagData else tagData)
       | Throw e => Throw e
       end, mkTag eh frames' (mkHeader cleared v' rev size))).
  { unfold render_tag_data, version, Header.set_majorVersion, Header.set_flags,
      with_header, with_frames. project.
    subst cleared. rewrite !land_keeps_other_bit by reflexivity. fold hf un.
    rewrite Hv, Hv', Hguard. project. rewrite !land_clear_twice.
    set (cleared := Z.land flags (Z.lnot HeaderFlags.ExtendedHeader)) in *.
    rewrite Ht3, Ht4. project. rewrite Hagain.
    destruct r0; reflexivity. }
  destruct r0 as [tagData|e]; injection Hrun as <- <-; project.
  - split; [exact Hsecond|]. split; [exact Hids|].
    intros bytes _. repeat split. eapply Hmarked. reflexivity.
  - split; [exact Hsecond|]. split; [exact Hids|]. intros ? [=].
Qed.


(** What the statements of [render] from the computation of [hasFooter] on
    return, when they return: the frame data, after the tag-level
    unsynchronization if any, followed by the padding: none on a tag with a
    footer; otherwise zero bytes up to the previous tag size when the data
    is shorter than it, and exactly 1024 zero bytes when not. *)
Lemma render_tag_data_padding (tag tag' : Id3v2Tag) (bytes : ByteVector) :
  render_tag_data_ tag = (Ok bytes, tag') ->
  exists frameData frames',
    render_frames_ (unsynchronized tag && (4 <=? version cfg tag)) (render_version cfg tag)
      (_frameList tag) []
    = (Ok frameData, frames')
    /\ let tagData :=
         if unsynchronized tag && (version cfg tag <? 4)
         then SyncData_unsyncByteVector frameData else frameData in
       (hasFooter tag = true -> bytes = tagData)
       /\ (hasFooter tag = false ->
           Z.of_nat (length tagData) < h_tagSize (_header tag) ->
           bytes = tagData
                   ++ replicate (Z.to_nat (h_tagSize (_header tag) - Z.of_nat (length tagData))) 0
           /\ Z.of_nat (length bytes) = h_tagSize (_header tag))
       /\ (hasFooter tag = false ->
           h_tagSize (_header tag) <= Z.of_nat (length tagData) ->
           bytes = tagData ++ replicate 1024 0).
Proof.
  intros Hrun.
  destruct tag as [eh frames [flags mv rev size]].
  unfold render_version, hasFooter, unsynchronized, version. project.
  unfold render_tag_data, version, with_frames, with_header in Hrun. project_in Hrun.
  set (v := if forceDefaultVersion cfg then defaultVersion cfg else mv) in *.
  set (hf := 0 <? Z.land flags HeaderFlags.FooterPresent) in *.
  set (un := 0 <? Z.land flags HeaderFlags.Unsynchronication) in *.
  unfold Header.set_majorVersion in Hrun. project_in Hrun.
  destruct (Guards_byte _ && _ && _); [|discriminate Hrun].
  unfold Header.set_flags in Hrun. project_in Hrun.
  destruct (_ && (_ <? 3)); [discriminate Hrun|].
  destruct (_ && (_ <? 4)); [discriminate Hrun|].
  project_in Hrun.
  destruct (render_frames_ _ _ frames []) as [[frameData|e] frames'] eqn:Hloop;
    [|discriminate Hrun].
  injection Hrun as <- _. exists frameData, frames'. split; [reflexivity|].
  cbv zeta. set (tagData := if un && (v <? 4) then _ else frameData).
  split; [|split].
  - intros ->. reflexivity.
  - intros -> Hshort. cbn [negb]. unfold padding_size, ByteVector.fromSize.
    apply Z.ltb_lt in Hshort as Hb. rewrite Hb. split; [reflexivity|].
    rewrite length_app, length_replicate. lia.
  - intros -> Hlong. cbn [negb]. unfold padding_size, ByteVector.fromSize.
    apply Z.ltb_ge in Hlong. rewrite Hlong. reflexivity.
Qed.

(** C4.  [render] returns no bytes, neither at the first call nor at a
    second: on every container the spread of the undefined [ret] throws a
    [TypeError] before the header or a frame is touched, so each call ends
    with that error and the container as it was. *)
Theorem render_throws_on_every_call (tag : Id3v2Tag) :
  render_ tag = (Throw TypeError, tag)
  /\ render_ (snd (render_ tag)) = (Throw TypeError, tag).
Proof. split; reflexivity. Qed.

(** C5.  [render] does not get to the padding: on every container on which
    the statements from the computation of [hasFooter] on would return
    bytes, padded as described (none with a footer, up to the previous tag
    size when the data is shorter, 1024 zero bytes otherwise), [render]
    itself has thrown the [TypeError] of the spread before them. *)
Theorem render_stops_before_padding (tag tag' : Id3v2Tag) (bytes : ByteVector) :
  render_tag_data_ tag = (Ok bytes, tag') ->
  render_ tag = (Throw TypeError, tag)
  /\ exists frameData frames',
       render_frames_ (unsynchronized tag && (4 <=? version cfg tag)) (render_version cfg tag)
         (_frameList tag) []
       = (Ok frameData, frames')
       /\ let tagData :=
            if unsynchronized tag && (version cfg tag <? 4)
            then SyncData_unsyncByteVector frameData else frameData in
          (hasFooter tag = true -> bytes = tagData)
          /\ (hasFooter tag = false ->
              Z.of_nat (length tagData) < h_tagSize (_header tag) ->
              bytes = tagData
                      ++ replicate
                           (Z.to_nat (h_tagSize (_header tag) - Z.of_nat (length tagData))) 0
              /\ Z.of_nat (length bytes) = h_tagSize (_header tag))
          /\ (hasFooter tag = false ->
              h_tagSize (_header tag) <= Z.of_nat (length tagData) ->
              bytes = tagData ++ replicate 1024 0).
Proof.
  intros Hrun. split; [reflexivity|]. exact (render_tag_data_padding _ _ _ Hrun).
Qed.

End RenderProperties.

(** The statements of [render] after the failing call do assign to the
    container: on this tag they clear the extended-header flag of the header
    and set the unsynchronized flag of the frame. *)
Lemma render_tag_data_changes_header_and_frames :
  render_tag_data Example.frame_render Unsync.unsyncByteVector Example.cfg Example.render_tag
  = (Ok Example.render_bytes, Example.render_tag_after)
  /\ h_flags (_header Example.render_tag) = 192
  /\ h_flags (_header Example.render_tag_after) = 128
  /\ Frame.flags <$> _frameList Example.render_tag = [0]
  /\ Frame.flags <$> _frameList Example.render_tag_after = [2].
Proof. repeat split; reflexivity. Qed.

Lemma render_stops_before_padding_witness :
  render (Example.find_or_create TextInformationFrame) (Example.find_or_create UrlLinkFrame)
    Example.frame_render Unsync.unsyncByteVector Example.cfg Example.short_tag
  = (Throw TypeError, Example.short_tag)
  /\ Z.of_nat (length Example.short_bytes) = h_tagSize (_header Example.short_tag).
Proof.
  destruct (render_stops_before_padding
              (Example.find_or_create TextInformationFrame)
              (Example.find_or_create UrlLinkFrame)
              Example.frame_render Unsync.unsyncByteVector Example.cfg
              Example.short_tag Example.short_tag Example.short_bytes eq_refl)
    as (Hthrows & frameData & frames' & Hloop & _ & Hshort & _).
  split; [exact Hthrows|].
  injection Hloop as <- _.
  apply Hshort; reflexivity.
Defined.

(** ** Parsing *)

Lemma list_alter_fmap_id_on_ids (g : Frame.t -> Frame.t) (i : nat) (l : list Frame.t) :
  (forall f, Frame.frameId (g f) = Frame.frameId f) ->
  Frame.frameId <$> alter g i l = Frame.frameId <$> l.
Proof.
  intros Hg. revert i.
  induction l as [|x l IH]; intros [|i]; cbn; rewrite ?Hg, ?IH; reflexivity.
Qed.

Section ParseProperties.

Variable FrameFactory_createFrame :
  option ByteVector -> File.t -> Z -> Z -> bool -> result (option Frame.t * Z).
Variable SyncData_resyncByteVector : option ByteVector -> result (option ByteVector).
Variable ExtendedHeader_fromData : option ByteVector -> Z -> result ExtendedHeader.
Variable Id3v2FrameHeader_getSize : Z -> Z.

Local Abbreviation scan_ := (scan FrameFactory_createFrame).
Local Abbreviation parse_ :=
  (parse FrameFactory_createFrame SyncData_resyncByteVector ExtendedHeader_fromData
     Id3v2FrameHeader_getSize).
Local Abbreviation read_ :=
  (read FrameFactory_createFrame SyncData_resyncByteVector ExtendedHeader_fromData
     Id3v2FrameHeader_getSize).

(** The [catch] branch goes back to the loop test with the offset it came
    with: once the factory throws a skippable error inside the region, no
    number of rounds ends the loop. *)
Lemma scan_never_ends_on_skip (data : option ByteVector) (file : File.t)
    (majorVersion : Z) (unsync : bool) (stop : Z) (st : ScanState) (e : error) :
  frameDataPosition st < stop ->
  FrameFactory_createFrame data file (frameDataPosition st) majorVersion unsync = Throw e ->
  e = NotImplementedError \/ e = CorruptFileError ->
  forall fuel, scan_ fuel data file majorVersion unsync stop st = None.
Proof.
  intros Hin Hthrow He fuel. apply Z.ltb_lt in Hin.
  induction fuel as [|fuel IH]; cbn [scan]; rewrite Hin; cbn [negb]; [reflexivity|].
  rewrite Hthrow. destruct He as [-> | ->]; exact IH.
Qed.

(** With [data] undefined, [parse] makes no call on the file. *)
Lemma materialize_undefined (h : Header) (file : File.t) (position style : Z) :
  materialize h None file position style = (None, file).
Proof. reflexivity. Qed.

Lemma parse_undefined_keeps_file (fuel : nat) (file : File.t) (position style : Z)
    (tag tag' : Id3v2Tag) (r : result unit) (file' : File.t) :
  parse_ fuel None file position style tag = Some (r, tag', file') -> file' = file.
Proof.
  unfold parse. rewrite materialize_undefined.
  destruct (if fullTagUnsync _ then _ else _) as [data2|e]; [|intros [= _ _ <-]; reflexivity].
  destruct (if 0 <? _ then _ else _) as [[[start stop]|e] tag1];
    [|intros [= _ _ <-]; reflexivity].
  destruct (scan_ _ _ _ _ _ _ _) as [[[u|e] st]|]; [| |discriminate];
    intros [= _ _ <-]; reflexivity.
Qed.

(** On the read path the only calls on the file are the [seek] and the
    [readBlock] of the header. *)
Lemma read_file_calls (fuel : nat) (file : File.t) (position style : Z)
    (tag tag' : Id3v2Tag) (r : result unit) (file' : File.t) :
  read_ fuel file position style tag = Some (r, tag', file') ->
  File.calls file' = File.calls file
  \/ File.calls file' = File.calls file ++ [Seek position; ReadBlock Header.size].
Proof.
  unfold read.
  destruct (negb (Guards_uint position)); [intros [= _ _ <-]; left; reflexivity|].
  destruct (_ <? position); [intros [= _ _ <-]; left; reflexivity|].
  unfold File.readBlock, File.seek. cbn [File.contents File.position File.calls].
  set (file1 := File.mk _ _ _).
  assert (Hcalls : File.calls file1 = File.calls file ++ [Seek position; ReadBlock Header.size]).
  { subst file1. cbn [File.calls]. rewrite <- app_assoc. reflexivity. }
  destruct (Header.fromData _) as [h|e]; [|intros [= _ _ <-]; right; exact Hcalls].
  destruct (h_tagSize h =? 0); [intros [= _ _ <-]; right; exact Hcalls|].
  intros Hparse. apply parse_undefined_keeps_file in Hparse. subst file'.
  right; exact Hcalls.
Qed.

(** On the read path of an unsynchronized tag below version 4,
    [resyncByteVector] is handed the undefined [data]; what it throws then
    ends [parse]. *)
Lemma parse_resyncs_undefined (fuel : nat) (file : File.t) (position style : Z)
    (tag : Id3v2Tag) (e : error) :
  fullTagUnsync (_header tag) = true ->
  SyncData_resyncByteVector None = Throw e ->
  parse_ fuel None file position style tag = Some (Throw e, tag, file).
Proof.
  intros Hunsync Hthrow. unfold parse. rewrite materialize_undefined, Hunsync, Hthrow.
  reflexivity.
Qed.

(** Without a time frame the statements after the loop remove nothing. *)
Lemma fold_dates_without_time (st : ScanState) :
  time st = None ->
  Frame.frameId <$> _frameList (fold_dates st) = Frame.frameId <$> _frameList (scan_tag st).
Proof.
  intros Htime. unfold fold_dates. rewrite Htime.
  destruct (tdrc st) as [i|]; [|reflexivity].
  destruct (tdat st) as [j|]; [|reflexivity].
  destruct (negb _); [reflexivity|].
  destruct (Nat.eqb _ 4); cbn [with_frames _frameList];
    rewrite list_alter_fmap_id_on_ids; reflexivity.
Qed.

End ParseProperties.

(** C1.  The code at the failing input: a well-formed frame, a frame on which
    the factory signals "not implemented", and a well-formed frame.  The first
    frame is read, and then the loop stays at the offset of the second frame:
    [parse] returns for no amount of fuel, where it is specified to return a
    tag with the two well-formed frames. *)
Theorem parse_loops_on_unimplemented_frame :
  forall fuel,
    parse (Example.scripted Example.three_frames) Example.resync Example.extendedHeader
      Example.frameHeaderSize fuel None Example.small_file 10 ReadStyle.None_
      (Example.empty_tag 4 0 70)
    = None.
Proof.
  intros fuel.
  set (factory := Example.scripted Example.three_frames).
  set (tag := Example.empty_tag 4 0 70).
  assert (Hparse :
    parse factory Example.resync Example.extendedHeader Example.frameHeaderSize
      fuel None Example.small_file 10 ReadStyle.None_ tag
    = match scan factory fuel None Example.small_file 4 false 70
              (mkScan 10 tag None None None None) with
      | None => None
      | Some (Throw e, st) => Some (Throw e, scan_tag st, Example.small_file)
      | Some (Ok _, st) => Some (Ok tt, fold_dates st, Example.small_file)
      end) by reflexivity.
  rewrite Hparse. clear Hparse.
  destruct fuel as [|fuel]; [reflexivity|].
  assert (Hfirst :
    scan factory (S fuel) None Example.small_file 4 false 70
      (mkScan 10 tag None None None None)
    = scan factory fuel None Example.small_file 4 false 70
        (mkScan 30 (addFrame (Example.text_frame "TIT2" "Title") tag) None None None None))
    by reflexivity.
  rewrite Hfirst. clear Hfirst.
  rewrite (scan_never_ends_on_skip factory None Example.small_file 4 false 70 _
             NotImplementedError);
    [reflexivity | reflexivity | reflexivity | left; reflexivity].
Qed.

(** C2.  The code at the failing input: a version 3 tag with the year frame
    "1999" and the date frame "1225" and no time frame.  The year frame gets
    the text "1999-12-25", but the date frame is still in the frame list,
    where it is specified to be removed; [removeFrames] is only reached when a
    time frame is present. *)
Theorem parse_keeps_date_frame_without_time :
  parse (Example.scripted Example.year_date) Example.resync Example.extendedHeader
    Example.frameHeaderSize 3 None Example.small_file 10 ReadStyle.None_
    (Example.empty_tag 3 0 50)
  = Some (Ok tt,
          mkTag None
            [Frame.set_text ["1999-12-25"] (Example.text_frame "TDRC" "1999");
             Example.text_frame "TDAT" "1225"]
            (mkHeader 0 3 0 50),
          Example.small_file).
Proof. reflexivity. Qed.

(** With the time frame "0930" the year frame reads "1999-12-25T09:30" and
    the date frame is removed. *)
Lemma parse_folds_date_and_time :
  parse (Example.scripted Example.year_date_time) Example.resync Example.extendedHeader
    Example.frameHeaderSize 4 None Example.small_file 10 ReadStyle.None_
    (Example.empty_tag 3 0 70)
  = Some (Ok tt,
          mkTag None
            [Frame.set_text ["1999-12-25T09:30"] (Example.text_frame "TDRC" "1999");
             Example.text_frame "TIME" "0930"]
            (mkHeader 0 3 0 70),
          Example.small_file).
Proof. reflexivity. Qed.

(** C3.  The code on the read path: [read] hands [parse] an undefined [data],
    so the guarded [seek] and [readBlock] of the whole tag are never made,
    whatever the header and the read style.  At the failing input, a file
    with a version 3 tag of 100 bytes, the only calls on the file are those
    that read the header, where the 100 bytes are specified to be read as
    well. *)
Theorem read_never_materializes :
  (forall h file position style, materialize h None file position style = (None, file))
  /\ read (Example.scripted []) Example.resync Example.extendedHeader Example.frameHeaderSize
       1 Example.small_file 0 ReadStyle.None_ (Example.empty_tag 0 0 0)
     = Some (Ok tt, Example.empty_tag 3 0 100,
             File.mk (File.contents Example.small_file) 10 [Seek 0; ReadBlock 10]).
Proof. split; [intros; apply materialize_undefined | reflexivity]. Qed.

(** * Further properties *)

(** ** Footer: what a parsed footer is, and the setters against the parser *)

Lemma Forall_byte_get (data : ByteVector) (i : nat) :
  Forall is_byte data -> is_byte (ByteVector.get data i).
Proof.
  intros Hbytes. unfold ByteVector.get.
  destruct (nth_in_or_default i data 0) as [Hin | ->].
  - rewrite Forall_forall in Hbytes. apply Hbytes, list_elem_of_In, Hin.
  - unfold is_byte. lia.
Qed.

Lemma sync_safe_value_range (b0 b1 b2 b3 : Z) :
  0 <= b0 < 128 -> 0 <= b1 < 128 -> 0 <= b2 < 128 -> 0 <= b3 < 128 ->
  0 <= sync_safe_value b0 b1 b2 b3 < 2 ^ 28.
Proof. unfold sync_safe_value. lia. Qed.

Lemma fromUint_sync_safe_value (b0 b1 b2 b3 : Z) :
  0 <= b0 < 128 -> 0 <= b1 < 128 -> 0 <= b2 < 128 -> 0 <= b3 < 128 ->
  SyncData.fromUint (sync_safe_value b0 b1 b2 b3) = [b0; b1; b2; b3].
Proof.
  intros H0 H1 H2 H3. unfold SyncData.fromUint, sync_safe_value.
  change 127 with (Z.ones 7). rewrite !Z.land_ones, !Z.shiftr_div_pow2 by lia.
  change (2 ^ 21) with 2097152. change (2 ^ 14) with 16384. change (2 ^ 7) with 128.
  repeat f_equal; Z.div_mod_to_equations; lia.
Qed.

Lemma toUint_fromUint_mod (v : Z) :
  SyncData.toUint (SyncData.fromUint v) = Ok (v mod 2 ^ 28).
Proof.
  unfold SyncData.fromUint.
  rewrite toUint_four_groups by apply group_range.
  f_equal. unfold sync_safe_value.
  change 127 with (Z.ones 7). rewrite !Z.land_ones, !Z.shiftr_div_pow2 by lia.
  change (2 ^ 28) with 268435456.
  change (2 ^ 21) with 2097152. change (2 ^ 14) with 16384. change (2 ^ 7) with 128.
  Z.div_mod_to_equations. lia.
Qed.

(** What the guards of [fromData] leave, on a vector of bytes. *)
Lemma Footer_fromData_accepted (data : ByteVector) (f : Footer) :
  Forall is_byte data ->
  Footer.fromData data = Ok f ->
  (10 <= length data)%nat
  /\ Footer.fileIdentifier `prefix_of` data
  /\ ~ illegal_flag_bit (ByteVector.get data 3) (ByteVector.get data 5)
  /\ (forall i, (6 <= i <= 9)%nat -> 0 <= ByteVector.get data i < 128)
  /\ f = mkFooter (ByteVector.get data 5) (ByteVector.get data 3) (ByteVector.get data 4)
           (sync_safe_value (ByteVector.get data 6) (ByteVector.get data 7)
              (ByteVector.get data 8) (ByteVector.get data 9)).
Proof.
  intros Hbytes Hok.
  pose proof (Footer_fromData_cases data Hbytes) as Hcases. cbv zeta in Hcases.
  destruct (Z.of_nat (length data) <? 10) eqn:Hlen;
    [rewrite Hcases in Hok; discriminate Hok|].
  destruct (ByteVector.startsWith data Footer.fileIdentifier) eqn:Hstart;
    [|rewrite Hcases in Hok; discriminate Hok].
  pose proof (flag_guards_illegal (ByteVector.get data 3) (ByteVector.get data 5)) as Hfl.
  pose proof (size_guard_high_byte data) as Hsz.
  destruct (_ || _ || _) eqn:Hflags in Hfl; rewrite Hflags in Hcases;
    [rewrite Hcases in Hok; discriminate Hok|].
  destruct (existsb _ _) eqn:Hsize in Hsz; rewrite Hsize in Hcases;
    [rewrite Hcases in Hok; discriminate Hok|].
  cbn [negb orb] in Hcases. rewrite Hcases in Hok. injection Hok as <-.
  apply Z.ltb_ge in Hlen.
  split; [lia|]. split; [apply startsWith_prefix, Hstart|].
  split.
  { intros Hill. apply Hfl in Hill. discriminate Hill. }
  split; [|reflexivity].
  intros i Hi. pose proof (Forall_byte_get data i Hbytes) as Hb. unfold is_byte in Hb.
  destruct (Z_lt_le_dec (ByteVector.get data i) 128); [lia|].
  assert (Hex : false = true) by (apply Hsz; exists i; auto).
  discriminate Hex.
Qed.

(** X1.  A footer parsed from bytes has byte-sized fields, no flag bit that
    its declared version forbids, a tag size below 2^28, and so a complete tag
    size between 20 and 2^28 + 19. *)
Theorem Footer_fromData_fields (data : ByteVector) (f : Footer) :
  Forall is_byte data ->
  Footer.fromData data = Ok f ->
  is_byte (_majorVersion f) /\ is_byte (_revisionNumber f) /\ is_byte (_flags f)
  /\ ~ illegal_flag_bit (_majorVersion f) (_flags f)
  /\ 0 <= Footer.tagSize f < 2 ^ 28
  /\ 20 <= Footer.completeTagSize f < 2 ^ 28 + 20.
Proof.
  intros Hbytes Hok.
  destruct (Footer_fromData_accepted data f Hbytes Hok) as (_ & _ & Hill & Hsize & ->).
  unfold Footer.completeTagSize, Footer.tagSize.
  cbn [_majorVersion _revisionNumber _flags _tagSize].
  pose proof (sync_safe_value_range _ _ _ _ (Hsize 6%nat ltac:(lia)) (Hsize 7%nat ltac:(lia))
                (Hsize 8%nat ltac:(lia)) (Hsize 9%nat ltac:(lia))) as Hrange.
  change Id3v2TagSettings.headerSize with 10. change Id3v2TagSettings.footerSize with 10.
  repeat split; try apply Forall_byte_get; try assumption; lia.
Qed.

Lemma Footer_fromData_fields_witness :
  0 <= Footer.tagSize (mkFooter 16 4 0 257) < 2 ^ 28
  /\ 20 <= Footer.completeTagSize (mkFooter 16 4 0 257) < 2 ^ 28 + 20.
Proof.
  assert (Hbytes : Forall is_byte [51; 68; 73; 4; 0; 16; 0; 0; 2; 1]).
  { repeat constructor; unfold is_byte; lia. }
  exact (proj2 (proj2 (proj2 (proj2
           (Footer_fromData_fields _ (mkFooter 16 4 0 257) Hbytes eq_refl))))).
Defined.

(** X2.  Parsing bytes and rendering the footer gives the first ten bytes
    back, with the default version in place of a version byte of zero. *)
Theorem Footer_fromData_render (defaultVersion : Z) (data : ByteVector) (f : Footer) :
  Forall is_byte data ->
  Footer.fromData data = Ok f ->
  Footer.render defaultVersion f
  = <[3%nat := Footer.majorVersion defaultVersion f]> (take 10 data)
  /\ (ByteVector.get data 3 <> 0 -> Footer.render defaultVersion f = take 10 data).
Proof.
  intros Hbytes Hok.
  destruct (Footer_fromData_accepted data f Hbytes Hok) as (Hlen & Hpre & _ & Hsize & ->).
  destruct Hpre as [rest ->].
  unfold Footer.fileIdentifier in *. cbn [ByteVector.fromString app] in *.
  change (Z.of_N (N_of_ascii "3")) with 51 in *.
  change (Z.of_N (N_of_ascii "D")) with 68 in *.
  change (Z.of_N (N_of_ascii "I")) with 73 in *.
  do 7 (destruct rest as [|? rest]; [cbn [length] in Hlen; lia|]).
  pose proof (Hsize 6%nat ltac:(lia)) as H6. pose proof (Hsize 7%nat ltac:(lia)) as H7.
  pose proof (Hsize 8%nat ltac:(lia)) as H8. pose proof (Hsize 9%nat ltac:(lia)) as H9.
  cbn [ByteVector.get nth] in *.
  unfold Footer.render, Footer.fileIdentifier, Footer.majorVersion, Footer.revisionNumber,
    Footer.flags, Footer.tagSize.
  cbn [_majorVersion _revisionNumber _flags _tagSize ByteVector.fromString app take].
  rewrite fromUint_sync_safe_value by assumption.
  split; [reflexivity|].
  intros Hnz. apply Z.eqb_neq in Hnz. rewrite Hnz. reflexivity.
Qed.

Lemma Footer_fromData_render_witness :
  Footer.render 3 (mkFooter 16 4 0 257) = [51; 68; 73; 4; 0; 16; 0; 0; 2; 1].
Proof.
  assert (Hbytes : Forall is_byte [51; 68; 73; 4; 0; 16; 0; 0; 2; 1; 99]).
  { repeat constructor; unfold is_byte; lia. }
  apply (proj2 (Footer_fromData_render 3 [51; 68; 73; 4; 0; 16; 0; 0; 2; 1; 99]
                  (mkFooter 16 4 0 257) Hbytes eq_refl)).
  discriminate.
Defined.

Lemma fromData_render_general (defaultVersion : Z) (f : Footer) :
  is_byte (Footer.majorVersion defaultVersion f) ->
  is_byte (Footer.revisionNumber f) ->
  is_byte (Footer.flags f) ->
  Footer.fromData (Footer.render defaultVersion f)
  = if ((Footer.majorVersion defaultVersion f =? 2) && (0 <? Z.land (Footer.flags f) 127))
       || ((Footer.majorVersion defaultVersion f =? 3) && (0 <? Z.land (Footer.flags f) 15))
       || ((Footer.majorVersion defaultVersion f =? 4) && (0 <? Z.land (Footer.flags f) 7))
    then Throw CorruptFileError
    else Ok (mkFooter (Footer.flags f) (Footer.majorVersion defaultVersion f)
               (Footer.revisionNumber f) (Footer.tagSize f mod 2 ^ 28)).
Proof.
  intros Hv Hr Hfl.
  assert (Hbytes : Forall is_byte (Footer.render defaultVersion f)).
  { unfold Footer.render, Footer.fileIdentifier, SyncData.fromUint.
    cbn [ByteVector.fromString app].
    pose proof (group_range (Z.shiftr (Footer.tagSize f) 21)).
    pose proof (group_range (Z.shiftr (Footer.tagSize f) 14)).
    pose proof (group_range (Z.shiftr (Footer.tagSize f) 7)).
    pose proof (group_range (Footer.tagSize f)).
    repeat apply Forall_cons_2; try assumption; try apply Forall_nil_2;
      unfold is_byte; cbn; lia. }
  pose proof (Footer_fromData_cases _ Hbytes) as Hcases. cbv zeta in Hcases.
  unfold Footer.render, Footer.fileIdentifier, SyncData.fromUint in Hcases.
  cbn [ByteVector.fromString app length ByteVector.get nth ByteVector.startsWith
       existsb] in Hcases.
  change (Z.of_N (N_of_ascii "3")) with 51 in Hcases.
  change (Z.of_N (N_of_ascii "D")) with 68 in Hcases.
  change (Z.of_N (N_of_ascii "I")) with 73 in Hcases.
  change (Z.of_nat 10 <? 10) with false in Hcases.
  rewrite !Z.eqb_refl in Hcases. cbn [andb negb orb] in Hcases.
  pose proof (group_range (Z.shiftr (Footer.tagSize f) 21)).
  pose proof (group_range (Z.shiftr (Footer.tagSize f) 14)).
  pose proof (group_range (Z.shiftr (Footer.tagSize f) 7)).
  pose proof (group_range (Footer.tagSize f)).
  repeat match type of Hcases with
         | context [128 <=? ?b] =>
             replace (128 <=? b) with false in Hcases by (symmetry; apply Z.leb_gt; lia)
         end.
  rewrite !orb_false_r in Hcases.
  pose proof (toUint_fromUint_mod (Footer.tagSize f)) as Hround.
  unfold SyncData.fromUint in Hround.
  rewrite toUint_four_groups in Hround by assumption. injection Hround as Hround.
  rewrite Hround in Hcases. exact Hcases.
Qed.

Lemma fromData_render_truncated (defaultVersion : Z) (f : Footer) :
  is_byte (Footer.majorVersion defaultVersion f) ->
  is_byte (Footer.revisionNumber f) ->
  is_byte (Footer.flags f) ->
  ~ illegal_flag_bit (Footer.majorVersion defaultVersion f) (Footer.flags f) ->
  Footer.fromData (Footer.render defaultVersion f)
  = Ok (mkFooter (Footer.flags f) (Footer.majorVersion defaultVersion f)
          (Footer.revisionNumber f) (Footer.tagSize f mod 2 ^ 28)).
Proof.
  intros Hv Hr Hfl Hill. rewrite fromData_render_general by assumption.
  destruct (_ || _ || _) eqn:Hguard; [|reflexivity].
  exfalso. apply Hill, flag_guards_illegal, Hguard.
Qed.

(** X3.  [render] keeps only the low 28 bits of the tag size: parsing the
    rendered footer gives the tag size modulo 2^28, the other fields as they
    were. *)
Theorem Footer_render_truncates_tagSize (defaultVersion : Z) (f : Footer) :
  is_byte (Footer.majorVersion defaultVersion f) ->
  is_byte (Footer.revisionNumber f) ->
  is_byte (Footer.flags f) ->
  ~ illegal_flag_bit (Footer.majorVersion defaultVersion f) (Footer.flags f) ->
  Footer.fromData (Footer.render defaultVersion f)
  = Ok (mkFooter (Footer.flags f) (Footer.majorVersion defaultVersion f)
          (Footer.revisionNumber f) (Footer.tagSize f mod 2 ^ 28)).
Proof. apply fromData_render_truncated. Qed.

Lemma Footer_render_truncates_tagSize_witness :
  Footer.fromData (Footer.render 3 (mkFooter 128 4 0 (2 ^ 28 + 5))) = Ok (mkFooter 128 4 0 5).
Proof.
  apply (Footer_render_truncates_tagSize 3 (mkFooter 128 4 0 (2 ^ 28 + 5)));
    try (unfold is_byte; cbn; lia).
  intros [[Hv _] | [[Hv _] | [_ (i & Hi & Hbit)]]]; try discriminate Hv.
  assert (i = 0 \/ i = 1 \/ i = 2) as [-> | [-> | ->]] by lia; discriminate Hbit.
Defined.

(** X4.  The [flags] setter checks the version-gated bits only: on a version
    4 footer it stores a value with one of the low three bits set, and the
    footer then renders to bytes that [fromData] rejects as corrupt. *)
Theorem Footer_set_flags_low_bits_unchecked (defaultVersion : Z) (value : Z) (f : Footer) :
  Footer.majorVersion defaultVersion f = 4 ->
  is_byte (Footer.revisionNumber f) ->
  is_byte value ->
  0 < Z.land value 7 ->
  Footer.set_flags defaultVersion value f
  = (Ok tt, mkFooter value (_majorVersion f) (_revisionNumber f) (_tagSize f))
  /\ Footer.fromData
       (Footer.render defaultVersion
          (mkFooter value (_majorVersion f) (_revisionNumber f) (_tagSize f)))
     = Throw CorruptFileError.
Proof.
  intros Hv Hr Hvalue Hlow. split.
  - unfold Footer.set_flags. rewrite Hv. cbn [Z.ltb Z.compare Pos.compare Pos.compare_cont].
    rewrite !andb_false_r. reflexivity.
  - assert (Hv' : Footer.majorVersion defaultVersion
                    (mkFooter value (_majorVersion f) (_revisionNumber f) (_tagSize f)) = 4)
      by exact Hv.
    rewrite fromData_render_general; rewrite ?Hv'; try assumption; try (unfold is_byte; lia).
    unfold Footer.flags. cbn [_flags]. apply Z.ltb_lt in Hlow. rewrite Hlow.
    reflexivity.
Qed.

Lemma Footer_set_flags_low_bits_unchecked_witness :
  Footer.set_flags 3 1 (mkFooter 0 4 0 0) = (Ok tt, mkFooter 1 4 0 0)
  /\ Footer.fromData (Footer.render 3 (mkFooter 1 4 0 0)) = Throw CorruptFileError.
Proof.
  apply (Footer_set_flags_low_bits_unchecked 3 1 (mkFooter 0 4 0 0));
    try reflexivity; unfold is_byte; cbn; lia.
Defined.

Lemma legal_flags_for_4 (v flags : Z) :
  2 <= v <= 4 -> ~ illegal_flag_bit v flags -> ~ illegal_flag_bit 4 flags.
Proof.
  intros Hv Hill [[Hc _] | [[Hc _] | [_ (i & Hi & Hbit)]]]; try discriminate Hc.
  apply Hill. unfold illegal_flag_bit.
  assert (v = 2 \/ v = 3 \/ v = 4) as [-> | [-> | ->]] by lia.
  - left. split; [reflexivity|]. exists i. split; [lia | exact Hbit].
  - right. left. split; [reflexivity|]. exists i. split; [lia | exact Hbit].
  - right. right. split; [reflexivity|]. exists i. split; [lia | exact Hbit].
Qed.

(** X5.  Setting the major version of a legal footer of version 2, 3 or 4 to
    4 keeps it legal: the footer still renders to bytes that parse back to
    it. *)
Theorem Footer_set_majorVersion_then_roundtrip (defaultVersion : Z) (f : Footer) :
  legal_footer defaultVersion f ->
  2 <= Footer.majorVersion defaultVersion f <= 4 ->
  exists f', Footer.set_majorVersion 4 f = (Ok tt, f')
    /\ legal_footer defaultVersion f'
    /\ Footer.fromData (Footer.render defaultVersion f') = Ok f'.
Proof.
  intros (Hv & Hr & Hfl & Hill & Hsize) Hrange.
  eexists. split; [reflexivity|].
  assert (Hlegal : legal_footer defaultVersion
                     (mkFooter (_flags f) 4 (_revisionNumber f) (_tagSize f))).
  { unfold legal_footer, Footer.majorVersion, Footer.revisionNumber, Footer.flags,
      Footer.tagSize. cbn [_majorVersion _revisionNumber _flags _tagSize Z.eqb].
    split; [unfold is_byte; lia|]. split; [exact Hr|]. split; [exact Hfl|].
    split; [eapply legal_flags_for_4; eauto | exact Hsize]. }
  split; [exact Hlegal|].
  destruct Hlegal as (Hv4 & Hr4 & Hfl4 & Hill4 & Hsize4).
  rewrite fromData_render_truncated by assumption.
  unfold Footer.tagSize in *. cbn [_tagSize] in *. rewrite Z.mod_small by lia.
  reflexivity.
Qed.

Lemma Footer_set_majorVersion_then_roundtrip_witness :
  exists f', Footer.set_majorVersion 4 (mkFooter 128 3 0 300) = (Ok tt, f')
    /\ legal_footer 3 f'
    /\ Footer.fromData (Footer.render 3 f') = Ok f'.
Proof.
  apply (Footer_set_majorVersion_then_roundtrip 3 (mkFooter 128 3 0 300)).
  - unfold legal_footer, is_byte. cbn. repeat split; try lia.
    intros [[Hv _] | [[_ (i & Hi & Hbit)] | [Hv _]]]; try discriminate Hv.
    assert (i = 0 \/ i = 1 \/ i = 2 \/ i = 3) as [-> | [-> | [-> | ->]]] by lia;
      discriminate Hbit.
  - cbn. lia.
Defined.

(** ** Frame list: how the operations compose *)

Lemma lookup_after_filter_out (type : FrameClassType) (ident : ByteVector)
    (frames : list Frame.t) :
  List.filter (fun f => FrameClassType_eqb (Frame.frameClassType f) type
                        && ByteVector.equal (Frame.frameId f) ident)
    (filter (fun f => Frame.frameId f <> ident) frames) = [].
Proof.
  induction frames as [|f frames IH]; [reflexivity|].
  destruct (decide (Frame.frameId f = ident)) as [Heq | Hne].
  - rewrite filter_cons_False by (intros Hne; contradiction). exact IH.
  - rewrite filter_cons_True by exact Hne. cbn [List.filter].
    replace (ByteVector.equal (Frame.frameId f) ident) with false.
    + rewrite andb_false_r. exact IH.
    + symmetry. apply not_true_is_false. intros Ht. apply ByteVector_equal_eq in Ht.
      contradiction.
Qed.

Lemma lookup_other_after_filter_out (type : FrameClassType) (ident ident' : ByteVector)
    (frames : list Frame.t) :
  ident' <> ident ->
  List.filter (fun f => FrameClassType_eqb (Frame.frameClassType f) type
                        && ByteVector.equal (Frame.frameId f) ident')
    (filter (fun f => Frame.frameId f <> ident) frames)
  = List.filter (fun f => FrameClassType_eqb (Frame.frameClassType f) type
                          && ByteVector.equal (Frame.frameId f) ident') frames.
Proof.
  intros Hother. induction frames as [|f frames IH]; [reflexivity|].
  destruct (decide (Frame.frameId f = ident)) as [Heq | Hne].
  - rewrite filter_cons_False by (intros Hne; contradiction). cbn [List.filter].
    replace (ByteVector.equal (Frame.frameId f) ident') with false.
    + rewrite andb_false_r. exact IH.
    + symmetry. apply not_true_is_false. intros Ht. apply ByteVector_equal_eq in Ht.
      congruence.
  - rewrite filter_cons_True by exact Hne. cbn [List.filter]. rewrite IH. reflexivity.
Qed.

(** X6.  After [removeFrames] with a 4-byte identifier, a lookup by that
    identifier finds no frame of any class, a lookup by another 4-byte
    identifier finds what it found before, and a second [removeFrames] changes
    nothing. *)
Theorem removeFrames_then_lookup (type : FrameClassType) (ident ident' : ByteVector)
    (tag : Id3v2Tag) :
  length ident = 4%nat ->
  getFramesByIdentifier type ident (snd (removeFrames ident tag)) = Ok []
  /\ removeFrames ident (snd (removeFrames ident tag)) = (Ok tt, snd (removeFrames ident tag))
  /\ (length ident' = 4%nat -> ident' <> ident ->
      getFramesByIdentifier type ident' (snd (removeFrames ident tag))
      = getFramesByIdentifier type ident' tag).
Proof.
  intros Hlen. rewrite removeFrames_filter by exact Hlen. cbn [snd].
  split; [|split].
  - unfold getFramesByIdentifier. rewrite Hlen. cbn [Nat.eqb negb with_frames _frameList].
    rewrite lookup_after_filter_out. reflexivity.
  - rewrite removeFrames_filter by exact Hlen. cbn [with_frames _frameList _header
      _extendedHeader]. rewrite filter_all by apply Forall_filter_holds. reflexivity.
  - intros Hlen' Hother. unfold getFramesByIdentifier. rewrite Hlen'.
    cbn [Nat.eqb negb with_frames _frameList].
    rewrite lookup_other_after_filter_out by exact Hother. reflexivity.
Qed.

Lemma removeFrames_then_lookup_witness :
  getFramesByIdentifier TextInformationFrame FrameTypes.TIT2
    (snd (removeFrames FrameTypes.TIT2
            (Sample.tag_of [Example.text_frame "TIT2" "a"; Example.text_frame "TALB" "b"])))
  = Ok []
  /\ getFramesByIdentifier TextInformationFrame (ByteVector.fromString "TALB")
       (snd (removeFrames FrameTypes.TIT2
               (Sample.tag_of [Example.text_frame "TIT2" "a"; Example.text_frame "TALB" "b"])))
     = Ok [Example.text_frame "TALB" "b"].
Proof.
  destruct (removeFrames_then_lookup TextInformationFrame FrameTypes.TIT2
              (ByteVector.fromString "TALB")
              (Sample.tag_of [Example.text_frame "TIT2" "a"; Example.text_frame "TALB" "b"])
              eq_refl) as (Hsame & _ & Hother).
  split; [exact Hsame|].
  rewrite Hother; [reflexivity | reflexivity | discriminate].
Defined.

(** X7.  A frame added with [addFrame] is found by [getFramesByIdentifier]
    after the frames found before, when its class and identifier are the ones
    asked for, and is not found otherwise. *)
Theorem addFrame_then_lookup (type : FrameClassType) (ident : ByteVector)
    (frame : Frame.t) (tag : Id3v2Tag) :
  length ident = 4%nat ->
  exists found,
    getFramesByIdentifier type ident tag = Ok found
    /\ getFramesByIdentifier type ident (addFrame frame tag)
       = Ok (found ++ if FrameClassType_eqb (Frame.frameClassType frame) type
                         && ByteVector.equal (Frame.frameId frame) ident
                      then [frame] else []).
Proof.
  intros Hlen. unfold getFramesByIdentifier, addFrame. rewrite Hlen.
  cbn [Nat.eqb negb with_frames _frameList].
  eexists. split; [reflexivity|].
  rewrite List.filter_app. cbn [List.filter].
  destruct (_ && _); reflexivity.
Qed.

Lemma addFrame_then_lookup_witness :
  getFramesByIdentifier TextInformationFrame FrameTypes.TIT2
    (addFrame (Example.text_frame "TIT2" "b") (Sample.tag_of [Example.text_frame "TIT2" "a"]))
  = Ok [Example.text_frame "TIT2" "a"; Example.text_frame "TIT2" "b"].
Proof.
  destruct (addFrame_then_lookup TextInformationFrame FrameTypes.TIT2
              (Example.text_frame "TIT2" "b") (Sample.tag_of [Example.text_frame "TIT2" "a"])
              eq_refl) as (found & Hbefore & Hafter).
  injection Hbefore as <-. exact Hafter.
Defined.

(** ** Parsing: what the loop keeps and when it ends *)

Lemma Forall_filter_of {A} (P Q : A -> Prop) `{!forall x, Decision (Q x)} (l : list A) :
  Forall P l -> Forall P (filter Q l).
Proof.
  rewrite !Forall_forall. intros Hall x Hx. apply list_elem_of_filter in Hx. apply Hall, Hx.
Qed.

Lemma fold_dates_keeps (P : Frame.t -> Prop) (st : ScanState) :
  (forall f text, P f -> P (Frame.set_text text f)) ->
  Forall P (_frameList (scan_tag st)) ->
  Forall P (_frameList (fold_dates st))
  /\ _header (fold_dates st) = _header (scan_tag st)
  /\ _extendedHeader (fold_dates st) = _extendedHeader (scan_tag st).
Proof.
  intros Hset Hall. unfold fold_dates.
  destruct (tdrc st) as [i|]; [|auto].
  destruct (tdat st) as [j|]; [|auto].
  destruct (negb _); [auto|].
  assert (Hwrite : forall text,
            Forall P (alter (Frame.set_text [text]) i (_frameList (scan_tag st)))).
  { intros text. apply Forall_alter; [exact Hall | intros; apply Hset; assumption]. }
  destruct (Nat.eqb _ 4); [|cbn [with_frames _frameList _header _extendedHeader]; auto].
  destruct (time st) as [k|]; [|cbn [with_frames _frameList _header _extendedHeader]; auto].
  rewrite removeFrames_filter by reflexivity.
  cbn [snd with_frames _frameList _header _extendedHeader].
  split; [|auto]. apply Forall_filter_of, Hwrite.
Qed.

Lemma fold_dates_no_year (st : ScanState) : tdrc st = None -> fold_dates st = scan_tag st.
Proof. intros Hnone. unfold fold_dates. rewrite Hnone. reflexivity. Qed.

Section ScanProperties.

Variable FrameFactory_createFrame :
  option ByteVector -> File.t -> Z -> Z -> bool -> result (option Frame.t * Z).
Variable SyncData_resyncByteVector : option ByteVector -> result (option ByteVector).
Variable ExtendedHeader_fromData : option ByteVector -> Z -> result ExtendedHeader.
Variable Id3v2FrameHeader_getSize : Z -> Z.

Local Abbreviation scan' := (scan FrameFactory_createFrame).
Local Abbreviation parse' :=
  (parse FrameFactory_createFrame SyncData_resyncByteVector ExtendedHeader_fromData
     Id3v2FrameHeader_getSize).

Lemma remember_keeps (id : ByteVector) (i : nat) (st : ScanState) :
  scan_tag (remember id i st) = scan_tag st
  /\ frameDataPosition (remember id i st) = frameDataPosition st.
Proof. unfold remember. repeat (destruct (_ && _)); auto. Qed.

(** What a finished loop has done: it has appended frames of non-zero size
    and nothing else; an error it ends with is not one of the two it skips;
    on a version 4 tag it has noted no date frame. *)
Lemma scan_appends (data : option ByteVector) (file : File.t) (mv : Z) (unsync : bool)
    (stop : Z) :
  forall (fuel : nat) (st st' : ScanState) (r : result unit),
    scan' fuel data file mv unsync stop st = Some (r, st') ->
    (exists added,
        _frameList (scan_tag st') = _frameList (scan_tag st) ++ added
        /\ Forall (fun f => Frame.size f <> 0) added)
    /\ _header (scan_tag st') = _header (scan_tag st)
    /\ _extendedHeader (scan_tag st') = _extendedHeader (scan_tag st)
    /\ (forall e, r = Throw e -> e <> NotImplementedError /\ e <> CorruptFileError)
    /\ (mv = 4 -> tdrc st' = tdrc st).
Proof.
  induction fuel as [|fuel IH]; intros st st' r Hrun; cbn [scan] in Hrun.
  - destruct (negb _); [|discriminate Hrun]. injection Hrun as <- <-.
    split; [exists []; rewrite app_nil_r; auto|]. repeat split; intros; discriminate.
  - destruct (negb _).
    { injection Hrun as <- <-.
      split; [exists []; rewrite app_nil_r; auto|]. repeat split; intros; discriminate. }
    destruct (FrameFactory_createFrame _ _ _ _ _) as [[[frame|] offset]|e].
    + destruct (Frame.size frame =? 0) eqn:Hsize.
      { apply IH in Hrun. exact Hrun. }
      apply Z.eqb_neq in Hsize.
      assert (Hgo : forall st2,
                scan_tag st2 = addFrame frame (scan_tag st) ->
                (mv = 4 -> tdrc st2 = tdrc st) ->
                scan' fuel data file mv unsync stop st2 = Some (r, st') ->
                (exists added,
                    _frameList (scan_tag st') = _frameList (scan_tag st) ++ added
                    /\ Forall (fun f => Frame.size f <> 0) added)
                /\ _header (scan_tag st') = _header (scan_tag st)
                /\ _extendedHeader (scan_tag st') = _extendedHeader (scan_tag st)
                /\ (forall e, r = Throw e -> e <> NotImplementedError /\ e <> CorruptFileError)
                /\ (mv = 4 -> tdrc st' = tdrc st)).
      { intros st2 Htag Hrefs Hrun2.
        destruct (IH _ _ _ Hrun2) as ((added & Hadded & Hsizes) & Hh & He & Herr & Hd).
        rewrite Htag in Hadded, Hh, He. cbn [addFrame with_frames _frameList _header
          _extendedHeader] in Hadded, Hh, He.
        split.
        { exists (frame :: added). rewrite Hadded, <- app_assoc. split; [reflexivity|].
          constructor; assumption. }
        repeat split; try assumption; try (eapply Herr; eassumption).
        intros H4. rewrite Hd, Hrefs by exact H4. reflexivity. }
      destruct (mv =? 4) eqn:Hmv.
      * eapply Hgo; [| |exact Hrun]; reflexivity.
      * apply Z.eqb_neq in Hmv.
        eapply Hgo; [| |exact Hrun]; [|contradiction].
        rewrite (proj1 (remember_keeps _ _ _)). reflexivity.
    + injection Hrun as <- <-.
      split; [exists []; rewrite app_nil_r; auto|]. repeat split; intros; discriminate.
    + destruct e; try (apply IH in Hrun; exact Hrun);
        injection Hrun as <- <-;
        (split; [exists []; rewrite app_nil_r; auto|]);
        repeat split; try reflexivity; intros; try discriminate;
        match goal with H : Throw _ = Throw _ |- _ => injection H as <-; discriminate end.
Qed.

(** X8.  [parse] keeps the container free of empty frames: when no frame of
    the container has size 0 before, none has after, however [parse] ends. *)
Theorem parse_no_empty_frame (fuel : nat) (data : option ByteVector) (file file' : File.t)
    (position style : Z) (tag tag' : Id3v2Tag) (r : result unit) :
  Forall (fun f => Frame.size f <> 0) (_frameList tag) ->
  parse' fuel data file position style tag = Some (r, tag', file') ->
  Forall (fun f => Frame.size f <> 0) (_frameList tag').
Proof.
  intros Hall. unfold parse.
  destruct (materialize _ _ _ _ _) as [data1 file1].
  destruct (if fullTagUnsync _ then _ else _) as [data2|e]; [|intros [= _ <- _]; exact Hall].
  set (region := if 0 <? _ then _ else _).
  assert (Hregion : _frameList (snd region) = _frameList tag).
  { subst region. destruct (0 <? _); [|reflexivity].
    destruct (ExtendedHeader_fromData _ _); [|reflexivity].
    destruct data2; [|reflexivity]. destruct (_ <=? _); reflexivity. }
  destruct region as [[[start stop]|e] tag1]; cbn [snd] in Hregion;
    [|intros [= _ <- _]; rewrite Hregion; exact Hall].
  destruct (scan' _ _ _ _ _ _ _) as [[[u|e] st]|] eqn:Hscan; [| |discriminate];
    intros [= _ <- _];
    destruct (scan_appends _ _ _ _ _ _ _ _ _ Hscan) as ((added & Hadded & Hsizes) & _);
    cbn [scan_tag] in Hadded; rewrite Hregion in Hadded.
  - apply fold_dates_keeps; [intros; assumption|].
    rewrite Hadded. apply Forall_app_2; assumption.
  - rewrite Hadded. apply Forall_app_2; assumption.
Qed.

(** X9.  On a version 4 tag [parse] only appends: the frames the container
    had stay, unchanged and in front, and the header stays. *)
Theorem parse_version_4_appends (fuel : nat) (data : option ByteVector) (file file' : File.t)
    (position style : Z) (tag tag' : Id3v2Tag) (r : result unit) :
  h_majorVersion (_header tag) = 4 ->
  parse' fuel data file position style tag = Some (r, tag', file') ->
  _frameList tag `prefix_of` _frameList tag' /\ _header tag' = _header tag.
Proof.
  intros Hv4. unfold parse.
  destruct (materialize _ _ _ _ _) as [data1 file1].
  destruct (if fullTagUnsync _ then _ else _) as [data2|e];
    [|intros [= _ <- _]; split; reflexivity].
  set (region := if 0 <? _ then _ else _).
  assert (Hregion : _frameList (snd region) = _frameList tag
                    /\ _header (snd region) = _header tag).
  { subst region. destruct (0 <? _); [|auto].
    destruct (ExtendedHeader_fromData _ _); [|auto].
    destruct data2; [|auto]. destruct (_ <=? _); auto. }
  destruct region as [[[start stop]|e] tag1]; cbn [snd] in Hregion;
    destruct Hregion as [Hframes Hheader];
    [|intros [= _ <- _]; rewrite Hframes, Hheader; split; reflexivity].
  destruct (scan' _ _ _ _ _ _ _) as [[[u|e] st]|] eqn:Hscan; [| |discriminate];
    intros [= _ <- _];
    destruct (scan_appends _ _ _ _ _ _ _ _ _ Hscan)
      as ((added & Hadded & _) & Hh & _ & _ & Hrefs);
    cbn [scan_tag tdrc] in Hadded, Hh, Hrefs; rewrite Hframes in Hadded;
    rewrite Hheader in Hh.
  - rewrite fold_dates_no_year by (apply Hrefs, Hv4).
    rewrite Hadded, Hh. split; [apply prefix_app_r; reflexivity | reflexivity].
  - rewrite Hadded, Hh. split; [apply prefix_app_r; reflexivity | reflexivity].
Qed.

(** X10.  On a tag without tag-wide unsynchronization and without an extended
    header, an error that [parse] ends with is never one of the two signals
    the loop skips. *)
Theorem parse_never_throws_skipped (fuel : nat) (data : option ByteVector)
    (file file' : File.t) (position style : Z) (tag tag' : Id3v2Tag) (e : error) :
  fullTagUnsync (_header tag) = false ->
  (0 <? Z.land (h_flags (_header tag)) HeaderFlags.ExtendedHeader) = false ->
  parse' fuel data file position style tag = Some (Throw e, tag', file') ->
  e <> NotImplementedError /\ e <> CorruptFileError.
Proof.
  intros Hunsync Hext. unfold parse. rewrite Hunsync, Hext.
  destruct (materialize _ _ _ _ _) as [data1 file1].
  destruct (scan' _ _ _ _ _ _ _) as [[[u|e'] st]|] eqn:Hscan; try discriminate.
  intros [= <- _ _].
  destruct (scan_appends _ _ _ _ _ _ _ _ _ Hscan) as (_ & _ & _ & Herr & _).
  apply Herr. reflexivity.
Qed.

Lemma scan_ends (data : option ByteVector) (file : File.t) (mv : Z) (unsync : bool)
    (stop : Z) :
  forall (fuel : nat) (st : ScanState),
    advances FrameFactory_createFrame data file mv unsync (frameDataPosition st) stop ->
    (Z.to_nat (stop - frameDataPosition st) <= fuel)%nat ->
    exists st', scan' fuel data file mv unsync stop st = Some (Ok tt, st').
Proof.
  induction fuel as [|fuel IH]; intros st Hadv Hfuel; cbn [scan].
  - replace (frameDataPosition st <? stop) with false by (symmetry; apply Z.ltb_ge; lia).
    eexists; reflexivity.
  - destruct (frameDataPosition st <? stop) eqn:Hin; cbn [negb]; [|eexists; reflexivity].
    apply Z.ltb_lt in Hin.
    destruct (Hadv (frameDataPosition st)) as (frame & p' & -> & Hnext); [lia|].
    destruct frame as [frame|]; [|eexists; reflexivity].
    destruct Hnext as [Hnone | Hlater]; [discriminate Hnone|].
    assert (Hrest : forall st1, frameDataPosition st1 = p' ->
              exists st', scan' fuel data file mv unsync stop st1 = Some (Ok tt, st')).
    { intros st1 Hpos. apply IH; rewrite Hpos; [|lia].
      intros p Hp. apply Hadv. lia. }
    destruct (Frame.size frame =? 0); [apply Hrest; reflexivity|].
    destruct (mv =? 4); [apply Hrest; reflexivity|].
    apply Hrest. rewrite (proj2 (remember_keeps _ _ _)). reflexivity.
Qed.

(** X11.  When the frame factory makes progress on the frame region, [parse]
    reading lazily from the file returns normally, within as many rounds as
    the region has bytes. *)
Theorem parse_ends_when_factory_advances (fuel : nat) (file : File.t)
    (position style : Z) (tag : Id3v2Tag) :
  fullTagUnsync (_header tag) = false ->
  (0 <? Z.land (h_flags (_header tag)) HeaderFlags.ExtendedHeader) = false ->
  advances FrameFactory_createFrame None file (h_majorVersion (_header tag)) false position
    (h_tagSize (_header tag) + position
     - Id3v2FrameHeader_getSize (h_majorVersion (_header tag))) ->
  (Z.to_nat (h_tagSize (_header tag)
             - Id3v2FrameHeader_getSize (h_majorVersion (_header tag))) <= fuel)%nat ->
  exists tag', parse' fuel None file position style tag = Some (Ok tt, tag', file).
Proof.
  intros Hunsync Hext Hadv Hfuel. unfold parse.
  rewrite materialize_undefined, Hunsync, Hext.
  destruct (scan_ends None file (h_majorVersion (_header tag)) false
              (h_tagSize (_header tag) + position
               - Id3v2FrameHeader_getSize (h_majorVersion (_header tag)))
              fuel (mkScan position tag None None None None)) as [st' ->].
  - exact Hadv.
  - cbn [frameDataPosition]. lia.
  - eexists; reflexivity.
Qed.

End ScanProperties.

Lemma parse_no_empty_frame_witness :
  Forall (fun f => Frame.size f <> 0)
    [Frame.set_text ["1999-12-25"] (Example.text_frame "TDRC" "1999");
     Example.text_frame "TDAT" "1225"].
Proof.
  apply (parse_no_empty_frame (Example.scripted Example.year_date) Example.resync
           Example.extendedHeader Example.frameHeaderSize 3 None Example.small_file
           Example.small_file 10 ReadStyle.None_ (Example.empty_tag 3 0 50)
           (mkTag None
              [Frame.set_text ["1999-12-25"] (Example.text_frame "TDRC" "1999");
               Example.text_frame "TDAT" "1225"]
              (mkHeader 0 3 0 50))
           (Ok tt)).
  - constructor.
  - reflexivity.
Defined.

Lemma parse_version_4_appends_witness :
  _frameList Sample.tag4
    `prefix_of` [Example.text_frame "TIT2" "Title"; Example.text_frame "TDRC" "1999";
                 Example.text_frame "TDAT" "1225"].
Proof.
  apply (parse_version_4_appends (Example.scripted Example.year_date) Example.resync
           Example.extendedHeader Example.frameHeaderSize 3 None Example.small_file
           Example.small_file 10 ReadStyle.None_ Sample.tag4
           (mkTag None
              [Example.text_frame "TIT2" "Title"; Example.text_frame "TDRC" "1999";
               Example.text_frame "TDAT" "1225"]
              (mkHeader 0 4 0 50))
           (Ok tt)).
  - reflexivity.
  - reflexivity.
Defined.

Lemma year_date_advances :
  advances (Example.scripted Example.year_date) None Example.small_file 3 false 10 50.
Proof.
  intros p Hp. unfold Example.scripted, Example.year_date.
  destruct (p =? 10) eqn:H10; [apply Z.eqb_eq in H10; eexists _, _; split; [reflexivity|lia]|].
  destruct (p =? 30) eqn:H30; [apply Z.eqb_eq in H30; eexists _, _; split; [reflexivity|lia]|].
  eexists _, _; split; [reflexivity|]. left; reflexivity.
Qed.

Lemma parse_ends_when_factory_advances_witness :
  exists tag',
    parse (Example.scripted Example.year_date) Example.resync Example.extendedHeader
      Example.frameHeaderSize 40 None Example.small_file 10 ReadStyle.None_
      (Example.empty_tag 3 0 50)
    = Some (Ok tt, tag', Example.small_file).
Proof.
  apply (parse_ends_when_factory_advances (Example.scripted Example.year_date)
           Example.resync Example.extendedHeader Example.frameHeaderSize 40
           Example.small_file 10 ReadStyle.None_ (Example.empty_tag 3 0 50)).
  - reflexivity.
  - reflexivity.
  - exact year_date_advances.
  - cbn. lia.
Defined.

Lemma parse_never_throws_skipped_witness :
  JsError "out of memory" <> NotImplementedError
  /\ JsError "out of memory" <> CorruptFileError.
Proof.
  apply (parse_never_throws_skipped (Example.scripted Sample.failing) Example.resync
           Example.extendedHeader Example.frameHeaderSize 3 None Example.small_file
           Example.small_file 10 ReadStyle.None_ (Example.empty_tag 3 0 50)
           (Example.empty_tag 3 0 50) (JsError "out of memory")).
  - reflexivity.
  - reflexivity.
  - reflexivity.
Defined.

(** ** Numbers written and read back *)

Lemma pretty_N_char_digit (d : N) :
  (d < 10)%N ->
  is_digit (pretty_N_char d) = true /\ digit_value (pretty_N_char d) = Z.of_N d.
Proof.
  intros Hd.
  assert (d = 0 \/ d = 1 \/ d = 2 \/ d = 3 \/ d = 4 \/ d = 5 \/ d = 6 \/ d = 7
          \/ d = 8 \/ d = 9)%N as Hcases by lia.
  repeat (destruct Hcases as [-> | Hcases]; [split; reflexivity|]).
  subst d. split; reflexivity.
Qed.

(** The digits [pretty] writes for a positive number: how many there are,
    that they are digits, and what [read_digits] makes of them. *)
Lemma pretty_N_go_digits (x : N) :
  (0 < x)%N ->
  exists k : nat,
    (1 <= k)%nat /\ 10 ^ (Z.of_nat k - 1) <= Z.of_N x < 10 ^ Z.of_nat k
    /\ forall s,
        String.length (pretty_N_go x s) = (k + String.length s)%nat
        /\ (all_digits s = true -> all_digits (pretty_N_go x s) = true)
        /\ (exists c rest, pretty_N_go x s = String c rest /\ is_digit c = true)
        /\ forall acc,
            read_digits acc (pretty_N_go x s)
            = read_digits (Some (10 ^ Z.of_nat k * default 0 acc + Z.of_N x)) s.
Proof.
  induction (N.lt_wf_0 x) as [x _ IH]. intros Hpos.
  destruct (pretty_N_char_digit (x `mod` 10)%N) as [Hdigit Hvalue].
  { apply N.mod_lt. discriminate. }
  assert (Hdm : Z.of_N x = 10 * Z.of_N (x `div` 10)%N + Z.of_N (x `mod` 10)%N).
  { rewrite (N.div_mod x 10) at 1 by discriminate.
    rewrite N2Z.inj_add, N2Z.inj_mul. reflexivity. }
  assert (Hm : 0 <= Z.of_N (x `mod` 10)%N < 10).
  { split; [apply N2Z.is_nonneg|].
    change 10 with (Z.of_N 10). apply N2Z.inj_lt, N.mod_lt. discriminate. }
  destruct (N.eq_dec (x `div` 10)%N 0%N) as [Hsmall | Hbig].
  - exists 1%nat. split; [lia|]. split.
    { rewrite Hdm, Hsmall. change (10 ^ (Z.of_nat 1 - 1)) with 1.
      change (10 ^ Z.of_nat 1) with 10.
      assert (0 < Z.of_N x) by lia. lia. }
    intros s. rewrite pretty_N_go_step, Hsmall, pretty_N_go_0 by exact Hpos.
    split; [reflexivity|]. split.
    { intros Hs. cbn [all_digits]. rewrite Hdigit, Hs. reflexivity. }
    split; [eauto|].
    intros acc. cbn [read_digits]. rewrite Hdigit, Hvalue, Hdm, Hsmall.
    change (10 ^ Z.of_nat 1) with 10.
    apply (f_equal2 read_digits); [|reflexivity]. apply f_equal. cbn [Z.of_N]. lia.
  - destruct (IH (x `div` 10)%N) as (k & Hk & Hrange & Hgo).
    { apply N.div_lt; [exact Hpos | reflexivity]. }
    { lia. }
    exists (S k). split; [lia|]. split.
    { rewrite Hdm. replace (Z.of_nat (S k) - 1) with (Z.of_nat k - 1 + 1) by lia.
      rewrite Z.pow_add_r by lia. rewrite Nat2Z.inj_succ, Z.pow_succ_r by lia.
      change (10 ^ 1) with 10. lia. }
    intros s. rewrite pretty_N_go_step by exact Hpos.
    destruct (Hgo (String (pretty_N_char (x `mod` 10)) s)) as (Hlen & Hall & Hfirst & Hread).
    split; [rewrite Hlen; cbn [String.length]; lia|]. split.
    { intros Hs. apply Hall. cbn [all_digits]. rewrite Hdigit, Hs. reflexivity. }
    split; [exact Hfirst|].
    intros acc. rewrite Hread. cbn [read_digits]. rewrite Hdigit, Hvalue.
    cbn [default]. apply (f_equal2 read_digits); [|reflexivity]. apply f_equal.
    rewrite Hdm, Nat2Z.inj_succ, Z.pow_succ_r by lia. unfold id. ring.
Qed.

Lemma digit_is_plain (c : ascii) :
  is_digit c = true ->
  is_white_space c = false /\ Ascii.eqb c "/" = false
  /\ forall rest, parseInt (String c rest)
                  = (fun n => 1 * n) <$> read_digits None (String c rest).
Proof.
  destruct c as [[] [] [] [] [] [] [] []]; intros Hd; try discriminate Hd;
    repeat split; reflexivity.
Qed.

Lemma pretty_Z_digits (n : Z) :
  0 <= n ->
  exists k : nat,
    String.length (pretty n) = k /\ (1 <= k)%nat
    /\ (0 < n -> 10 ^ (Z.of_nat k - 1) <= n < 10 ^ Z.of_nat k)
    /\ (n = 0 -> k = 1%nat)
    /\ all_digits (pretty n) = true
    /\ (exists c rest, pretty n = String c rest /\ is_digit c = true)
    /\ forall acc, read_digits acc (pretty n) = Some (10 ^ Z.of_nat k * default 0 acc + n).
Proof.
  intros Hn. destruct n as [|p|p]; [| |lia].
  - exists 1%nat.
    split; [reflexivity|]. split; [lia|]. split; [lia|]. split; [reflexivity|].
    split; [reflexivity|]. split.
    + exists "0"%char, EmptyString. split; reflexivity.
    + intros acc. reflexivity.
  - destruct (pretty_N_go_digits (N.pos p)) as (k & Hk & Hrange & Hgo); [reflexivity|].
    destruct (Hgo EmptyString) as (Hlen & Hall & Hfirst & Hread).
    assert (Hpretty : pretty (Z.pos p) = pretty_N_go (N.pos p) "") by reflexivity.
    exists k. rewrite Hpretty. cbn [String.length] in Hlen.
    split; [lia|]. split; [exact Hk|]. split; [intros _; exact Hrange|].
    split; [discriminate|]. split; [apply Hall; reflexivity|]. split; [exact Hfirst|].
    intros acc. rewrite Hread. reflexivity.
Qed.

Lemma zeros_step (j : nat) :
  String.concat "" (replicate (S j) "0") = String "0" (String.concat "" (replicate j "0")).
Proof. destruct j; reflexivity. Qed.

Lemma zeros_in_front (j : nat) (s : string) :
  (all_digits s = true -> all_digits (String.concat "" (replicate j "0") +:+ s) = true)
  /\ ((exists c rest, s = String c rest /\ is_digit c = true) ->
      exists c rest, String.concat "" (replicate j "0") +:+ s = String c rest
                     /\ is_digit c = true)
  /\ forall acc, default 0 acc = 0 ->
       exists acc', default 0 acc' = 0
         /\ read_digits acc (String.concat "" (replicate j "0") +:+ s) = read_digits acc' s.
Proof.
  induction j as [|j (IHall & IHfirst & IHread)].
  - repeat split; auto. intros acc Hacc. exists acc. auto.
  - rewrite zeros_step. cbn [String.app]. repeat split.
    + intros Hs. apply andb_true_iff. split; [reflexivity | apply IHall, Hs].
    + intros _. eexists _, _. split; reflexivity.
    + intros acc Hacc. cbn [read_digits]. change (is_digit "0") with true. cbv iota.
      apply IHread. cbn. rewrite Hacc. reflexivity.
Qed.

(** What [parseInt] reads from a number as [setNumberFrame] writes it, with
    its leading zeros. *)
Lemma parseInt_padded (width : nat) (n : Z) :
  0 <= n ->
  all_digits (padStart width "0" (pretty n)) = true
  /\ parseInt (padStart width "0" (pretty n)) = Some n.
Proof.
  intros Hn. unfold padStart.
  destruct (pretty_Z_digits n Hn) as (k & _ & _ & _ & _ & Hall & Hfirst & Hread).
  destruct (zeros_in_front (width - String.length (pretty n)) (pretty n))
    as (Hzall & Hzfirst & Hzread).
  split; [apply Hzall, Hall|].
  destruct (Hzfirst Hfirst) as (c & rest & Heq & Hdigit).
  rewrite Heq. rewrite (proj2 (proj2 (digit_is_plain c Hdigit))). rewrite <- Heq.
  destruct (Hzread None eq_refl) as (acc' & Hacc' & ->).
  rewrite Hread, Hacc'. cbn. f_equal. lia.
Qed.

Lemma split_on_digits (s : string) : all_digits s = true -> split_on "/" s = [s].
Proof.
  induction s as [|c s IH]; [reflexivity|]. cbn [all_digits split_on].
  intros [Hc Hs]%andb_true_iff.
  rewrite (proj1 (proj2 (digit_is_plain c Hc))), (IH Hs). reflexivity.
Qed.

Lemma split_on_slash (a b : string) :
  all_digits a = true -> all_digits b = true ->
  split_on "/" (a +:+ "/" +:+ b) = [a; b].
Proof.
  intros Ha Hb. induction a as [|c a IH].
  - change (EmptyString :: split_on "/" b = [EmptyString; b]).
    rewrite (split_on_digits b Hb). reflexivity.
  - cbn [all_digits] in Ha. apply andb_true_iff in Ha as [Hc Ha].
    change (split_on "/" (String c (a +:+ "/" +:+ b)) = [String c a; b]).
    cbn [split_on]. rewrite (proj1 (proj2 (digit_is_plain c Hc))).
    rewrite (IH Ha). reflexivity.
Qed.

Lemma padStart_none (s : string) : padStart 0 "0" s = s.
Proof. reflexivity. Qed.

Lemma starts_with_digit_truthy (s : string) :
  (exists c rest, s = String c rest /\ is_digit c = true) -> truthy s = true.
Proof. intros (c & rest & -> & _). reflexivity. Qed.

Lemma padded_first_digit (width : nat) (n : Z) :
  0 <= n ->
  exists c rest, padStart width "0" (pretty n) = String c rest /\ is_digit c = true.
Proof.
  intros Hn. destruct (pretty_Z_digits n Hn) as (k & _ & _ & _ & _ & _ & Hfirst & _).
  apply (zeros_in_front (width - String.length (pretty n)) (pretty n)), Hfirst.
Qed.

Lemma read_digits_bound (s : string) :
  forall acc v, 0 <= default 0 acc -> read_digits acc s = Some v ->
  0 <= v <= 10 ^ Z.of_nat (String.length s) * (default 0 acc + 1) - 1.
Proof.
  induction s as [|c s IH]; intros acc v Hacc Hread.
  - cbn in Hread. subst acc. cbn [default String.length Z.of_nat] in *.
    unfold id in *. change (10 ^ Z.of_nat 0) with 1. lia.
  - cbn [read_digits] in Hread. cbn [String.length].
    rewrite Nat2Z.inj_succ, Z.pow_succ_r by lia.
    pose proof (Z.pow_pos_nonneg 10 (Z.of_nat (String.length s))) as Hpow.
    destruct (is_digit c) eqn:Hc.
    + assert (Hd : 0 <= digit_value c <= 9).
      { unfold is_digit in Hc. apply andb_true_iff in Hc as [H1 H2].
        apply N.leb_le in H1, H2. unfold digit_value. lia. }
      apply IH in Hread; cbn [default] in *; unfold id in *; [|lia]. nia.
    + subst acc. cbn [default] in *. unfold id in *. nia.
Qed.

Lemma trim_start_length (s : string) :
  (String.length (trim_start s) <= String.length s)%nat.
Proof.
  induction s as [|c s IH]; [reflexivity|]. cbn [trim_start].
  destruct (is_white_space c); cbn [String.length]; lia.
Qed.

(** A number that [parseInt] reads has no more digits than the string has
    characters. *)
Lemma parseInt_bound (s : string) (v : Z) :
  parseInt s = Some v -> v <= 10 ^ Z.of_nat (String.length s) - 1.
Proof.
  unfold parseInt. pose proof (trim_start_length s) as Htrim.
  assert (Hmono : forall n, (n <= String.length s)%nat ->
                    10 ^ Z.of_nat n <= 10 ^ Z.of_nat (String.length s))
    by (intros n Hn; apply Z.pow_le_mono_r; lia).
  assert (Hplain : forall s2, (String.length s2 <= String.length s)%nat ->
            (fun n => 1 * n) <$> read_digits None s2 = Some v ->
            v <= 10 ^ Z.of_nat (String.length s) - 1).
  { intros s2 Hlen Hread. destruct (read_digits None s2) as [n|] eqn:Hn; [|discriminate].
    injection Hread as <-. apply read_digits_bound in Hn; [|cbn; lia].
    cbn [default] in Hn. specialize (Hmono _ Hlen). lia. }
  destruct (trim_start s) as [|c s1] eqn:Hs1; [discriminate|].
  cbn [String.length] in Htrim.
  destruct (Ascii.eqb_spec c "-") as [-> | Hminus].
  - intros Hread. destruct (read_digits None s1) as [n|] eqn:Hn; [|discriminate].
    injection Hread as <-. apply read_digits_bound in Hn; [|cbn; lia].
    pose proof (Z.pow_pos_nonneg 10 (Z.of_nat (String.length s))). lia.
  - destruct (Ascii.eqb_spec c "+") as [-> | Hplus].
    + apply Hplain. lia.
    + intros Hread. apply (Hplain (String c s1)); [cbn [String.length]; lia|].
      rewrite <- Hread. destruct c as [[] [] [] [] [] [] [] []]; try reflexivity;
        contradiction.
Qed.

Lemma substring_length_le (n m : nat) (s : string) :
  (String.length (substring n m s) <= m)%nat.
Proof.
  revert n m. induction s as [|c s IH]; intros [|n] [|m]; cbn; try lia.
  - specialize (IH 0%nat m). lia.
  - apply (IH n 0%nat).
  - apply (IH n (S m)).
Qed.

Lemma substring_whole (s : string) : substring 0 (String.length s) s = s.
Proof. induction s as [|c s IH]; [reflexivity|]. cbn. f_equal. exact IH. Qed.

Section NumberProperties.

Variable TextInformationFrame_find : Id3v2Tag -> ByteVector -> option nat.
Variable UrlLinkFrame_find : Id3v2Tag -> ByteVector -> option nat.
Variable TextInformationFrame_getTextInformationFrame :
  Id3v2Tag -> ByteVector -> Id3v2Tag * nat.
Variable UrlLinkFrame_get : Id3v2Tag -> ByteVector -> Id3v2Tag * nat.
Variable cfg : Settings.

Local Abbreviation setNumber :=
  (setNumberFrame TextInformationFrame_getTextInformationFrame UrlLinkFrame_get cfg).
Local Abbreviation getUint32 :=
  (getTextAsUint32 TextInformationFrame_find UrlLinkFrame_find).
Local Abbreviation getString :=
  (getTextAsString TextInformationFrame_find UrlLinkFrame_find).

(** The text that [setTextFrame] writes on a text information frame is the
    text that [getTextAsString] reads, provided the two lookups agree on the
    frame. *)
Lemma getTextAsString_after_setTextFrame (ident : ByteVector) (text : string)
    (tag tag' : Id3v2Tag) (i : nat) :
  length ident = 4%nat -> ByteVector.get ident 0 <> 87 ->
  truthy text = true ->
  TextInformationFrame_getTextInformationFrame tag ident = (tag', i) ->
  (i < length (_frameList tag'))%nat ->
  TextInformationFrame_find (write_text cfg i [text] tag') ident = Some i ->
  setTextFrame TextInformationFrame_getTextInformationFrame UrlLinkFrame_get cfg
    ident [text] tag = (Ok tt, write_text cfg i [text] tag')
  /\ getString ident (write_text cfg i [text] tag') = Some text.
Proof.
  intros Hlen Hw Htext Hget Hi Hfind. unfold setTextFrame, getTextAsString.
  rewrite Hlen. cbn [Nat.eqb negb forallb]. rewrite Htext. cbn [negb andb].
  destruct (Z.eqb_spec (ByteVector.get ident 0) 87) as [|_]; [contradiction|].
  rewrite Hget. split; [reflexivity|].
  rewrite Hfind. unfold frame_text, write_text. cbn [_frameList with_frames].
  destruct (lookup_lt_is_Some_2 (_frameList tag') i Hi) as [f Hf].
  rewrite list_lookup_alter, Hf. rewrite decide_True by reflexivity.
  cbn [fmap option_fmap option_map].
  change (Frame.toString _) with text. rewrite Htext. reflexivity.
Qed.

Lemma setNumberFrame_read_back (ident : ByteVector)
    (numerator denominator minPlaces : Z) (tag tag' : Id3v2Tag) (i : nat) :
  length ident = 4%nat -> ByteVector.get ident 0 <> 87 ->
  0 <= numerator <= 4294967295 -> 0 <= denominator <= 4294967295 ->
  0 <= minPlaces <= 255 ->
  numerator <> 0 \/ denominator <> 0 ->
  TextInformationFrame_getTextInformationFrame tag ident = (tag', i) ->
  (i < length (_frameList tag'))%nat ->
  (forall text, TextInformationFrame_find (write_text cfg i [text] tag') ident = Some i) ->
  exists tag2,
    setNumber ident numerator denominator minPlaces tag = (Ok tt, tag2)
    /\ getUint32 ident 0 tag2 = numerator
    /\ getUint32 ident 1 tag2 = denominator.
Proof.
  intros Hlen Hw Hnum Hden Hmin Hnz Hget Hi Hfind. unfold setNumberFrame, Guards_uint, Guards_byte.
  rewrite !(proj2 (andb_true_iff _ _)) by (split; apply Z.leb_le; lia).
  rewrite Hlen. cbn [Nat.eqb negb].
  destruct (Z.eqb_spec denominator 0) as [Hd0 | Hd0].
  - destruct (Z.eqb_spec numerator 0) as [Hn0 | Hn0]; [lia|]. cbn [andb negb].
    destruct (parseInt_padded 0 numerator) as [Hall Hparse]; [lia|].
    rewrite padStart_none in Hall, Hparse.
    destruct (getTextAsString_after_setTextFrame ident (pretty numerator) tag tag' i)
      as [Hset Hread]; auto.
    { apply starts_with_digit_truthy. rewrite <- (padStart_none (pretty numerator)).
      apply padded_first_digit. lia. }
    exists (write_text cfg i [pretty numerator] tag'). split; [exact Hset|].
    unfold getTextAsUint32. rewrite Hread, (split_on_digits _ Hall).
    cbn. rewrite Hparse. auto.
  - rewrite andb_false_r. cbn [negb].
    destruct (parseInt_padded (Z.to_nat minPlaces) numerator) as [Hall Hparse]; [lia|].
    destruct (parseInt_padded 0 denominator) as [Hall' Hparse']; [lia|].
    rewrite padStart_none in Hall', Hparse'.
    set (formatted := padStart (Z.to_nat minPlaces) "0" (pretty numerator)) in *.
    destruct (getTextAsString_after_setTextFrame ident
                (formatted +:+ "/" +:+ pretty denominator) tag tag' i)
      as [Hset Hread]; auto.
    { destruct (padded_first_digit (Z.to_nat minPlaces) numerator) as (c & rest & Heq & _); [lia|].
      fold formatted in Heq. rewrite Heq. reflexivity. }
    exists (write_text cfg i [formatted +:+ "/" +:+ pretty denominator] tag').
    split; [exact Hset|].
    unfold getTextAsUint32. rewrite Hread, (split_on_slash _ _ Hall Hall').
    cbn. rewrite Hparse, Hparse'. auto.
Qed.

(** X12. A number pair written by [setNumberFrame] on a text information
    frame is read back by [getTextAsUint32]: index 0 gives the numerator
    (whatever zeros were padded in front of it) and index 1 the denominator,
    provided the two numbers are not both zero and the lookup without
    creation finds the frame that the creating lookup returned. *)
Theorem setNumberFrame_then_getTextAsUint32 (ident : ByteVector)
    (numerator denominator minPlaces : Z) (tag tag' : Id3v2Tag) (i : nat) :
  length ident = 4%nat -> ByteVector.get ident 0 <> 87 ->
  0 <= numerator <= 4294967295 -> 0 <= denominator <= 4294967295 ->
  0 <= minPlaces <= 255 ->
  numerator <> 0 \/ denominator <> 0 ->
  TextInformationFrame_getTextInformationFrame tag ident = (tag', i) ->
  (i < length (_frameList tag'))%nat ->
  (forall text, TextInformationFrame_find (write_text cfg i [text] tag') ident = Some i) ->
  exists tag2,
    setNumber ident numerator denominator minPlaces tag = (Ok tt, tag2)
    /\ getUint32 ident 0 tag2 = numerator
    /\ getUint32 ident 1 tag2 = denominator.
Proof. apply setNumberFrame_read_back. Qed.

(** X13. The track setter writes the number beside the track count it reads
    from the container: afterwards the track getter gives the new number and
    the count getter the count as before, provided that count is an unsigned
    32-bit number, not both numbers are zero, and the lookup without creation
    finds the frame that the creating lookup returned. *)
Theorem set_track_keeps_trackCount (value : Z) (tag tag' : Id3v2Tag) (i : nat) :
  0 <= value <= 4294967295 ->
  0 <= get_trackCount TextInformationFrame_find UrlLinkFrame_find tag <= 4294967295 ->
  value <> 0 \/ get_trackCount TextInformationFrame_find UrlLinkFrame_find tag <> 0 ->
  TextInformationFrame_getTextInformationFrame tag FrameTypes_TRCK = (tag', i) ->
  (i < length (_frameList tag'))%nat ->
  (forall text,
     TextInformationFrame_find (write_text cfg i [text] tag') FrameTypes_TRCK = Some i) ->
  exists tag2,
    set_track TextInformationFrame_find UrlLinkFrame_find
      TextInformationFrame_getTextInformationFrame UrlLinkFrame_get cfg value tag
    = (Ok tt, tag2)
    /\ get_track TextInformationFrame_find UrlLinkFrame_find tag2 = value
    /\ get_trackCount TextInformationFrame_find UrlLinkFrame_find tag2
       = get_trackCount TextInformationFrame_find UrlLinkFrame_find tag.
Proof.
  intros Hvalue Hcount Hnz Hget Hi Hfind. unfold set_track, get_track.
  unfold get_trackCount at 2 3.
  apply (setNumberFrame_read_back FrameTypes_TRCK value _ 2 tag tag' i);
    [reflexivity | vm_compute; lia | exact Hvalue | exact Hcount | lia | exact Hnz
    | exact Hget | exact Hi | exact Hfind].
Qed.


(** X14. The year read from the container is always a number from 0 to
    9999, whatever the text of the frame. *)
Theorem get_year_range (tag : Id3v2Tag) :
  0 <= get_year TextInformationFrame_find UrlLinkFrame_find tag <= 9999.
Proof.
  unfold get_year. destruct (getTextAsString _ _ _ _) as [text|]; [|lia].
  destruct (String.length text <? 4)%nat; [lia|].
  destruct (parseInt (substring 0 4 text)) as [year|] eqn:Hparse; [|lia].
  destruct (Z.ltb_spec year 0) as [|Hpos]; [lia|]. split; [exact Hpos|].
  pose proof (parseInt_bound _ _ Hparse) as Hbound.
  pose proof (substring_length_le 0 4 text) as Hlen.
  assert (10 ^ Z.of_nat (String.length (substring 0 4 text)) <= 10 ^ 4)
    by (apply Z.pow_le_mono_r; lia).
  lia.
Qed.

(** X15. A year from 1000 to 9999 written by the setter is the year the
    getter reads; a year from 1 to 999 is written with fewer than four
    digits, and the getter reads 0. *)
Theorem set_year_then_get_year (value : Z) (tag tag' : Id3v2Tag) (i : nat) :
  1 <= value <= 9999 ->
  TextInformationFrame_getTextInformationFrame tag FrameTypes.TDRC = (tag', i) ->
  (i < length (_frameList tag'))%nat ->
  (forall text,
     TextInformationFrame_find (write_text cfg i [text] tag') FrameTypes.TDRC = Some i) ->
  exists tag2,
    set_year TextInformationFrame_getTextInformationFrame UrlLinkFrame_get cfg value tag
    = (Ok tt, tag2)
    /\ get_year TextInformationFrame_find UrlLinkFrame_find tag2
       = if value <? 1000 then 0 else value.
Proof.
  intros Hvalue Hget Hi Hfind. unfold set_year, Guards_uint.
  rewrite (proj2 (andb_true_iff _ _)) by (split; apply Z.leb_le; lia). cbn [negb].
  destruct (Z.ltb_spec 9999 value) as [|_]; [lia|].
  unfold setNumberFrame, Guards_uint, Guards_byte.
  rewrite (proj2 (andb_true_iff _ _)) by (split; apply Z.leb_le; lia).
  destruct (Z.eqb_spec value 0) as [|_]; [lia|].
  cbn [negb andb Z.leb Z.compare Nat.eqb length FrameTypes.TDRC ByteVector.fromString
       Z.eqb].
  destruct (parseInt_padded 0 value) as [Hall Hparse]; [lia|].
  rewrite padStart_none in Hall, Hparse.
  destruct (getTextAsString_after_setTextFrame FrameTypes.TDRC (pretty value) tag tag' i)
    as [Hset Hread]; [reflexivity | vm_compute; lia | | exact Hget | exact Hi | apply Hfind |].
  { apply starts_with_digit_truthy. rewrite <- (padStart_none (pretty value)).
    apply padded_first_digit. lia. }
  exists (write_text cfg i [pretty value] tag'). split; [exact Hset|].
  unfold get_year. rewrite Hread.
  destruct (pretty_Z_digits value) as (k & Hk & _ & Hrange & _); [lia|].
  specialize (Hrange ltac:(lia)). rewrite Hk.
  destruct (Z.ltb_spec value 1000) as [Hsmall | Hfour].
  - assert (k < 4)%nat as Hk4.
    { destruct (Nat.lt_ge_cases k 4) as [|Hge]; [assumption|]. exfalso.
      assert (10 ^ 3 <= 10 ^ (Z.of_nat k - 1)) by (apply Z.pow_le_mono_r; lia). lia. }
    apply Nat.ltb_lt in Hk4. rewrite Hk4. reflexivity.
  - assert (k = 4)%nat as ->.
    { destruct (Nat.lt_trichotomy k 4) as [Hlt | [Heq | Hgt]]; [|exact Heq|]; exfalso.
      - assert (10 ^ Z.of_nat k <= 10 ^ 3) by (apply Z.pow_le_mono_r; lia). lia.
      - assert (10 ^ 4 <= 10 ^ (Z.of_nat k - 1)) by (apply Z.pow_le_mono_r; lia). lia. }
    cbn [Nat.ltb Nat.leb]. rewrite <- Hk at 1. rewrite substring_whole, Hparse.
    destruct (Z.ltb_spec value 0); [lia | reflexivity].
Qed.

End NumberProperties.

Lemma setNumberFrame_then_getTextAsUint32_witness :
  exists tag2,
    setNumberFrame (Example.find_or_create TextInformationFrame)
      (Example.find_or_create UrlLinkFrame) Example.cfg FrameTypes_TRCK 3 12 2
      (Example.empty_tag 3 0 0) = (Ok tt, tag2)
    /\ getTextAsUint32 Sample.find Sample.find FrameTypes_TRCK 0 tag2 = 3
    /\ getTextAsUint32 Sample.find Sample.find FrameTypes_TRCK 1 tag2 = 12.
Proof.
  eapply (setNumberFrame_then_getTextAsUint32 Sample.find Sample.find
            (Example.find_or_create TextInformationFrame)
            (Example.find_or_create UrlLinkFrame) Example.cfg FrameTypes_TRCK 3 12 2
            (Example.empty_tag 3 0 0) _ 0%nat).
  - reflexivity.
  - vm_compute. lia.
  - lia.
  - lia.
  - lia.
  - lia.
  - reflexivity.
  - cbn. lia.
  - intros text. reflexivity.
Defined.

Lemma set_year_then_get_year_witness :
  exists tag2,
    set_year (Example.find_or_create TextInformationFrame)
      (Example.find_or_create UrlLinkFrame) Example.cfg 1987 (Example.empty_tag 3 0 0)
    = (Ok tt, tag2)
    /\ get_year Sample.find Sample.find tag2 = if 1987 <? 1000 then 0 else 1987.
Proof.
  eapply (set_year_then_get_year Sample.find Sample.find
            (Example.find_or_create TextInformationFrame)
            (Example.find_or_create UrlLinkFrame) Example.cfg 1987
            (Example.empty_tag 3 0 0) _ 0%nat).
  - lia.
  - reflexivity.
  - cbn. lia.
  - intros text. reflexivity.
Defined.

(** ** The language setting *)

Lemma substring_length_min (m : nat) (s : string) :
  String.length (substring 0 m s) = Nat.min m (String.length s).
Proof.
  revert m. induction s as [|c s IH]; intros [|m]; cbn; try reflexivity.
  f_equal. apply IH.
Qed.

(** X16. Whatever string is assigned, the language setting afterwards has
    exactly three characters; the other settings are left alone. *)
Theorem set_language_three_characters (value : string) (cfg : Settings) :
  String.length (language (set_language value cfg)) = 3%nat
  /\ defaultEncoding (set_language value cfg) = defaultEncoding cfg
  /\ defaultVersion (set_language value cfg) = defaultVersion cfg
  /\ forceDefaultVersion (set_language value cfg) = forceDefaultVersion cfg.
Proof.
  unfold set_language. cbn [language defaultEncoding defaultVersion forceDefaultVersion].
  repeat split.
  destruct (negb (truthy value)); cbn [orb]; [reflexivity|].
  destruct (Nat.ltb_spec (String.length value) 3) as [|Hlong]; [reflexivity|].
  rewrite substring_length_min. lia.
Qed.

(** ** Copying frames *)

Lemma filter_none {A} (P : A -> Prop) `{!forall x, Decision (P x)} (l : list A) :
  (forall x, x ∈ l -> ~ P x) -> filter P l = [].
Proof.
  induction l as [|x l IH]; intros Hnone; [reflexivity|].
  rewrite filter_cons_False by (apply Hnone; left).
  apply IH. intros y Hy. apply Hnone. right. exact Hy.
Qed.

Lemma filter_split {A} (P Q : A -> Prop) `{!forall x, Decision (P x)}
    `{!forall x, Decision (Q x)} (l : list A) :
  filter P (filter Q l) ++ filter P (filter (fun x => ~ Q x) l) ≡ₚ filter P l.
Proof.
  induction l as [|x l IH]; [reflexivity|].
  destruct (decide (Q x)) as [HQ | HQ].
  - rewrite (filter_cons_True Q), (filter_cons_False (fun x => ~ Q x)) by tauto.
    destruct (decide (P x)) as [HP | HP].
    + rewrite !(filter_cons_True P) by exact HP. cbn. f_equiv. exact IH.
    + rewrite !(filter_cons_False P) by exact HP. exact IH.
  - rewrite (filter_cons_False Q), (filter_cons_True (fun x => ~ Q x)) by tauto.
    destruct (decide (P x)) as [HP | HP].
    + rewrite !(filter_cons_True P) by exact HP.
      rewrite <- Permutation_middle. f_equiv. exact IH.
    + rewrite !(filter_cons_False P) by exact HP. exact IH.
Qed.

Lemma existsb_frameId (ident : ByteVector) (frames : list Frame.t) :
  existsb (fun f => ByteVector.equal (Frame.frameId f) ident) frames = true
  <-> ident ∈ Frame.frameId <$> frames.
Proof.
  rewrite existsb_exists, list_elem_of_fmap. split.
  - intros (f & Hin & Heq). apply ByteVector_equal_eq in Heq.
    exists f. split; [congruence | apply list_elem_of_In, Hin].
  - intros (f & -> & Hin). exists f. split; [apply list_elem_of_In, Hin|].
    apply ByteVector_equal_eq. reflexivity.
Qed.

Lemma with_frames_same (tag : Id3v2Tag) : with_frames (_frameList tag) tag = tag.
Proof. destruct tag. reflexivity. Qed.

Section CopyProperties.

Variable Frame_clone : Frame.t -> Frame.t.

(** One pass of the inner loop takes the frames of the identifier out of the
    working copy, from position [i] on, and pushes their clones when [copy]
    is set. *)
Lemma copy_group_result (ident : ByteVector) (copy : bool) (fuel : nat) :
  forall (i : nat) (frames target : list Frame.t),
  (length frames - i <= fuel)%nat ->
  copy_group Frame_clone fuel ident copy i frames target
  = Some (take i frames ++ filter (fun f => Frame.frameId f <> ident) (drop i frames),
          target ++ (if copy
                     then Frame_clone <$> filter (fun f => Frame.frameId f = ident) (drop i frames)
                     else [])).
Proof.
  induction fuel as [|fuel IH]; intros i frames target Hfuel.
  - destruct (frames !! i) as [f|] eqn:Hf.
    + apply lookup_lt_Some in Hf. lia.
    + cbn [copy_group]. rewrite Hf. apply lookup_ge_None in Hf.
      rewrite take_ge, drop_ge by lia. cbn. rewrite !app_nil_r.
      destruct copy; rewrite ?app_nil_r; reflexivity.
  - cbn [copy_group]. destruct (frames !! i) as [f|] eqn:Hf.
    + pose proof (lookup_lt_Some _ _ _ Hf) as Hi.
      rewrite (drop_S _ _ _ Hf).
      destruct (ByteVector.equal (Frame.frameId f) ident) eqn:Heq.
      * apply ByteVector_equal_eq in Heq.
        rewrite IH by (rewrite length_delete by eauto; lia).
        rewrite delete_take_drop.
        rewrite take_app_length' by (rewrite length_take; lia).
        rewrite drop_app_length' by (rewrite length_take; lia).
        rewrite filter_cons_False by (intros Hne; contradiction).
        rewrite filter_cons_True by exact Heq.
        destruct copy; [|reflexivity].
        rewrite fmap_cons, <- app_assoc. reflexivity.
      * assert (Hne : Frame.frameId f <> ident).
        { intros Hid. apply ByteVector_equal_eq in Hid. congruence. }
        rewrite IH by lia.
        rewrite (take_S_r _ _ _ Hf), <- app_assoc.
        rewrite filter_cons_True by exact Hne.
        rewrite filter_cons_False by (intros Hid; contradiction).
        reflexivity.
    + apply lookup_ge_None in Hf.
      rewrite take_ge, drop_ge by lia. cbn. rewrite !app_nil_r.
      destruct copy; rewrite ?app_nil_r; reflexivity.
Qed.

Hypothesis clone_keeps_frameId : forall f, Frame.frameId (Frame_clone f) = Frame.frameId f.

Lemma clones_frameId (frames : list Frame.t) :
  Frame.frameId <$> (Frame_clone <$> frames) = Frame.frameId <$> frames.
Proof. rewrite <- list_fmap_compose. apply list_fmap_ext. intros _ f _. apply clone_keeps_frameId. Qed.

Lemma copyTo_loop_keeping (fuel : nat) :
  forall (frames : list Frame.t) (target : Id3v2Tag),
  (length frames <= fuel)%nat ->
  exists added,
    copyTo_loop Frame_clone fuel false frames target
    = Some (Ok tt, with_frames (_frameList target ++ (Frame_clone <$> added)) target)
    /\ added ≡ₚ filter (fun f => Frame.frameId f ∉ Frame.frameId <$> _frameList target) frames.
Proof.
  induction fuel as [|fuel IH]; intros frames target Hfuel.
  - destruct frames; [|cbn in Hfuel; lia]. exists []. cbn.
    rewrite app_nil_r, with_frames_same. split; reflexivity.
  - destruct frames as [|first rest].
    { exists []. cbn. rewrite app_nil_r, with_frames_same. split; reflexivity. }
    cbn [copyTo_loop]. set (ident := Frame.frameId first).
    set (frames := first :: rest) in *.
    rewrite copy_group_result by (cbn in Hfuel |- *; lia).
    rewrite take_0, drop_0, app_nil_l.
    set (copy := negb (existsb _ _)).
    set (group := if copy then _ else _).
    assert (Hgroup : exists kept,
               group = Frame_clone <$> kept
               /\ kept = filter (fun f => Frame.frameId f ∉ Frame.frameId <$> _frameList target)
                           (filter (fun f => Frame.frameId f = ident) frames)).
    { subst group. rewrite list_filter_filter. destruct copy eqn:Hcopy; subst copy.
      - eexists. split; [reflexivity|]. apply list_filter_iff. intros f.
        apply negb_true_iff in Hcopy.
        assert (ident ∉ Frame.frameId <$> _frameList target)
          by (intros Hin; apply existsb_frameId in Hin; congruence).
        split; [intros ->; auto | tauto].
      - exists []. split; [reflexivity|]. symmetry. apply filter_none.
        intros f _ [Hnot Hid]. apply negb_false_iff, existsb_frameId in Hcopy.
        congruence. }
    destruct Hgroup as (kept & Hkept & Hkept_eq). rewrite Hkept.
    set (frames' := filter (fun f => Frame.frameId f <> ident) frames).
    assert (Hshort : (length frames' <= fuel)%nat).
    { subst frames' frames. rewrite filter_cons_False by (intros Hne; apply Hne; reflexivity).
      pose proof (length_filter (fun f => Frame.frameId f <> ident) rest).
      cbn in Hfuel. lia. }
    destruct (IH frames' (with_frames (_frameList target ++ (Frame_clone <$> kept)) target) Hshort)
      as (added' & Hrun & Hperm).
    exists (kept ++ added'). rewrite Hrun. split.
    + destruct target. cbn. rewrite fmap_app, app_assoc. reflexivity.
    + rewrite <- (filter_split _ (fun f => Frame.frameId f = ident) frames).
      rewrite <- Hkept_eq. f_equiv. rewrite Hperm.
      assert (Hlist : _frameList (with_frames (_frameList target ++ (Frame_clone <$> kept)) target)
                      = _frameList target ++ (Frame_clone <$> kept))
        by (destruct target; reflexivity).
      rewrite Hlist. subst frames'. rewrite !list_filter_filter.
      match goal with |- ?a ≡ₚ ?b => enough (a = b) as -> by reflexivity end.
      apply list_filter_iff. intros f.
      rewrite fmap_app, clones_frameId, elem_of_app.
      assert (Hids : forall id, id ∈ Frame.frameId <$> kept -> id = ident).
      { intros id (g & -> & Hg)%list_elem_of_fmap. rewrite Hkept_eq in Hg.
        apply list_elem_of_filter in Hg as [_ Hg]. apply list_elem_of_filter in Hg as [Hg _].
        exact Hg. }
      split.
      * intros [Hnot Hne]. split; [|exact Hne]. intros Hin. apply Hnot. left. exact Hin.
      * intros [Hnot Hne]. split; [|exact Hne]. intros [Hin | Hin]; [contradiction|].
        apply Hne, Hids, Hin.
Qed.

Lemma copyTo_loop_overwriting (fuel : nat) :
  forall (frames : list Frame.t) (target : Id3v2Tag),
  (length frames <= fuel)%nat ->
  Forall (fun f => length (Frame.frameId f) = 4%nat) frames ->
  exists added,
    copyTo_loop Frame_clone fuel true frames target
    = Some (Ok tt,
            with_frames
              (filter (fun g => Frame.frameId g ∉ Frame.frameId <$> frames) (_frameList target)
               ++ (Frame_clone <$> added)) target)
    /\ added ≡ₚ frames.
Proof.
  induction fuel as [|fuel IH]; intros frames target Hfuel Hids.
  - destruct frames; [|cbn in Hfuel; lia]. exists []. cbn.
    rewrite app_nil_r, filter_all, with_frames_same; [split; reflexivity|].
    apply Forall_forall. intros g _. apply not_elem_of_nil.
  - destruct frames as [|first rest].
    { exists []. cbn. rewrite app_nil_r, filter_all, with_frames_same; [split; reflexivity|].
      apply Forall_forall. intros g _. apply not_elem_of_nil. }
    cbn [copyTo_loop]. set (ident := Frame.frameId first).
    rewrite removeFrames_filter by (inversion Hids; assumption).
    set (frames := first :: rest) in *.
    rewrite copy_group_result by (cbn in Hfuel |- *; lia).
    rewrite take_0, drop_0, app_nil_l. cbn [_frameList with_frames].
    set (group := filter (fun f => Frame.frameId f = ident) frames).
    set (frames' := filter (fun f => Frame.frameId f <> ident) frames).
    assert (Hshort : (length frames' <= fuel)%nat).
    { subst frames' frames. rewrite filter_cons_False by (intros Hne; apply Hne; reflexivity).
      pose proof (length_filter (fun f => Frame.frameId f <> ident) rest).
      cbn in Hfuel. lia. }
    destruct (IH frames'
                (with_frames (filter (fun f => Frame.frameId f <> ident) (_frameList target)
                              ++ (Frame_clone <$> group))
                   (with_frames (filter (fun f => Frame.frameId f <> ident) (_frameList target))
                      target)) Hshort)
      as (added' & Hrun & Hperm); [apply Forall_filter_of, Hids|].
    exists (group ++ added'). rewrite Hrun. split.
    + destruct target as [eh list h]. unfold with_frames.
      cbn [_frameList _extendedHeader _header]. do 3 f_equal.
      rewrite fmap_app, app_assoc. apply (f_equal2 app); [|reflexivity].
      rewrite filter_app, list_filter_filter. apply (f_equal2 app).
      * apply list_filter_iff. intros g. split.
        -- intros [Hnot Hne] (f & Hid & Hf)%list_elem_of_fmap.
           destruct (decide (Frame.frameId f = ident)) as [Heq | Hother]; [congruence|].
           apply Hnot, list_elem_of_fmap. exists f. split; [exact Hid|].
           apply list_elem_of_filter. split; assumption.
        -- intros Hnot. split.
           ++ intros (f & Hid & Hf)%list_elem_of_fmap. apply list_elem_of_filter in Hf as [_ Hf].
              apply Hnot, list_elem_of_fmap. exists f. split; assumption.
           ++ intros Hid. apply Hnot, list_elem_of_fmap. exists first.
              split; [exact Hid | left].
      * apply filter_all, Forall_forall. intros c (f & -> & Hf)%list_elem_of_fmap.
        rewrite clone_keeps_frameId. apply list_elem_of_filter in Hf as [Hid _].
        intros (f' & Hid' & Hf')%list_elem_of_fmap.
        apply list_elem_of_filter in Hf' as [Hne _]. congruence.
    + rewrite Hperm. subst group frames'.
      pose proof (filter_split (fun _ : Frame.t => True)
                    (fun f => Frame.frameId f = ident) frames) as Hsplit.
      rewrite !(filter_all (fun _ => True)) in Hsplit
        by (apply Forall_forall; intros; exact I).
      exact Hsplit.
Qed.

Lemma copyTo_loop_throwing (fuel : nat) :
  forall (frames : list Frame.t) (target : Id3v2Tag),
  (length frames <= fuel)%nat ->
  Exists (fun f => length (Frame.frameId f) <> 4%nat) frames ->
  exists target',
    copyTo_loop Frame_clone fuel true frames target = Some (Throw ident_error, target').
Proof.
  induction fuel as [|fuel IH]; intros frames target Hfuel Hbad.
  - destruct frames; [inversion Hbad | cbn in Hfuel; lia].
  - destruct frames as [|first rest]; [inversion Hbad|].
    cbn [copyTo_loop]. set (ident := Frame.frameId first).
    destruct (decide (length ident = 4%nat)) as [Hlen | Hlen].
    + rewrite removeFrames_filter by exact Hlen.
      set (frames := first :: rest) in *.
      rewrite copy_group_result by (cbn in Hfuel |- *; lia).
      rewrite take_0, drop_0, app_nil_l.
      apply IH.
      * subst frames. rewrite filter_cons_False by (intros Hne; apply Hne; reflexivity).
        pose proof (length_filter (fun f => Frame.frameId f <> ident) rest).
        cbn in Hfuel. lia.
      * apply Exists_exists in Hbad as (f & Hf & Hflen). apply Exists_exists.
        exists f. split; [|exact Hflen]. apply list_elem_of_filter. split; [congruence|].
        exact Hf.
    + unfold removeFrames. apply Nat.eqb_neq in Hlen. rewrite Hlen. cbn [negb].
      eexists. reflexivity.
Qed.

End CopyProperties.

(** X17. Copying to another ID3v2 container without overwriting ends with
    no error, leaves the frames of the target in place and in order, and
    appends clones of exactly those frames of the source whose identifier no
    frame of the target had, provided a clone has the identifier of its
    original. *)
Theorem copyTo_without_overwrite (Frame_clone : Frame.t -> Frame.t) (fuel : nat)
    (this target : Id3v2Tag) :
  (forall f, Frame.frameId (Frame_clone f) = Frame.frameId f) ->
  (length (_frameList this) <= fuel)%nat ->
  exists added,
    copyTo Frame_clone fuel this target false
    = Some (Ok tt, with_frames (_frameList target ++ (Frame_clone <$> added)) target)
    /\ added ≡ₚ filter (fun f => Frame.frameId f ∉ Frame.frameId <$> _frameList target)
                  (_frameList this).
Proof. intros Hclone Hfuel. apply copyTo_loop_keeping; assumption. Qed.

Lemma copyTo_without_overwrite_witness :
  exists added,
    copyTo Sample.clone 3
      (Sample.tag_of [Example.text_frame "TIT2" "A"; Example.text_frame "TALB" "B";
                      Example.text_frame "TALB" "C"])
      Sample.tag4 false
    = Some (Ok tt, with_frames (_frameList Sample.tag4 ++ (Sample.clone <$> added)) Sample.tag4)
    /\ added ≡ₚ filter (fun f => Frame.frameId f ∉ Frame.frameId <$> _frameList Sample.tag4)
                  [Example.text_frame "TIT2" "A"; Example.text_frame "TALB" "B";
                   Example.text_frame "TALB" "C"].
Proof.
  apply (copyTo_without_overwrite Sample.clone 3
           (Sample.tag_of [Example.text_frame "TIT2" "A"; Example.text_frame "TALB" "B";
                           Example.text_frame "TALB" "C"]) Sample.tag4).
  - intros f. reflexivity.
  - cbn. lia.
Defined.

(** X18. Copying with overwriting, when every identifier of the source has
    four bytes, ends with no error: the target keeps, in order, its frames of
    identifiers the source does not have, followed by clones of all frames of
    the source. *)
Theorem copyTo_with_overwrite (Frame_clone : Frame.t -> Frame.t) (fuel : nat)
    (this target : Id3v2Tag) :
  (forall f, Frame.frameId (Frame_clone f) = Frame.frameId f) ->
  (length (_frameList this) <= fuel)%nat ->
  Forall (fun f => length (Frame.frameId f) = 4%nat) (_frameList this) ->
  exists added,
    copyTo Frame_clone fuel this target true
    = Some (Ok tt,
            with_frames
              (filter (fun g => Frame.frameId g ∉ Frame.frameId <$> _frameList this)
                 (_frameList target)
               ++ (Frame_clone <$> added)) target)
    /\ added ≡ₚ _frameList this.
Proof. intros Hclone Hfuel Hids. apply copyTo_loop_overwriting; assumption. Qed.

Lemma copyTo_with_overwrite_witness :
  exists added,
    copyTo Sample.clone 3
      (Sample.tag_of [Example.text_frame "TIT2" "A"; Example.text_frame "TALB" "B";
                      Example.text_frame "TIT2" "C"])
      Sample.tag4 true
    = Some (Ok tt,
            with_frames
              (filter (fun g => Frame.frameId g ∉ Frame.frameId <$>
                          [Example.text_frame "TIT2" "A"; Example.text_frame "TALB" "B";
                           Example.text_frame "TIT2" "C"])
                 (_frameList Sample.tag4)
               ++ (Sample.clone <$> added)) Sample.tag4)
    /\ added ≡ₚ [Example.text_frame "TIT2" "A"; Example.text_frame "TALB" "B";
                 Example.text_frame "TIT2" "C"].
Proof.
  apply (copyTo_with_overwrite Sample.clone 3
           (Sample.tag_of [Example.text_frame "TIT2" "A"; Example.text_frame "TALB" "B";
                           Example.text_frame "TIT2" "C"]) Sample.tag4).
  - intros f. reflexivity.
  - cbn. lia.
  - repeat constructor.
Defined.

(** X19. Copying with overwriting throws the identifier error of
    [removeFrames] as soon as the source holds a frame whose identifier does
    not have four bytes, wherever in the source that frame is. *)
Theorem copyTo_overwrite_throws (Frame_clone : Frame.t -> Frame.t) (fuel : nat)
    (this target : Id3v2Tag) :
  (length (_frameList this) <= fuel)%nat ->
  Exists (fun f => length (Frame.frameId f) <> 4%nat) (_frameList this) ->
  exists target', copyTo Frame_clone fuel this target true = Some (Throw ident_error, target').
Proof. intros Hfuel Hbad. apply copyTo_loop_throwing; assumption. Qed.

Lemma copyTo_overwrite_throws_witness :
  exists target',
    copyTo Sample.clone 2
      (Sample.tag_of [Example.text_frame "TIT2" "A"; Example.text_frame "TAL" "B"])
      Sample.tag4 true
    = Some (Throw ident_error, target').
Proof.
  apply (copyTo_overwrite_throws Sample.clone 2
           (Sample.tag_of [Example.text_frame "TIT2" "A"; Example.text_frame "TAL" "B"])
           Sample.tag4).
  - cbn. lia.
  - right. left. cbn. lia.
Defined.

(** ** Moving a frame in front of its type *)

(** Once the loop holds a displaced frame [s], it shifts the rest of the
    list by one place, up to the position of the given frame if that is
    ahead. *)
Lemma makeFirstOfType_loop_shift (frame : Frame.t) (where_ : option nat) :
  forall (todo done : list Frame.t) (s : Frame.t) (n : nat),
  (length todo <= n)%nat ->
  (let '(returned, swapping, frames) :=
     makeFirstOfType_loop frame where_ n (length done) (Some s) (done ++ todo) in
   if returned then frames
   else match swapping with Some s' => frames ++ [s'] | None => frames end)
  = done ++ match where_ with
            | Some p =>
                if decide (length done <= p < length done + length todo)%nat
                then delete (S (p - length done)) (s :: todo)
                else s :: todo
            | None => s :: todo
            end.
Proof.
  induction todo as [|t todo IH]; intros done s n Hn.
  - assert (Hloop : makeFirstOfType_loop frame where_ n (length done) (Some s) (done ++ [])
                    = (false, Some s, done ++ [])).
    { destruct n; [reflexivity|]. cbn [makeFirstOfType_loop].
      rewrite lookup_ge_None_2 by (rewrite app_nil_r; lia). reflexivity. }
    rewrite Hloop, app_nil_r. destruct where_ as [p|]; [|reflexivity].
    rewrite decide_False by (cbn; lia). reflexivity.
  - destruct n as [|n]; [cbn in Hn; lia|]. cbn [makeFirstOfType_loop].
    rewrite list_lookup_middle by reflexivity.
    rewrite insert_app_r_alt, Nat.sub_diag by lia. cbn [insert list_insert].
    destruct where_ as [p|].
    + destruct (decide (p = length done)) as [-> | Hp].
      * rewrite bool_decide_true by reflexivity.
        rewrite decide_True by (cbn; lia). rewrite Nat.sub_diag. reflexivity.
      * rewrite bool_decide_false by congruence.
        specialize (IH (done ++ [s]) t n ltac:(cbn in Hn; lia)).
        rewrite length_app, <- app_assoc in IH. cbn [length app] in IH.
        rewrite Nat.add_1_r in IH. rewrite IH, <- app_assoc. cbn [app]. f_equal.
        cbn [length].
        destruct (decide (S (length done) <= p < S (length done) + length todo)%nat)
          as [Hin | Hout].
        -- rewrite decide_True by lia.
           replace (p - length done)%nat with (S (p - S (length done))) by lia.
           reflexivity.
        -- rewrite decide_False by lia. reflexivity.
    + rewrite bool_decide_false by discriminate.
      specialize (IH (done ++ [s]) t n ltac:(cbn in Hn; lia)).
      rewrite length_app, <- app_assoc in IH. cbn [length app] in IH.
      rewrite Nat.add_1_r in IH. rewrite IH, <- app_assoc. reflexivity.
Qed.

(** Before that, the loop passes over the frames of other identifiers. *)
Lemma makeFirstOfType_loop_search (frame : Frame.t) (where_ : option nat)
    (rest : list Frame.t) :
  forall (pre done : list Frame.t) (n : nat),
  (length pre + length rest <= n)%nat ->
  Forall (fun f => Frame.frameId f <> Frame.frameId frame) pre ->
  match rest with
  | [] => True
  | g :: _ => Frame.frameId g = Frame.frameId frame
  end ->
  (let '(returned, swapping, frames) :=
     makeFirstOfType_loop frame where_ n (length done) None (done ++ pre ++ rest) in
   if returned then frames
   else match swapping with Some s' => frames ++ [s'] | None => frames end)
  = done ++ pre ++
    match rest with
    | [] => []
    | _ :: _ =>
        match where_ with
        | Some p =>
            if decide (length done + length pre <= p
                       < length done + length pre + length rest)%nat
            then delete (S (p - (length done + length pre))) (frame :: rest)
            else frame :: rest
        | None => frame :: rest
        end
    end.
Proof.
  induction pre as [|x pre IH]; intros done n Hn Hpre Hrest.
  - cbn [app length] in *. rewrite Nat.add_0_r. destruct rest as [|g rest].
    + assert (Hloop : makeFirstOfType_loop frame where_ n (length done) None (done ++ [])
                      = (false, None, done ++ [])).
      { destruct n; [reflexivity|]. cbn [makeFirstOfType_loop].
        rewrite lookup_ge_None_2 by (rewrite app_nil_r; lia). reflexivity. }
      rewrite Hloop. reflexivity.
    + assert (Hloop : makeFirstOfType_loop frame where_ n (length done) None (done ++ g :: rest)
                      = makeFirstOfType_loop frame where_ n (length done) (Some frame)
                          (done ++ g :: rest)).
      { destruct n; [cbn in Hn; lia|]. cbn [makeFirstOfType_loop].
        rewrite list_lookup_middle by reflexivity.
        rewrite (proj2 (ByteVector_equal_eq _ _) Hrest). reflexivity. }
      rewrite Hloop. apply makeFirstOfType_loop_shift. cbn in Hn |- *. lia.
  - destruct n as [|n]; [cbn in Hn; lia|]. cbn [makeFirstOfType_loop].
    change (done ++ (x :: pre) ++ rest) with (done ++ x :: (pre ++ rest)).
    rewrite list_lookup_middle by reflexivity.
    inversion Hpre as [|? ? Hx Hpre']; subst.
    destruct (ByteVector.equal (Frame.frameId x) (Frame.frameId frame)) eqn:Heq;
      [apply ByteVector_equal_eq in Heq; contradiction|].
    specialize (IH (done ++ [x]) n ltac:(cbn in Hn; lia) Hpre' Hrest).
    rewrite length_app, <- app_assoc in IH. cbn [length app] in IH.
    rewrite Nat.add_1_r in IH. rewrite IH, <- app_assoc. cbn [app length].
    do 3 f_equal. destruct rest; [reflexivity|]. destruct where_ as [p|]; [|reflexivity].
    replace (S (length done) + length pre)%nat with (length done + S (length pre))%nat by lia.
    reflexivity.
Qed.

Lemma makeFirstOfType_frames (frame : Frame.t) (where_ : option nat) (tag : Id3v2Tag) :
  makeFirstOfType frame where_ tag
  = with_frames
      (let '(returned, swapping, frames) :=
         makeFirstOfType_loop frame where_ (length (_frameList tag)) 0 None (_frameList tag) in
       if returned then frames
       else match swapping with Some s' => frames ++ [s'] | None => frames end)
      tag.
Proof.
  unfold makeFirstOfType.
  destruct (makeFirstOfType_loop _ _ _ _ _ _) as [[[] [sw|]] frames]; reflexivity.
Qed.

(** X20. [makeFirstOfType] on a frame of the list moves it in front of the
    first frame that has its identifier: the frames before that one and all
    other frames keep their order, and no frame is lost or doubled. *)
Theorem makeFirstOfType_moves_frame (frame g : Frame.t) (p : nat) (tag : Id3v2Tag)
    (pre rest : list Frame.t) :
  _frameList tag = pre ++ g :: rest ->
  Forall (fun f => Frame.frameId f <> Frame.frameId frame) pre ->
  Frame.frameId g = Frame.frameId frame ->
  _frameList tag !! p = Some frame ->
  makeFirstOfType frame (Some p) tag
  = with_frames (pre ++ frame :: delete (p - length pre)%nat (g :: rest)) tag
  /\ pre ++ frame :: delete (p - length pre)%nat (g :: rest) ≡ₚ _frameList tag.
Proof.
  intros Hlist Hpre Hg Hp.
  assert (Hge : (length pre <= p)%nat).
  { destruct (Nat.le_gt_cases (length pre) p) as [|Hlt]; [assumption|]. exfalso.
    rewrite Hlist, lookup_app_l in Hp by exact Hlt.
    rewrite Forall_forall in Hpre. apply (Hpre frame); [|reflexivity].
    apply list_elem_of_lookup. eauto. }
  assert (Hlt : (p < length pre + length (g :: rest))%nat).
  { apply lookup_lt_Some in Hp. rewrite Hlist, length_app in Hp. exact Hp. }
  split.
  - rewrite makeFirstOfType_frames. f_equal. rewrite Hlist.
    pose proof (makeFirstOfType_loop_search frame (Some p) (g :: rest) pre []
                  (length (pre ++ g :: rest))) as Hloop.
    cbn [app length] in Hloop. rewrite Hloop; [| rewrite length_app; cbn; lia | exact Hpre | exact Hg].
    rewrite decide_True by (cbn [length] in Hlt; lia). reflexivity.
  - rewrite Hlist. f_equiv. symmetry. apply delete_Permutation.
    rewrite Hlist, lookup_app_r in Hp by exact Hge. exact Hp.
Qed.

Lemma makeFirstOfType_moves_frame_witness :
  makeFirstOfType (Example.text_frame "TIT2" "C") (Some 2%nat)
    (Sample.tag_of [Example.text_frame "TALB" "B"; Example.text_frame "TIT2" "A";
                    Example.text_frame "TIT2" "C"])
  = with_frames
      ([Example.text_frame "TALB" "B"]
       ++ Example.text_frame "TIT2" "C"
          :: delete (2 - length [Example.text_frame "TALB" "B"])%nat
               [Example.text_frame "TIT2" "A"; Example.text_frame "TIT2" "C"])
      (Sample.tag_of [Example.text_frame "TALB" "B"; Example.text_frame "TIT2" "A";
                      Example.text_frame "TIT2" "C"])
  /\ [Example.text_frame "TALB" "B"]
     ++ Example.text_frame "TIT2" "C"
        :: delete (2 - length [Example.text_frame "TALB" "B"])%nat
             [Example.text_frame "TIT2" "A"; Example.text_frame "TIT2" "C"]
     ≡ₚ _frameList (Sample.tag_of [Example.text_frame "TALB" "B";
                                    Example.text_frame "TIT2" "A";
                                    Example.text_frame "TIT2" "C"]).
Proof.
  apply (makeFirstOfType_moves_frame (Example.text_frame "TIT2" "C")
           (Example.text_frame "TIT2" "A") 2%nat
           (Sample.tag_of [Example.text_frame "TALB" "B"; Example.text_frame "TIT2" "A";
                           Example.text_frame "TIT2" "C"])
           [Example.text_frame "TALB" "B"] [Example.text_frame "TIT2" "C"]).
  - reflexivity.
  - repeat constructor. vm_compute. discriminate.
  - reflexivity.
  - reflexivity.
Defined.

(** X21. [makeFirstOfType] on a frame that is not in the list puts it in
    front of the first frame that has its identifier and moves no other
    frame out of order. *)
Theorem makeFirstOfType_inserts_frame (frame g : Frame.t) (tag : Id3v2Tag)
    (pre rest : list Frame.t) :
  _frameList tag = pre ++ g :: rest ->
  Forall (fun f => Frame.frameId f <> Frame.frameId frame) pre ->
  Frame.frameId g = Frame.frameId frame ->
  makeFirstOfType frame None tag = with_frames (pre ++ frame :: g :: rest) tag.
Proof.
  intros Hlist Hpre Hg. rewrite makeFirstOfType_frames. f_equal. rewrite Hlist.
  pose proof (makeFirstOfType_loop_search frame None (g :: rest) pre []
                (length (pre ++ g :: rest))) as Hloop.
  cbn [app length] in Hloop. apply Hloop; [rewrite length_app; cbn; lia | exact Hpre | exact Hg].
Qed.

Lemma makeFirstOfType_inserts_frame_witness :
  makeFirstOfType (Example.text_frame "TIT2" "C") None
    (Sample.tag_of [Example.text_frame "TALB" "B"; Example.text_frame "TIT2" "A"])
  = with_frames
      ([Example.text_frame "TALB" "B"]
       ++ Example.text_frame "TIT2" "C" :: Example.text_frame "TIT2" "A" :: [])
      (Sample.tag_of [Example.text_frame "TALB" "B"; Example.text_frame "TIT2" "A"]).
Proof.
  apply (makeFirstOfType_inserts_frame (Example.text_frame "TIT2" "C")
           (Example.text_frame "TIT2" "A")
           (Sample.tag_of [Example.text_frame "TALB" "B"; Example.text_frame "TIT2" "A"])
           [Example.text_frame "TALB" "B"] []).
  - reflexivity.
  - repeat constructor. vm_compute. discriminate.
  - reflexivity.
Defined.

(** X22. [makeFirstOfType] leaves the container as it is when no frame of
    the list has the identifier of the frame. *)
Theorem makeFirstOfType_without_type (frame : Frame.t) (where_ : option nat)
    (tag : Id3v2Tag) :
  Forall (fun f => Frame.frameId f <> Frame.frameId frame) (_frameList tag) ->
  makeFirstOfType frame where_ tag = tag.
Proof.
  intros Hnone. rewrite makeFirstOfType_frames.
  pose proof (makeFirstOfType_loop_search frame where_ [] (_frameList tag) []
                (length (_frameList tag))) as Hloop.
  cbn [app length] in Hloop. rewrite app_nil_r in Hloop.
  rewrite Hloop; [apply with_frames_same | lia | exact Hnone | exact I].
Qed.

Lemma makeFirstOfType_without_type_witness :
  makeFirstOfType (Example.text_frame "TIT2" "C") None
    (Sample.tag_of [Example.text_frame "TALB" "B"])
  = Sample.tag_of [Example.text_frame "TALB" "B"].
Proof.
  apply (makeFirstOfType_without_type (Example.text_frame "TIT2" "C") None
           (Sample.tag_of [Example.text_frame "TALB" "B"])).
  repeat constructor. vm_compute. discriminate.
Defined.

Lemma set_track_keeps_trackCount_witness :
  exists tag2,
    set_track Sample.find Sample.find (Example.find_or_create TextInformationFrame)
      (Example.find_or_create UrlLinkFrame) Example.cfg 7
      (Sample.tag_of [Example.text_frame "TRCK" "03/12"])
    = (Ok tt, tag2)
    /\ get_track Sample.find Sample.find tag2 = 7
    /\ get_trackCount Sample.find Sample.find tag2
       = get_trackCount Sample.find Sample.find
           (Sample.tag_of [Example.text_frame "TRCK" "03/12"]).
Proof.
  eapply (set_track_keeps_trackCount Sample.find Sample.find
            (Example.find_or_create TextInformationFrame)
            (Example.find_or_create UrlLinkFrame) Example.cfg 7
            (Sample.tag_of [Example.text_frame "TRCK" "03/12"]) _ 0%nat).
  - lia.
  - vm_compute. split; discriminate.
  - left. lia.
  - reflexivity.
  - cbn. lia.
  - intros text. reflexivity.
Defined.
